(** * GridScanner: a shallow embedding of nplab/experiment/gridscanner.py

    The development models the [GridScanner] class: the axis bookkeeping
    ([_update_axes]), the unit rescaling ([rescale_parameter]), the grid
    builder ([init_grid]), the time estimate
    ([get_estimated_time_remaining]) and the scan routine ([scan_grid]).

    Numbers are modelled as the code has them: Python integers are [Z],
    numpy float64 values are the primitive binary64 [float]s, so every
    arithmetic step below rounds exactly as it does in the interpreter. *)

From Stdlib Require Import ZArith Floats Lia Reals Lra.
From Stdlib Require Uint63.
From stdpp Require Import base list strings gmap pretty.

Set Warnings "-inexact-float".
#[local] Open Scope Z_scope.

(* ===================================================================== *)
(** ** Python and numpy primitives *)
(* ===================================================================== *)

(** The exceptions the modelled code can raise.  [UserError] stands for
    whatever an overridden hook or the stage driver raises. *)
Inductive exn :=
  | AssertionError (msg : string)
  | IndexError
  | KeyError (key : string)
  | ValueError (msg : string)
  | NotImplementedError
  | OverflowError
  | UserError (msg : string).

Inductive result (A : Type) :=
  | Ok (a : A)
  | Raise (e : exn).
Arguments Ok {A} a.
Arguments Raise {A} e.

Module Py.

(** [l[i]] on a sequence: negative indices count from the end, anything
    out of range raises [IndexError]. *)
Definition getitem {A} (l : list A) (i : Z) : result A :=
  let n := Z.of_nat (length l) in
  let j := if i <? 0 then i + n else i in
  if (j <? 0) || (n <=? j) then Raise IndexError
  else match l !! Z.to_nat j with
       | Some x => Ok x
       | None => Raise IndexError
       end.

(** [l[i] = x] on a list. *)
Definition setitem {A} (l : list A) (i : Z) (x : A) : result (list A) :=
  let n := Z.of_nat (length l) in
  let j := if i <? 0 then i + n else i in
  if (j <? 0) || (n <=? j) then Raise IndexError
  else Ok (<[Z.to_nat j := x]> l).

(** [l[:n]]: the first [n] items, or all but the last [-n] when [n] is
    negative. *)
Definition slice_to {A} (l : list A) (n : Z) : list A :=
  if n <? 0 then take (Z.to_nat (Z.of_nat (length l) + n)) l
  else take (Z.to_nat n) l.

(** [l[:k] = m] on a list: the first [k] items are replaced by the whole of
    [m], whatever its length. *)
Definition slice_assign {A} (l : list A) (k : Z) (m : list A) : list A :=
  m ++ drop (length (slice_to l k)) l.

(** [[x] * n]: empty when [n <= 0]. *)
Definition repeat {A} (x : A) (n : Z) : list A := replicate (Z.to_nat n) x.

(** [range(n)] (a list in Python 2). *)
Definition range (n : Z) : list Z := seqZ 0 n.

(** [reduce(operator.mul, t, 1)]. *)
Definition prod (t : list Z) : Z := foldl Z.mul 1 t.

(** [sub in s] on strings. *)
Fixpoint contains (sub s : string) : bool :=
  String.prefix sub s ||
  match s with
  | EmptyString => false
  | String _ s' => contains sub s'
  end.

(** [enumerate(l)]. *)
Definition enumerate {A} (l : list A) : list (Z * A) := zip (seqZ 0 (Z.of_nat (length l))) l.

End Py.

Module Np.

#[local] Open Scope float_scope.

(** The conversion of a Python integer to a double.  Integers below [2^63]
    in magnitude go through the primitive conversion; larger ones through
    the reference rounding of [SpecFloat]. *)
Definition of_int (z : Z) : float :=
  if (Z.abs z <? 2 ^ 63)%Z then
    if (z <? 0)%Z then - of_uint63 (Uint63.of_Z (- z)) else of_uint63 (Uint63.of_Z z)
  else SF2Prim (binary_normalize prec emax z 0 false).

(** [ceil] of a double as an integer; [None] for infinities and NaN. *)
Definition ceil (f : float) : option Z :=
  match Prim2SF f with
  | S754_zero _ => Some 0%Z
  | S754_finite s m e =>
      let v := cond_Zopp s (Zpos m) in
      Some (if (0 <=? e)%Z then v * 2 ^ e else - ((- v) / 2 ^ (- e)))%Z
  | S754_infinity _ | S754_nan => None
  end.

Definition NPY_MAX_INTP : Z := 2 ^ 63 - 1.

(** [np.arange(start, stop, step)] on doubles.  The length is
    [ceil((stop - start) / step)]; a length that is NaN or does not fit an
    index raises [ValueError], a length that is not positive gives the empty
    array.  The items are filled as numpy does: [start], [start + step], and
    then [start + i * delta] with [delta] the difference of the first two. *)
Definition arange_item (start step : float) (i : Z) : float :=
  let first := start in
  let second := start + step in
  let delta := second - first in
  if (i =? 0)%Z then first
  else if (i =? 1)%Z then second
  else first + of_int i * delta.

Definition arange (start stop step : float) : result (list float) :=
  match ceil ((stop - start) / step) with
  | None =>
      if is_nan ((stop - start) / step)
      then Raise (ValueError "arange: cannot compute length")
      else Raise (ValueError "Maximum allowed size exceeded")
  | Some len =>
      if (NPY_MAX_INTP <? Z.abs len)%Z
      then Raise (ValueError "Maximum allowed size exceeded")
      else Ok (arange_item start step <$> seqZ 0 len)
  end.

(** An n-dimensional array of doubles: its shape and its items in C
    (row-major) order. *)
Record ndarray := { shape : list Z; data : list float }.

(** The largest number of dimensions of an array, in numpy 1.x (the
    versions that run this Python 2 module). *)
Definition NPY_MAXDIMS : Z := 32.

(** [np.zeros(shape)] followed by [fill(x)]: a shape of more than
    [NPY_MAXDIMS] dimensions raises [ValueError].  Memory is taken to be
    unbounded. *)
Definition full (sh : list Z) (x : float) : result ndarray :=
  if (NPY_MAXDIMS <? Z.of_nat (length sh))%Z
  then Raise (ValueError "sequence too large; cannot be greater than 32")
  else Ok {| shape := sh; data := replicate (Z.to_nat (Py.prod sh)) x |}.

(** The offset of a full index tuple in C order; [None] when the tuple has
    the wrong length or an index is out of bounds. *)
Fixpoint ravel (sh idx : list Z) (acc : Z) : option Z :=
  match sh, idx with
  | [], [] => Some acc
  | n :: sh', i :: idx' =>
      let j := if (i <? 0)%Z then (i + n)%Z else i in
      if ((j <? 0) || (n <=? j))%Z then None else ravel sh' idx' (acc * n + j)%Z
  | _, _ => None
  end.

(** [a[idx] = x] for a full index tuple. *)
Definition setitem (a : ndarray) (idx : list Z) (x : float) : result ndarray :=
  match ravel (shape a) idx 0 with
  | Some off => Ok {| shape := shape a; data := <[Z.to_nat off := x]> (data a) |}
  | None => Raise IndexError
  end.

(** [a[np.isfinite(a)]]: the finite items, in C order. *)
Definition finite_items (a : ndarray) : list float := filter (fun x => is_finite x = true) (data a).

(** The sum of a contiguous block of doubles as the add loop of numpy 1.9
    and later computes it ([pairwise_sum]).  Fewer than 8 items are added to
    0 from left to right.  Up to 128 items go to eight running sums, item
    [i] to sum [i mod 8]; the eight are then added in pairs and the items
    that follow the last full group of 8 are added one by one.  A longer
    block is cut in two at a multiple of 8 next below its middle, and the
    sums of the two parts are added. *)
Fixpoint accumulate8 (groups : nat) (r l : list float) : list float * list float :=
  match groups with
  | O => (r, l)
  | S k => accumulate8 k (zip_with PrimFloat.add r (take 8 l)) (drop 8 l)
  end.

Definition sum8 (r : list float) : float :=
  match r with
  | [r0; r1; r2; r3; r4; r5; r6; r7] => ((r0 + r1) + (r2 + r3)) + ((r4 + r5) + (r6 + r7))
  | _ => foldl PrimFloat.add 0 r
  end.

Definition block_sum (a : list float) : float :=
  let '(r, rest) := accumulate8 (length a / 8 - 1) (take 8 a) (drop 8 a) in
  foldl PrimFloat.add (sum8 r) rest.

Fixpoint pairwise_sum (fuel : nat) (a : list float) : float :=
  let n := length a in
  if (n <? 8)%nat then foldl PrimFloat.add 0 a
  else if (n <=? 128)%nat then block_sum a
  else match fuel with
       | O => block_sum a
       | S fuel' =>
           let n2 := (n / 2 - (n / 2) mod 8)%nat in
           pairwise_sum fuel' (take n2 a) + pairwise_sum fuel' (drop n2 a)
       end.

(** [np.sum] of a one-dimensional array: the reduction starts from 0 and
    adds the pairwise sum of the items; the recursion halves the block, so
    as many rounds as there are items is more than it needs. *)
Definition sum (l : list float) : float := 0 + pairwise_sum (length l) l.

(** [np.mean] of a one-dimensional array that numpy 1.9 or later adds up
    as one block.  Earlier versions add from left to right, and numpy may
    split a long reduction into several blocks; the time estimate below
    therefore takes [np.mean] as a parameter. *)
Definition mean (l : list float) : float := sum l / of_int (Z.of_nat (length l)).

(** [a[:k] = b] on a one-dimensional array [a] with [0 <= k]: [b] must have
    as many items as the slice, or a single one that is broadcast. *)
Definition slice_assign (a : list float) (k : Z) (b : list float) : result (list float) :=
  let n := length (Py.slice_to a k) in
  if decide (length b = n) then Ok (b ++ drop n a)
  else match b with
       | [x] => Ok (replicate n x ++ drop n a)
       | _ => Raise (ValueError "could not broadcast input array")
       end.

End Np.

(** [float(n)] for a Python integer [n], as the interpreter applies it when
    an integer meets a double in [*] or [/] or is formatted with [f]: the
    nearest double, or [OverflowError] when that is not finite. *)
Definition int_to_float (z : Z) : result float :=
  if is_infinity (Np.of_int z) then Raise OverflowError else Ok (Np.of_int z).

(** [f(x)] for a value [x] that may have raised. *)
Definition rmap {A B} (f : A -> B) (r : result A) : result B :=
  match r with Ok a => Ok (f a) | Raise e => Raise e end.


(* ===================================================================== *)
(** ** The scanner object and its environment *)
(* ===================================================================== *)

(** [self._unit_conversion]. *)
Definition _unit_conversion : gmap string float :=
  <["nm" := 1e-9%float]> (<["um" := 1e-6%float]> (<["mm" := 1e-3%float]> ∅)).

(** The attributes of a [GridScanner] instance.  [_step_times] is [None]
    until a scan has created the attribute; [acquiring] is the
    [threading.Event] the [Experiment] base class provides, as a flag. *)
Record GridScanner := {
  stage_units : float;
  axes : list string;
  axes_names : list string;
  size : list float;
  step : list float;
  init : list float;
  scan_axes : option (list (list float));
  _num_axes : Z;
  _size_unit : string;
  _step_unit : string;
  _init_unit : string;
  grid_shape : list Z;
  total_points : Z;
  status : string;
  abort_requested : bool;
  estimated_step_time : float;
  acquiring : bool;
  indices : list Z;
  _index : Z;
  _step_times : option Np.ndarray
}.

(** What the scan asks of the outside: the stage driver and the methods a
    subclass overrides.  [CMove p a] is [self.scanner.move(p, axis=a)]. *)
Inductive Call :=
  | CMove (position : float) (axis : string)
  | CScanFunction (idx : list Z)
  | COpenScan
  | CAnalyseScan
  | CCloseScan
  | CDriftCompensation
  | CPrintScanTime (t : float).

(** The environment of a run, as a function of the calls made so far:
    whether the next call raises, whether another thread sets
    [abort_requested] while that call is in progress, and what
    [time.time()] reads. *)
Record Env := {
  env_raises : list Call -> Call -> option exn;
  env_abort : list Call -> Call -> bool;
  env_time : list Call -> float
}.

(** The scanner together with the calls it has made, oldest first. *)
Record World := { self : GridScanner; calls : list Call }.

(** Computations that read and write the world and may raise; what was
    written before an exception stays written. *)
Definition M (A : Type) : Type := World -> result A * World.

Definition ret {A} (a : A) : M A := fun w => (Ok a, w).
Definition raise {A} (e : exn) : M A := fun w => (Raise e, w).
Definition bind {A B} (m : M A) (k : A -> M B) : M B :=
  fun w => match m w with
           | (Ok a, w') => k a w'
           | (Raise e, w') => (Raise e, w')
           end.
Definition lift {A} (r : result A) : M A := fun w => (r, w).
Definition get {A} (f : GridScanner -> A) : M A := fun w => (Ok (f (self w)), w).
Definition modify (f : GridScanner -> GridScanner) : M unit :=
  fun w => (Ok tt, {| self := f (self w); calls := calls w |}).

Declare Scope py_scope.
Delimit Scope py_scope with py.
Notation "'let*' x ':=' m 'in' k" := (bind m (fun x => k))
  (at level 10, x name, m at level 100, k at level 200) : py_scope.
Notation "m ;;; k" := (bind m (fun _ => k))
  (at level 100, k at level 200, right associativity) : py_scope.

(** Attribute assignments. *)
Definition set_axes v (g : GridScanner) : GridScanner :=
  {| stage_units := stage_units g; axes := v; axes_names := axes_names g; size := size g;
     step := step g; init := init g; scan_axes := scan_axes g; _num_axes := _num_axes g;
     _size_unit := _size_unit g; _step_unit := _step_unit g; _init_unit := _init_unit g;
     grid_shape := grid_shape g; total_points := total_points g; status := status g;
     abort_requested := abort_requested g; estimated_step_time := estimated_step_time g;
     acquiring := acquiring g; indices := indices g; _index := _index g;
     _step_times := _step_times g |}.
Definition set_axes_names v (g : GridScanner) : GridScanner :=
  {| stage_units := stage_units g; axes := axes g; axes_names := v; size := size g;
     step := step g; init := init g; scan_axes := scan_axes g; _num_axes := _num_axes g;
     _size_unit := _size_unit g; _step_unit := _step_unit g; _init_unit := _init_unit g;
     grid_shape := grid_shape g; total_points := total_points g; status := status g;
     abort_requested := abort_requested g; estimated_step_time := estimated_step_time g;
     acquiring := acquiring g; indices := indices g; _index := _index g;
     _step_times := _step_times g |}.
Definition set_size v (g : GridScanner) : GridScanner :=
  {| stage_units := stage_units g; axes := axes g; axes_names := axes_names g; size := v;
     step := step g; init := init g; scan_axes := scan_axes g; _num_axes := _num_axes g;
     _size_unit := _size_unit g; _step_unit := _step_unit g; _init_unit := _init_unit g;
     grid_shape := grid_shape g; total_points := total_points g; status := status g;
     abort_requested := abort_requested g; estimated_step_time := estimated_step_time g;
     acquiring := acquiring g; indices := indices g; _index := _index g;
     _step_times := _step_times g |}.
Definition set_step v (g : GridScanner) : GridScanner :=
  {| stage_units := stage_units g; axes := axes g; axes_names := axes_names g; size := size g;
     step := v; init := init g; scan_axes := scan_axes g; _num_axes := _num_axes g;
     _size_unit := _size_unit g; _step_unit := _step_unit g; _init_unit := _init_unit g;
     grid_shape := grid_shape g; total_points := total_points g; status := status g;
     abort_requested := abort_requested g; estimated_step_time := estimated_step_time g;
     acquiring := acquiring g; indices := indices g; _index := _index g;
     _step_times := _step_times g |}.
Definition set_init v (g : GridScanner) : GridScanner :=
  {| stage_units := stage_units g; axes := axes g; axes_names := axes_names g; size := size g;
     step := step g; init := v; scan_axes := scan_axes g; _num_axes := _num_axes g;
     _size_unit := _size_unit g; _step_unit := _step_unit g; _init_unit := _init_unit g;
     grid_shape := grid_shape g; total_points := total_points g; status := status g;
     abort_requested := abort_requested g; estimated_step_time := estimated_step_time g;
     acquiring := acquiring g; indices := indices g; _index := _index g;
     _step_times := _step_times g |}.
Definition set_scan_axes v (g : GridScanner) : GridScanner :=
  {| stage_units := stage_units g; axes := axes g; axes_names := axes_names g; size := size g;
     step := step g; init := init g; scan_axes := v; _num_axes := _num_axes g;
     _size_unit := _size_unit g; _step_unit := _step_unit g; _init_unit := _init_unit g;
     grid_shape := grid_shape g; total_points := total_points g; status := status g;
     abort_requested := abort_requested g; estimated_step_time := estimated_step_time g;
     acquiring := acquiring g; indices := indices g; _index := _index g;
     _step_times := _step_times g |}.
Definition set__num_axes v (g : GridScanner) : GridScanner :=
  {| stage_units := stage_units g; axes := axes g; axes_names := axes_names g; size := size g;
     step := step g; init := init g; scan_axes := scan_axes g; _num_axes := v;
     _size_unit := _size_unit g; _step_unit := _step_unit g; _init_unit := _init_unit g;
     grid_shape := grid_shape g; total_points := total_points g; status := status g;
     abort_requested := abort_requested g; estimated_step_time := estimated_step_time g;
     acquiring := acquiring g; indices := indices g; _index := _index g;
     _step_times := _step_times g |}.
Definition set__size_unit v (g : GridScanner) : GridScanner :=
  {| stage_units := stage_units g; axes := axes g; axes_names := axes_names g; size := size g;
     step := step g; init := init g; scan_axes := scan_axes g; _num_axes := _num_axes g;
     _size_unit := v; _step_unit := _step_unit g; _init_unit := _init_unit g;
     grid_shape := grid_shape g; total_points := total_points g; status := status g;
     abort_requested := abort_requested g; estimated_step_time := estimated_step_time g;
     acquiring := acquiring g; indices := indices g; _index := _index g;
     _step_times := _step_times g |}.
Definition set__step_unit v (g : GridScanner) : GridScanner :=
  {| stage_units := stage_units g; axes := axes g; axes_names := axes_names g; size := size g;
     step := step g; init := init g; scan_axes := scan_axes g; _num_axes := _num_axes g;
     _size_unit := _size_unit g; _step_unit := v; _init_unit := _init_unit g;
     grid_shape := grid_shape g; total_points := total_points g; status := status g;
     abort_requested := abort_requested g; estimated_step_time := estimated_step_time g;
     acquiring := acquiring g; indices := indices g; _index := _index g;
     _step_times := _step_times g |}.
Definition set__init_unit v (g : GridScanner) : GridScanner :=
  {| stage_units := stage_units g; axes := axes g; axes_names := axes_names g; size := size g;
     step := step g; init := init g; scan_axes := scan_axes g; _num_axes := _num_axes g;
     _size_unit := _size_unit g; _step_unit := _step_unit g; _init_unit := v;
     grid_shape := grid_shape g; total_points := total_points g; status := status g;
     abort_requested := abort_requested g; estimated_step_time := estimated_step_time g;
     acquiring := acquiring g; indices := indices g; _index := _index g;
     _step_times := _step_times g |}.
Definition set_grid v t (g : GridScanner) : GridScanner :=
  {| stage_units := stage_units g; axes := axes g; axes_names := axes_names g; size := size g;
     step := step g; init := init g; scan_axes := scan_axes g; _num_axes := _num_axes g;
     _size_unit := _size_unit g; _step_unit := _step_unit g; _init_unit := _init_unit g;
     grid_shape := v; total_points := t; status := status g;
     abort_requested := abort_requested g; estimated_step_time := estimated_step_time g;
     acquiring := acquiring g; indices := indices g; _index := _index g;
     _step_times := _step_times g |}.
Definition set_status v (g : GridScanner) : GridScanner :=
  {| stage_units := stage_units g; axes := axes g; axes_names := axes_names g; size := size g;
     step := step g; init := init g; scan_axes := scan_axes g; _num_axes := _num_axes g;
     _size_unit := _size_unit g; _step_unit := _step_unit g; _init_unit := _init_unit g;
     grid_shape := grid_shape g; total_points := total_points g; status := v;
     abort_requested := abort_requested g; estimated_step_time := estimated_step_time g;
     acquiring := acquiring g; indices := indices g; _index := _index g;
     _step_times := _step_times g |}.
Definition set_abort_requested v (g : GridScanner) : GridScanner :=
  {| stage_units := stage_units g; axes := axes g; axes_names := axes_names g; size := size g;
     step := step g; init := init g; scan_axes := scan_axes g; _num_axes := _num_axes g;
     _size_unit := _size_unit g; _step_unit := _step_unit g; _init_unit := _init_unit g;
     grid_shape := grid_shape g; total_points := total_points g; status := status g;
     abort_requested := v; estimated_step_time := estimated_step_time g;
     acquiring := acquiring g; indices := indices g; _index := _index g;
     _step_times := _step_times g |}.
Definition set_acquiring v (g : GridScanner) : GridScanner :=
  {| stage_units := stage_units g; axes := axes g; axes_names := axes_names g; size := size g;
     step := step g; init := init g; scan_axes := scan_axes g; _num_axes := _num_axes g;
     _size_unit := _size_unit g; _step_unit := _step_unit g; _init_unit := _init_unit g;
     grid_shape := grid_shape g; total_points := total_points g; status := status g;
     abort_requested := abort_requested g; estimated_step_time := estimated_step_time g;
     acquiring := v; indices := indices g; _index := _index g;
     _step_times := _step_times g |}.
Definition set_indices v (g : GridScanner) : GridScanner :=
  {| stage_units := stage_units g; axes := axes g; axes_names := axes_names g; size := size g;
     step := step g; init := init g; scan_axes := scan_axes g; _num_axes := _num_axes g;
     _size_unit := _size_unit g; _step_unit := _step_unit g; _init_unit := _init_unit g;
     grid_shape := grid_shape g; total_points := total_points g; status := status g;
     abort_requested := abort_requested g; estimated_step_time := estimated_step_time g;
     acquiring := acquiring g; indices := v; _index := _index g;
     _step_times := _step_times g |}.
Definition set__index v (g : GridScanner) : GridScanner :=
  {| stage_units := stage_units g; axes := axes g; axes_names := axes_names g; size := size g;
     step := step g; init := init g; scan_axes := scan_axes g; _num_axes := _num_axes g;
     _size_unit := _size_unit g; _step_unit := _step_unit g; _init_unit := _init_unit g;
     grid_shape := grid_shape g; total_points := total_points g; status := status g;
     abort_requested := abort_requested g; estimated_step_time := estimated_step_time g;
     acquiring := acquiring g; indices := indices g; _index := v;
     _step_times := _step_times g |}.
Definition set__step_times v (g : GridScanner) : GridScanner :=
  {| stage_units := stage_units g; axes := axes g; axes_names := axes_names g; size := size g;
     step := step g; init := init g; scan_axes := scan_axes g; _num_axes := _num_axes g;
     _size_unit := _size_unit g; _step_unit := _step_unit g; _init_unit := _init_unit g;
     grid_shape := grid_shape g; total_points := total_points g; status := status g;
     abort_requested := abort_requested g; estimated_step_time := estimated_step_time g;
     acquiring := acquiring g; indices := indices g; _index := _index g;
     _step_times := v |}.

(** Python's [for x in l:] with [break], threading the local variables the
    body reassigns. *)
Inductive control := Next | Break.

Fixpoint for_in {A S} (l : list A) (body : A -> S -> M (control * S)) (s : S) : M S :=
  match l with
  | [] => ret s
  | x :: l' =>
      bind (body x s) (fun r =>
        match r with
        | (Next, s') => for_in l' body s'
        | (Break, s') => ret s'
        end)
  end.

(** [d[k]] on a dict. *)
Definition dict_get (d : gmap string float) (k : string) : result float :=
  match d !! k with
  | Some v => Ok v
  | None => Raise (KeyError k)
  end.

Definition len {A} (l : list A) : Z := Z.of_nat (length l).

#[local] Open Scope py_scope.

(* ===================================================================== *)
(** ** GridScanner methods that need no environment *)
(* ===================================================================== *)

(** [GridScanner._update_axes], the setter of the [num_axes] property. *)
Definition _update_axes (num_axes : Z) : M unit :=
  modify (set__num_axes num_axes) ;;;
  let* current_axes := get axes in
  let* current_axes_names := get axes_names in
  let* current_size := get size in
  let* current_step := get step in
  let* current_init := get init in
  let* n := get _num_axes in
  if len current_axes <? n then
    modify (set_axes (Py.repeat EmptyString n)) ;;;
    modify (set_axes_names (Py.repeat EmptyString n)) ;;;
    modify (fun g => set_init (Py.repeat 0%float n)
                       (set_step (Py.repeat 0%float n) (set_size (Py.repeat 0%float n) g))) ;;;
    let* a := get axes in
    modify (set_axes (Py.slice_assign a (len current_axes) current_axes)) ;;;
    let* a := get axes_names in
    modify (set_axes_names (Py.slice_assign a (len current_axes) current_axes_names)) ;;;
    let* a := get size in
    let* a' := lift (Np.slice_assign a (len current_axes) current_size) in
    modify (set_size a') ;;;
    let* a := get step in
    let* a' := lift (Np.slice_assign a (len current_axes) current_step) in
    modify (set_step a') ;;;
    let* a := get init in
    let* a' := lift (Np.slice_assign a (len current_axes) current_init) in
    modify (set_init a')
  else
    modify (set_axes (Py.slice_to current_axes n)) ;;;
    modify (set_axes_names (Py.slice_to current_axes_names n)) ;;;
    modify (set_size (Py.slice_to current_size n)) ;;;
    modify (set_step (Py.slice_to current_step n)) ;;;
    modify (set_init (Py.slice_to current_init n)).

(** The parameters the unit properties rescale: ['size'], ['step'] and
    ['init'], as [size_unit], [step_unit] and [init_unit] bind them. *)
Inductive Param := Size | Step | Init.

Definition unit_attr (p : Param) : GridScanner -> string :=
  match p with Size => _size_unit | Step => _step_unit | Init => _init_unit end.
Definition set_unit_attr (p : Param) : string -> GridScanner -> GridScanner :=
  match p with Size => set__size_unit | Step => set__step_unit | Init => set__init_unit end.
Definition param_attr (p : Param) : GridScanner -> list float :=
  match p with Size => size | Step => step | Init => init end.
Definition set_param_attr (p : Param) : list float -> GridScanner -> GridScanner :=
  match p with Size => set_size | Step => set_step | Init => set_init end.

(** [GridScanner.rescale_parameter]. *)
Definition rescale_parameter (param : Param) (value : string) : M unit :=
  match _unit_conversion !! value with
  | None => raise (AssertionError "a valid unit must be supplied")
  | Some _ =>
      let* old_value := get (unit_attr param) in
      modify (set_unit_attr param value) ;;;
      let* a := get (param_attr param) in
      let* c_old := lift (dict_get _unit_conversion old_value) in
      let* c_new := lift (dict_get _unit_conversion value) in
      modify (set_param_attr param ((fun x => x * (c_old / c_new))%float <$> a))
  end.

(** The body of the loop [for i in range(len(axes))] of [init_grid]. *)
Definition init_axis (size step init : list float) (i : Z) (scan_axes : list (list float))
    : M (control * list (list float)) :=
  let* x := lift (Py.getitem size i) in
  let* u := get _size_unit in
  let* c := lift (dict_get _unit_conversion u) in
  let s := (x * c)%float in
  let* x := lift (Py.getitem step i) in
  let* u := get _step_unit in
  let* c := lift (dict_get _unit_conversion u) in
  let st := (x * c)%float in
  let* x := lift (Py.getitem init i) in
  let* u := get _init_unit in
  let* c := lift (dict_get _unit_conversion u) in
  let s0 := (x * c)%float in
  let* a := lift (Np.arange 0 (s + st / 2) st) in
  let ax := (fun x => x - s / 2 + s0)%float <$> a in
  ret (Next, scan_axes ++ [ax]).

(** [GridScanner.init_grid]. *)
Definition init_grid (axes : list string) (size step init : list float) : M (list (list float)) :=
  let* scan_axes := for_in (Py.range (len axes)) (init_axis size step init) [] in
  let shape := (fun ax : list float => len ax) <$> scan_axes in
  modify (set_grid shape (Py.prod shape)) ;;;
  modify (set_scan_axes (Some scan_axes)) ;;;
  ret scan_axes.

(** A Python number: [get_estimated_time_remaining] returns the integer
    [0], [np.inf] or a float64. *)
Inductive pynum := PyInt (z : Z) | PyFloat (f : float).

Section Estimate.

(** [np.mean] on a one-dimensional array of doubles.  numpy adds the items
    up in double precision and divides the sum by their number; in which
    order it adds depends on its version, so [np.mean] is a parameter here.
    [Np.mean] is what numpy 1.9 and later compute on a block; [is_mean]
    below says what any version's result has in common. *)
Variable np_mean : list float -> float.

(** [GridScanner.get_estimated_time_remaining].  The product of the
    integer [total_points - _index] and the double converts the integer
    first. *)
Definition get_estimated_time_remaining (g : GridScanner) : result pynum :=
  match _step_times g with
  | None => Ok (PyFloat infinity)
  | Some a =>
      match Np.finite_items a with
      | [] => Ok (PyInt 0)
      | finite =>
          let average_step_time := np_mean finite in
          rmap (fun n => PyFloat (n * average_step_time))
               (int_to_float (total_points g - _index g))
      end
  end.

End Estimate.

(** Comparison within a relative tolerance, as [numpy.isclose] with
    [atol = 0] computes it: [|x - y| <= rtol * |y|]. *)
Definition rel_close (rtol x y : float) : bool :=
  (abs (x - y) <=? rtol * abs y)%float.

(** An axis is symmetric about zero, up to [tol], when each point and its
    mirror image add up to at most [tol] in magnitude. *)
Definition symmetric_within (tol : float) (ax : list float) : bool :=
  forallb (fun p : float * float => (abs (p.1 + p.2) <=? tol)%float) (zip ax (reverse ax)).

(** [GridScanner.__init__] for a stage with the given axis names: the
    fresh object is [self] of the world it returns. *)
Definition __init__ (axis_names : list string) : result unit * World :=
  let n := len axis_names in
  let g := {| stage_units := 1; axes := axis_names; axes_names := axis_names;
              size := Py.repeat 1%float n; step := Py.repeat 0.05%float n;
              init := Py.repeat 0%float n; scan_axes := None; _num_axes := n;
              _size_unit := "um"; _step_unit := "um"; _init_unit := "um";
              grid_shape := []; total_points := 0; status := "inactive";
              abort_requested := false; estimated_step_time := 0.001;
              acquiring := false; indices := []; _index := 0; _step_times := None |} in
  (init_grid (axes g) (size g) (step g) (init g) ;;;
   modify (set_status "inactive") ;;;
   modify (set_abort_requested false)) {| self := g; calls := [] |}.

(** [GridScanner.init_current_grid]. *)
Definition init_current_grid : M unit :=
  let* a := get axes in
  let* sz := get size in
  let* st := get step in
  let* i0 := get init in
  init_grid a sz st i0 ;;;
  ret tt.

(** [GridScanner.vary_axes]: [a *= multiplier] and [a /= multiplier] act
    on the array in place. *)
Definition vary_axes (name : string) (multiplier : float) : M unit :=
  if Py.contains "increase_size" name then
    let* a := get size in
    modify (set_size ((fun x => x * multiplier)%float <$> a))
  else if Py.contains "decrease_size" name then
    let* a := get size in
    modify (set_size ((fun x => x / multiplier)%float <$> a))
  else if Py.contains "increase_step" name then
    let* a := get step in
    modify (set_step ((fun x => x * multiplier)%float <$> a))
  else if Py.contains "decrease_step" name then
    let* a := get step in
    modify (set_step ((fun x => x / multiplier)%float <$> a))
  else ret tt.

Section Formatting.

(** ['{0:.1f}'.format(x)] for a double [x]. *)
Variable format_1f : float -> string.

(** The double a number is formatted or divided as: an integer is
    converted first. *)
Definition pynum_float (t : pynum) : result float :=
  match t with PyInt z => int_to_float z | PyFloat f => Ok f end.

(** [t < c] and [t >= c] for a number [t] and an integer literal [c]. *)
Definition pynum_lt (t : pynum) (c : Z) : bool :=
  match t with PyInt z => z <? c | PyFloat f => (f <? Np.of_int c)%float end.
Definition pynum_ge (t : pynum) (c : Z) : bool :=
  match t with PyInt z => c <=? z | PyFloat f => (Np.of_int c <=? f)%float end.

(** [GridScanner.format_time]. *)
Definition format_time (t : pynum) : result string :=
  if pynum_lt t 120 then
    rmap (fun x => format_1f x +:+ " s") (pynum_float t)
  else if pynum_ge t 120 && pynum_lt t 3600 then
    rmap (fun x => format_1f (x / 60) +:+ " mins") (pynum_float t)
  else if pynum_ge t 3600 then
    rmap (fun x => format_1f (x / 3600) +:+ " hours") (pynum_float t)
  else Ok "You should probably not be running this scan!".

End Formatting.

Section Position.

(** [self.scanner.get_position(axis=axis)], the reading of the stage. *)
Variable scanner_get_position : string -> float.

(** [GridScanner.get_position]. *)
Definition get_position (axis : string) : M float :=
  let* u := get stage_units in
  ret (scanner_get_position axis * u)%float.

(** [GridScanner.set_init_to_current_position]. *)
Definition set_init_to_current_position : M unit :=
  let* axs := get axes in
  for_in (Py.enumerate axs) (fun p _ =>
      let* u := get stage_units in
      let* iu := get _init_unit in
      let* c := lift (dict_get _unit_conversion iu) in
      let v := (scanner_get_position p.2 * u / c)%float in
      let* a := get init in
      let* a' := lift (Py.setitem a p.1 v) in
      modify (set_init a') ;;;
      ret (Next, tt)) tt ;;;
  let* a := get init in
  modify (set_init a).

End Position.

(* ===================================================================== *)
(** ** The scan, against an environment *)
(* ===================================================================== *)

Section Scan.

Variable env : Env.

(** A call to the outside: it is recorded, another thread may set
    [abort_requested] while it runs, and it may raise. *)
Definition call (c : Call) : M unit :=
  fun w =>
    let h := calls w in
    let g := set_abort_requested (abort_requested (self w) || env_abort env h c) (self w) in
    let w' := {| self := g; calls := h ++ [c] |} in
    match env_raises env h c with
    | Some e => (Raise e, w')
    | None => (Ok tt, w')
    end.

(** [time.time()]. *)
Definition time_time : M float := fun w => (Ok (env_time env (calls w)), w).

(** [GridScanner.move]. *)
Definition move (position : float) (axis : string) : M unit :=
  let* u := get stage_units in
  call (CMove (position / u) axis).

Definition open_scan : M unit := call COpenScan.
Definition scan_function (idx : list Z) : M unit := call (CScanFunction idx).
Definition analyse_scan : M unit := call CAnalyseScan.
Definition close_scan : M unit := call CCloseScan.
Definition update_drift_compensation : M unit := call CDriftCompensation.
Definition print_scan_time (t : float) : M unit := call (CPrintScanTime t).

(** [GridScanner._timed_scan_function]. *)
Definition _timed_scan_function (idx : list Z) : M unit :=
  let* t0 := time_time in
  scan_function idx ;;;
  let* t1 := time_time in
  let dt := (t1 - t0)%float in
  let* st := get _step_times in
  match st with
  | None => raise (UserError "AttributeError: _step_times")
  | Some a =>
      let* a' := lift (Np.setitem a idx dt) in
      modify (set__step_times (Some a'))
  end.

(** The statements at a grid point: [self.indices = idx], the timed
    measurement and [self._index += 1]. *)
Definition scan_point (idx : list Z) : M unit :=
  modify (set_indices idx) ;;;
  _timed_scan_function idx ;;;
  modify (fun g => set__index (_index g + 1) g).

(** The loop [for i in pnts[-3]] of a volume scan. *)
Definition loop_i (axes : list string) (scan_axes : list (list float)) (j k : Z)
    (i : Z) (pnts : list (list Z)) : M (control * list (list Z)) :=
  let* ab := get abort_requested in
  if ab then ret (Break, pnts) else
  let* ax := lift (Py.getitem scan_axes (-3)) in
  let* pos := lift (Py.getitem ax i) in
  let* a := lift (Py.getitem axes (-3)) in
  move pos a ;;;
  scan_point [i; j; k] ;;;
  ret (Next, pnts).

(** The loop [for j in pnts[-2]]. *)
Definition loop_j (axes : list string) (scan_axes : list (list float)) (k : Z)
    (j : Z) (pnts : list (list Z)) : M (control * list (list Z)) :=
  let* ab := get abort_requested in
  if ab then ret (Break, pnts) else
  let* ax := lift (Py.getitem scan_axes (-2)) in
  let* pos := lift (Py.getitem ax j) in
  let* a := lift (Py.getitem axes (-2)) in
  move pos a ;;;
  if len axes =? 3 then
    let* p := lift (Py.getitem pnts (-3)) in
    let* pnts := lift (Py.setitem pnts (-3) (reverse p)) in
    let* inner := lift (Py.getitem pnts (-3)) in
    let* pnts := for_in inner (loop_i axes scan_axes j k) pnts in
    ret (Next, pnts)
  else if len axes =? 2 then
    scan_point [j; k] ;;;
    ret (Next, pnts)
  else ret (Next, pnts).

(** The loop [for k in pnts[-1]] over the outermost axis. *)
Definition loop_k (axes : list string) (scan_axes : list (list float))
    (k : Z) (pnts : list (list Z)) : M (control * list (list Z)) :=
  let* ab := get abort_requested in
  if ab then ret (Break, pnts) else
  update_drift_compensation ;;;
  let* outer := lift (Py.getitem pnts (-1)) in
  modify (set_status ("Scanning layer " +:+ pretty (k + 1) +:+ "/" +:+ pretty (len outer))) ;;;
  let* ax := lift (Py.getitem scan_axes (-1)) in
  let* pos := lift (Py.getitem ax k) in
  let* a := lift (Py.getitem axes (-1)) in
  move pos a ;;;
  let* p := lift (Py.getitem pnts (-2)) in
  let* pnts := lift (Py.setitem pnts (-2) (reverse p)) in
  let* js := lift (Py.getitem pnts (-2)) in
  let* pnts := for_in js (loop_j axes scan_axes k) pnts in
  ret (Next, pnts).

(** The return to the initial positions, [for i in range(len(axes))]. *)
Definition move_back (axes : list string) (init : list float) : M unit :=
  for_in (Py.range (len axes)) (fun i _ =>
      let* x := lift (Py.getitem init i) in
      let* a := lift (Py.getitem axes i) in
      move x a ;;;
      ret (Next, tt)) tt.

(** [GridScanner.scan_grid]. *)
Definition scan_grid (axes : list string) (size step init : list float) : M unit :=
  modify (set_abort_requested false) ;;;
  let* scan_axes := init_grid axes size step init in
  open_scan ;;;
  let pnts := (fun axis : list float => Py.range (len axis)) <$> scan_axes in
  modify (set_indices (Py.repeat (-1) (len axes))) ;;;
  modify (set__index 0) ;;;
  let* shape := get grid_shape in
  let* a := lift (Np.full shape nan) in
  modify (set__step_times (Some a)) ;;;
  modify (set_status "acquiring data") ;;;
  modify (set_acquiring true) ;;;
  let* scan_start_time := time_time in
  let* outer := lift (Py.getitem pnts (-1)) in
  let* _ := for_in outer (loop_k axes scan_axes) pnts in
  let* t := time_time in
  print_scan_time (t - scan_start_time) ;;;
  modify (set_acquiring false) ;;;
  move_back axes init ;;;
  analyse_scan ;;;
  close_scan ;;;
  modify (set_status "scan complete").

End Scan.

(** The run of a computation: its result and the world it leaves. *)
Definition wp {A} (m : M A) (w : World) (Q : result A -> World -> Prop) : Prop :=
  Q (m w).1 (m w).2.


(* ===================================================================== *)
(** ** Reasoning rules for computations *)
(* ===================================================================== *)

Lemma wp_ret {A} (a : A) w Q : Q (Ok a) w -> wp (ret a) w Q.
Proof. done. Qed.

Lemma wp_raise {A} e w (Q : result A -> World -> Prop) : Q (Raise e) w -> wp (raise e) w Q.
Proof. done. Qed.

Lemma wp_lift {A} (r : result A) w Q : Q r w -> wp (lift r) w Q.
Proof. done. Qed.

Lemma wp_get {A} (f : GridScanner -> A) w Q : Q (Ok (f (self w))) w -> wp (get f) w Q.
Proof. done. Qed.

Lemma wp_modify f w Q :
  Q (Ok tt) {| self := f (self w); calls := calls w |} -> wp (modify f) w Q.
Proof. done. Qed.

Lemma wp_bind {A B} (m : M A) (k : A -> M B) w Q :
  wp m w (fun r w' => match r with
                      | Ok a => wp (k a) w' Q
                      | Raise e => Q (Raise e) w'
                      end) ->
  wp (bind m k) w Q.
Proof.
  unfold wp, bind. destruct (m w) as [[a|e] w']; simpl; auto.
Qed.

Lemma wp_mono {A} (m : M A) w (Q Q' : result A -> World -> Prop) :
  wp m w Q -> (forall r w', Q r w' -> Q' r w') -> wp m w Q'.
Proof. unfold wp. auto. Qed.

Lemma wp_run {A} (m : M A) w Q : wp m w Q -> forall r w', m w = (r, w') -> Q r w'.
Proof. unfold wp. intros H r w' E. rewrite E in H. exact H. Qed.

(** The loop rule: an invariant indexed by the items already visited. *)
Lemma wp_for_in {A S} (body : A -> S -> M (control * S))
    (I : list A -> S -> World -> Prop) (Q : result S -> World -> Prop) l s w :
  I [] s w ->
  (forall visited x rest s w, l = visited ++ x :: rest -> I visited s w ->
     wp (body x s) w (fun r w' => match r with
                                  | Ok (Next, s') => I (visited ++ [x]) s' w'
                                  | Ok (Break, s') => Q (Ok s') w'
                                  | Raise e => Q (Raise e) w'
                                  end)) ->
  (forall s w, I l s w -> Q (Ok s) w) ->
  wp (for_in l body s) w Q.
Proof.
  intros H0 Hbody Hend.
  assert (G : forall rest visited s w, l = visited ++ rest -> I visited s w ->
              wp (for_in rest body s) w Q).
  { induction rest as [|x rest IH]; intros visited s1 w1 El Hi.
    - rewrite app_nil_r in El. subst visited. apply wp_ret, Hend, Hi.
    - simpl. apply wp_bind.
      eapply wp_mono; [ apply (Hbody visited x rest s1 w1 El Hi) |].
      intros [[[|] s2]|e] w2 Hr; simpl; auto.
      apply (IH (visited ++ [x])); [ by rewrite <- app_assoc | exact Hr ]. }
  apply (G l []); auto.
Qed.

(* ===================================================================== *)
(** ** Axis bookkeeping: [_update_axes] *)
(* ===================================================================== *)

(** The five per-axis sequences have one length. *)
Definition consistent (g : GridScanner) : Prop :=
  length (axes_names g) = length (axes g) /\
  length (size g) = length (axes g) /\
  length (step g) = length (axes g) /\
  length (init g) = length (axes g).

(** What a resize to [n] items makes of a sequence: its first [n] items,
    in order, followed by fill items when it was shorter. *)
Definition resized {A} (n : Z) (fill : A) (l : list A) : list A :=
  take (Z.to_nat n) l ++ replicate (Z.to_nat n - length l) fill.

Lemma resized_length {A} n (fill : A) l : 0 <= n -> length (resized n fill l) = Z.to_nat n.
Proof.
  intros Hn. unfold resized. rewrite length_app, length_take, length_replicate. lia.
Qed.

Lemma resized_grow {A} n (fill : A) l :
  len l < n -> l ++ drop (length l) (replicate (Z.to_nat n) fill) = resized n fill l.
Proof.
  unfold len, resized. intros Hn.
  rewrite drop_replicate, take_ge by lia. done.
Qed.

Lemma resized_shrink {A} n (fill : A) l :
  0 <= n -> n <= len l -> Py.slice_to l n = resized n fill l.
Proof.
  unfold len, resized, Py.slice_to. intros H0 Hn.
  destruct (Z.ltb_spec n 0); [lia|].
  replace (Z.to_nat n - length l)%nat with 0%nat by lia. simpl. by rewrite app_nil_r.
Qed.

Lemma np_slice_assign_grow n k l :
  k = len l -> len l < n ->
  Np.slice_assign (Py.repeat 0%float n) k l = Ok (resized n 0%float l).
Proof.
  intros -> Hn. unfold Np.slice_assign, Py.slice_to, Py.repeat, len in *.
  destruct (Z.ltb_spec (Z.of_nat (length l)) 0); [lia|].
  rewrite length_take, length_replicate, Nat2Z.id.
  replace (length l `min` Z.to_nat n)%nat with (length l) by lia.
  rewrite decide_True by done. f_equal. apply resized_grow. unfold len. lia.
Qed.

Lemma py_slice_assign_grow {A} n (fill : A) k l :
  k = len l -> len l < n ->
  Py.slice_assign (Py.repeat fill n) k l = resized n fill l.
Proof.
  intros -> Hn. unfold Py.slice_assign, Py.slice_to, Py.repeat, len in *.
  destruct (Z.ltb_spec (Z.of_nat (length l)) 0); [lia|].
  rewrite length_take, length_replicate, Nat2Z.id.
  replace (length l `min` Z.to_nat n)%nat with (length l) by lia.
  apply resized_grow. unfold len. lia.
Qed.

(** C8 (as amended): on a scanner whose five per-axis sequences have one
    length, setting [num_axes] to any [n >= 0] succeeds and leaves [axes],
    [axes_names], [size], [step] and [init] each with exactly [n] items: the
    leading items are the old ones, unchanged and in order, and the items
    beyond the old length are the empty string or zero. *)
Theorem update_axes_resizes (w : World) (n : Z) :
  0 <= n -> consistent (self w) ->
  exists g',
    _update_axes n w = (Ok tt, {| self := g'; calls := calls w |}) /\
    _num_axes g' = n /\
    axes g' = resized n EmptyString (axes (self w)) /\
    axes_names g' = resized n EmptyString (axes_names (self w)) /\
    size g' = resized n 0%float (size (self w)) /\
    step g' = resized n 0%float (step (self w)) /\
    init g' = resized n 0%float (init (self w)) /\
    len (axes g') = n /\ len (axes_names g') = n /\
    len (size g') = n /\ len (step g') = n /\ len (init g') = n.
Proof.
  intros Hn (Hnames & Hsize & Hstep & Hinit).
  destruct w as [g h]. simpl in *.
  unfold _update_axes, bind, modify, get, lift. simpl.
  destruct (Z.ltb_spec (len (axes g)) n) as [Hlt|Hge].
  - simpl.
    rewrite (np_slice_assign_grow n (len (axes g)) (size g)),
            (np_slice_assign_grow n (len (axes g)) (step g)),
            (np_slice_assign_grow n (len (axes g)) (init g))
      by (unfold len in *; lia).
    eexists. split; [reflexivity|]. simpl.
    rewrite (py_slice_assign_grow n _ (len (axes g)) (axes g)),
            (py_slice_assign_grow n _ (len (axes g)) (axes_names g))
      by (unfold len in *; lia).
    unfold len. rewrite !resized_length by lia. repeat split; lia.
  - simpl. eexists. split; [reflexivity|]. simpl.
    rewrite (resized_shrink n EmptyString (axes g)),
            (resized_shrink n EmptyString (axes_names g)),
            (resized_shrink n 0%float (size g)),
            (resized_shrink n 0%float (step g)),
            (resized_shrink n 0%float (init g))
      by (unfold len in *; lia).
    unfold len. rewrite !resized_length by lia. repeat split; lia.
Qed.

(** The scanner [GridScanner()] builds for a stage with axes x, y (and z). *)
Definition scanner2 : World := (__init__ ["x"; "y"]).2.
Definition scanner3 : World := (__init__ ["x"; "y"; "z"]).2.

Lemma update_axes_resizes_witness :
  exists g',
    _update_axes 4 scanner2 = (Ok tt, {| self := g'; calls := calls scanner2 |}) /\
    _num_axes g' = 4 /\
    axes g' = resized 4 EmptyString (axes (self scanner2)) /\
    axes_names g' = resized 4 EmptyString (axes_names (self scanner2)) /\
    size g' = resized 4 0%float (size (self scanner2)) /\
    step g' = resized 4 0%float (step (self scanner2)) /\
    init g' = resized 4 0%float (init (self scanner2)) /\
    len (axes g') = 4 /\ len (axes_names g') = 4 /\
    len (size g') = 4 /\ len (step g') = 4 /\ len (init g') = 4.
Proof.
  apply (update_axes_resizes scanner2 4); [lia | vm_compute; auto].
Defined.

(** C8, counterexample: asked for [-1] axes, a three-axis scanner keeps two
    items in every sequence while [num_axes] reads [-1]. *)
Lemma update_axes_negative :
  exists w',
    _update_axes (-1) scanner3 = (Ok tt, w') /\
    _num_axes (self w') = -1 /\
    len (axes (self w')) = 2 /\ len (axes_names (self w')) = 2 /\
    len (size (self w')) = 2 /\ len (step (self w')) = 2 /\ len (init (self w')) = 2 /\
    len (axes (self w')) <> _num_axes (self w').
Proof.
  eexists. split; [vm_compute; reflexivity|]. vm_compute. repeat split; congruence.
Qed.

Lemma unit_conversion_unknown (value : string) :
  value <> "nm" -> value <> "um" -> value <> "mm" -> _unit_conversion !! value = None.
Proof.
  intros H1 H2 H3. unfold _unit_conversion.
  rewrite !lookup_insert_ne by congruence. apply lookup_empty.
Qed.

(** C10: called with a unit other than nm, um or mm, [rescale_parameter]
    raises its assertion and leaves the whole scanner, unit tags and
    parameter arrays included, as it was. *)
Theorem rescale_parameter_invalid_unit (param : Param) (value : string) (w : World) :
  value <> "nm" -> value <> "um" -> value <> "mm" ->
  rescale_parameter param value w = (Raise (AssertionError "a valid unit must be supplied"), w).
Proof.
  intros H1 H2 H3. unfold rescale_parameter.
  by rewrite unit_conversion_unknown.
Qed.

Lemma rescale_parameter_invalid_unit_witness :
  rescale_parameter Size "cm" scanner2
  = (Raise (AssertionError "a valid unit must be supplied"), scanner2).
Proof.
  apply rescale_parameter_invalid_unit; discriminate.
Defined.

(** *** Facts about doubles *)

Lemma Prim2SF_zero : Prim2SF 0 = S754_zero false.
Proof. reflexivity. Qed.

Lemma eqb_zero_inv (x : float) :
  (x =? 0)%float = true -> exists b, Prim2SF x = S754_zero b.
Proof.
  rewrite FloatAxioms.eqb_spec, Prim2SF_zero.
  destruct (Prim2SF x) as [b|b| |b m e]; eauto; unfold SFeqb; simpl;
    try destruct b; discriminate.
Qed.

Lemma unit_conversion_values (u : string) (c : float) :
  _unit_conversion !! u = Some c -> c = 1e-9%float \/ c = 1e-6%float \/ c = 1e-3%float.
Proof.
  unfold _unit_conversion. intros H.
  apply lookup_insert_Some in H as [[_ <-]|[_ H]]; [auto|].
  apply lookup_insert_Some in H as [[_ <-]|[_ H]]; [auto|].
  apply lookup_insert_Some in H as [[_ <-]|[_ H]]; [auto|].
  by rewrite lookup_empty in H.
Qed.

Lemma mul_zero_unit (x c : float) b :
  Prim2SF x = S754_zero b ->
  c = 1e-9%float \/ c = 1e-6%float \/ c = 1e-3%float ->
  Prim2SF (x * c) = S754_zero b.
Proof.
  intros Hx Hc. rewrite FloatAxioms.mul_spec, Hx.
  destruct Hc as [->|[->| ->]]; destruct b; reflexivity.
Qed.

Lemma div_by_zero_class (x z : float) b :
  Prim2SF z = S754_zero b ->
  Prim2SF (x / z) = S754_nan \/ exists s, Prim2SF (x / z) = S754_infinity s.
Proof.
  intros Hz. rewrite FloatAxioms.div_spec, Hz.
  destruct (Prim2SF x) as [s|s| |s m e]; simpl; eauto.
Qed.

(** A zero step leaves [np.arange] without a length. *)
Lemma arange_zero_step (start stop st : float) b :
  Prim2SF st = S754_zero b -> exists msg, Np.arange start stop st = Raise (ValueError msg).
Proof.
  intros Hz. unfold Np.arange, Np.ceil.
  destruct (div_by_zero_class (stop - start) st b Hz) as [E|[s E]]; rewrite E.
  - destruct (is_nan _); eauto.
  - destruct (is_nan _); eauto.
Qed.

(** *** The grid builder *)

Lemma range_split (n : Z) (visited : list Z) x rest :
  Py.range n = visited ++ x :: rest -> x = len visited /\ 0 <= x < n.
Proof.
  unfold Py.range, len. intros E.
  assert (H : seqZ 0 n !! length visited = Some x).
  { rewrite E. by rewrite list_lookup_middle. }
  apply lookup_seqZ in H. lia.
Qed.

Lemma getitem_Ok {A} (l : list A) (i : Z) x :
  Py.getitem l i = Ok x -> 0 <= i -> l !! Z.to_nat i = Some x.
Proof.
  unfold Py.getitem. intros H Hi.
  destruct (Z.ltb_spec i 0); [lia|].
  destruct (_ || _); [discriminate|].
  destruct (l !! Z.to_nat i); congruence.
Qed.

Lemma getitem_lookup {A} (l : list A) (i : nat) x :
  l !! i = Some x -> Py.getitem l (Z.of_nat i) = Ok x.
Proof.
  intros H. unfold Py.getitem.
  pose proof (lookup_lt_Some _ _ _ H).
  destruct (Z.ltb_spec (Z.of_nat i) 0); [lia|].
  destruct (Z.ltb_spec (Z.of_nat i) 0); [lia|].
  destruct (Z.leb_spec (Z.of_nat (length l)) (Z.of_nat i)); [lia|].
  simpl. by rewrite Nat2Z.id, H.
Qed.

Lemma dict_get_Ok d k v : dict_get d k = Ok v -> d !! k = Some v.
Proof. unfold dict_get. destruct (d !! k); congruence. Qed.

(** How axis [d] of a grid is built from the parameters and the unit tags
    of the scanner [g]. *)
Definition axis_built (g : GridScanner) (size step init : list float) (d : nat)
    (ax : list float) : Prop :=
  exists sz stp ini cs ct ci a,
    size !! d = Some sz /\ step !! d = Some stp /\ init !! d = Some ini /\
    _unit_conversion !! _size_unit g = Some cs /\
    _unit_conversion !! _step_unit g = Some ct /\
    _unit_conversion !! _init_unit g = Some ci /\
    Np.arange 0 (sz * cs + stp * ct / 2) (stp * ct) = Ok a /\
    ax = (fun x => x - sz * cs / 2 + ini * ci)%float <$> a.

(** The world [init_grid] leaves when it has built [sa]. *)
Definition with_grid (sa : list (list float)) (w : World) : World :=
  let shape := (fun ax : list float => len ax) <$> sa in
  {| self := set_scan_axes (Some sa) (set_grid shape (Py.prod shape) (self w));
     calls := calls w |}.

Ltac wp_lift := apply wp_bind, wp_lift;
  match goal with |- match ?r with _ => _ end => destruct r eqn:? end.
Ltac wp_get := apply wp_bind, wp_get.
Ltac wp_modify := apply wp_bind, wp_modify.

Lemma init_grid_spec axes size step init w :
  wp (init_grid axes size step init) w (fun r w' =>
    match r with
    | Ok sa => w' = with_grid sa w /\ length sa = length axes /\
               forall d ax, sa !! d = Some ax -> axis_built (self w) size step init d ax
    | Raise e => w' = w
    end).
Proof.
  unfold init_grid. apply wp_bind.
  apply (wp_for_in _ (fun visited acc w1 =>
           w1 = w /\ length acc = length visited /\
           forall d ax, acc !! d = Some ax -> axis_built (self w) size step init d ax)).
  - repeat split. intros d ax H. by rewrite lookup_nil in H.
  - intros visited x rest acc w1 El (-> & Hlen & Hacc).
    apply range_split in El as [-> Hx].
    wp_lift; [|done]. wp_get. wp_lift; [|done].
    wp_lift; [|done]. wp_get. wp_lift; [|done].
    wp_lift; [|done]. wp_get. wp_lift; [|done].
    wp_lift; [|done]. apply wp_ret.
    split; [done|]. split; [rewrite !length_app; simpl; lia|].
    intros d ax Hd.
    apply lookup_app_Some in Hd as [Hd|[Hge Hd]]; [by apply Hacc|].
    destruct (d - length acc)%nat eqn:Ed; [|by rewrite lookup_cons, lookup_nil in Hd].
    simpl in Hd. injection Hd as <-.
    assert (d = length visited) as -> by lia.
    unfold len in *.
    repeat match goal with
           | H : Py.getitem _ _ = Ok _ |- _ => apply getitem_Ok in H; [rewrite Nat2Z.id in H|lia]
           | H : dict_get _ _ = Ok _ |- _ => apply dict_get_Ok in H
           end.
    unfold axis_built. eauto 20.
  - intros acc w1 (-> & Hlen & Hacc). simpl.
    wp_modify. wp_modify. apply wp_ret.
    split; [done|]. split; [|done].
    rewrite Hlen. unfold Py.range, len. rewrite length_seqZ. lia.
Qed.

Lemma init_grid_run axes size step init w :
  match init_grid axes size step init w with
  | (Ok sa, w') => w' = with_grid sa w /\ length sa = length axes /\
                   forall d ax, sa !! d = Some ax -> axis_built (self w) size step init d ax
  | (Raise e, w') => w' = w
  end.
Proof.
  pose proof (init_grid_spec axes size step init w) as H. unfold wp in H.
  destruct (init_grid axes size step init w) as [[sa|e] w']; exact H.
Qed.

Lemma init_grid_zero_step axes size step init w (d : nat) stp :
  (d < length axes)%nat -> step !! d = Some stp -> (stp =? 0)%float = true ->
  exists e, init_grid axes size step init w = (Raise e, w).
Proof.
  intros Hd Hstp Hz.
  enough (wp (init_grid axes size step init) w (fun r w' => w' = w /\ exists e, r = Raise e)) as H.
  { unfold wp in H. destruct (init_grid axes size step init w) as [r w'].
    simpl in H. destruct H as [-> [e ->]]. eauto. }
  unfold init_grid. apply wp_bind.
  apply (wp_for_in _ (fun visited (acc : list (list float)) w1 =>
           w1 = w /\ (length visited <= d)%nat)).
  - split; [done|simpl; lia].
  - intros visited x rest acc w1 El (-> & Hv).
    pose proof El as El'. apply range_split in El as [-> Hx].
    wp_lift; [|eauto]. wp_get. wp_lift; [|eauto].
    wp_lift; [|eauto]. wp_get. wp_lift; [|eauto].
    wp_lift; [|eauto]. wp_get. wp_lift; [|eauto].
    wp_lift; [|eauto]. apply wp_ret.
    destruct (decide (length visited = d)) as [Ed|Ne].
    + exfalso. subst d.
      repeat match goal with
             | H : Py.getitem _ _ = Ok _ |- _ =>
                 apply getitem_Ok in H; [unfold len in H; rewrite Nat2Z.id in H|unfold len; lia]
             | H : dict_get _ _ = Ok _ |- _ => apply dict_get_Ok in H
             end.
      match goal with H : step !! _ = Some ?a |- _ => assert (a = stp) as -> by congruence end.
      apply eqb_zero_inv in Hz as [b Hb].
      match goal with H : _unit_conversion !! _step_unit _ = Some ?c |- _ =>
        pose proof (mul_zero_unit stp c b Hb (unit_conversion_values _ _ H)) as Hst end.
      match goal with H : Np.arange _ ?stop _ = Ok _ |- _ =>
        destruct (arange_zero_step 0 stop _ b Hst) as [msg Hm]; congruence end.
    + split; [done|]. rewrite length_app. simpl. lia.
  - intros acc w1 (-> & Hv). exfalso.
    unfold Py.range, len in Hv. rewrite length_seqZ in Hv. lia.
Qed.

(** C4: when some axis has a step equal to zero (its size being positive),
    [init_grid] raises and leaves the scanner untouched, and a scan started
    with that specification raises before it makes any call to the stage or
    to a hook. *)
Theorem zero_step_rejected env w axes size step init (d : nat) sz stp :
  (d < length axes)%nat -> size !! d = Some sz -> step !! d = Some stp ->
  (0 <? sz)%float = true -> (stp =? 0)%float = true ->
  (exists e, init_grid axes size step init w = (Raise e, w)) /\
  (exists e w', scan_grid env axes size step init w = (Raise e, w') /\ calls w' = calls w).
Proof.
  intros Hd _ Hstp _ Hz. split.
  - by apply (init_grid_zero_step axes size step init w d stp).
  - unfold scan_grid, bind at 1. simpl.
    set (w0 := {| self := set_abort_requested false (self w); calls := calls w |}).
    destruct (init_grid_zero_step axes size step init w0 d stp Hd Hstp Hz) as [e He].
    unfold bind. rewrite He. by exists e, w0.
Qed.

Lemma zero_step_rejected_witness :
  (exists e, init_grid ["x"; "y"] [1%float; 1%float] [0%float; 0.05%float] [0%float; 0%float]
               scanner2 = (Raise e, scanner2)) /\
  (exists e w', scan_grid
                  {| env_raises := fun _ _ => None; env_abort := fun _ _ => false;
                     env_time := fun _ => 0%float |}
                  ["x"; "y"] [1%float; 1%float] [0%float; 0.05%float] [0%float; 0%float]
                  scanner2 = (Raise e, w') /\ calls w' = calls scanner2).
Proof.
  apply (zero_step_rejected _ scanner2 _ _ _ _ 0%nat 1%float 0%float); try reflexivity.
  simpl. lia.
Defined.

Lemma arange_Ok start stop step a :
  Np.arange start stop step = Ok a ->
  exists n, Np.ceil ((stop - start) / step) = Some n /\
            a = Np.arange_item start step <$> seqZ 0 n.
Proof.
  unfold Np.arange. destruct (Np.ceil _) as [n|].
  - destruct (_ <? _); [discriminate|]. intros [= <-]. eauto.
  - destruct (is_nan _); discriminate.
Qed.

(** C7: every axis [init_grid] builds holds the points
    [arange_item 0 st i - s/2 + s0] for [i] from [0] below
    [ceil((s + st/2) / st)], so it starts at [-s/2 + s0], advances by the
    step and keeps the point at the upper end thanks to the half step added
    to the bound; for size 1.0, step 0.05 and centre 0.0, in any one unit,
    that is 21 points from [-s/2], symmetric about zero to within a
    billionth of a step. *)
Theorem init_grid_coordinates :
  (forall w axes size step init sa w' (d : nat) ax,
     init_grid axes size step init w = (Ok sa, w') -> sa !! d = Some ax ->
     exists sz stp ini cs ct ci n,
       size !! d = Some sz /\ step !! d = Some stp /\ init !! d = Some ini /\
       _unit_conversion !! _size_unit (self w) = Some cs /\
       _unit_conversion !! _step_unit (self w) = Some ct /\
       _unit_conversion !! _init_unit (self w) = Some ci /\
       Np.ceil ((sz * cs + stp * ct / 2 - 0) / (stp * ct)) = Some n /\
       ax = (fun i => Np.arange_item 0 (stp * ct) i - sz * cs / 2 + ini * ci)%float
              <$> seqZ 0 n) /\
  (forall w u c,
     _unit_conversion !! u = Some c ->
     _size_unit (self w) = u -> _step_unit (self w) = u -> _init_unit (self w) = u ->
     exists ax w',
       init_grid ["x"] [1%float] [0.05%float] [0%float] w = (Ok [ax], w') /\
       len ax = 21 /\
       grid_shape (self w') = [21] /\
       head ax = Some (- (1 * c / 2))%float /\
       symmetric_within (1e-9 * (0.05 * c)) ax = true).
Proof.
  split.
  - intros w axes size step init sa w' d ax Hrun Hd.
    pose proof (init_grid_run axes size step init w) as H. rewrite Hrun in H.
    destruct H as (_ & _ & H).
    destruct (H d ax Hd) as (sz & stp & ini & cs & ct & ci & a & ? & ? & ? & ? & ? & ? & Ha & ->).
    apply arange_Ok in Ha as (n & Hn & ->).
    exists sz, stp, ini, cs, ct, ci, n. repeat split; try done.
    by rewrite <- list_fmap_compose.
  - intros [g h] u c Hc Hsu Hstu Hiu. destruct g. simpl in *. subst.
    unfold _unit_conversion in Hc.
    apply lookup_insert_Some in Hc as [[<- <-]|[_ Hc]];
      [|apply lookup_insert_Some in Hc as [[<- <-]|[_ Hc]];
        [|apply lookup_insert_Some in Hc as [[<- <-]|[_ Hc]];
          [|by rewrite lookup_empty in Hc]]].
    all: eexists _, _; split; [vm_compute; reflexivity|]; vm_compute; done.
Qed.

Lemma init_grid_coordinates_witness :
  exists ax w' n,
    init_grid ["x"] [1%float] [0.05%float] [0%float] scanner2 = (Ok [ax], w') /\
    Np.ceil ((1 * 1e-6 + 0.05 * 1e-6 / 2 - 0) / (0.05 * 1e-6)) = Some n /\
    ax = (fun i => Np.arange_item 0 (0.05 * 1e-6) i - 1 * 1e-6 / 2 + 0 * 1e-6)%float
           <$> seqZ 0 n /\
    len ax = 21 /\
    symmetric_within (1e-9 * (0.05 * 1e-6)) ax = true.
Proof.
  destruct init_grid_coordinates as [Hgen Hdef].
  destruct (Hdef scanner2 "um" 1e-6%float) as (ax & w' & Hrun & Hlen & _ & _ & Hsym);
    [reflexivity|reflexivity|reflexivity|reflexivity|].
  destruct (Hgen scanner2 ["x"] [1%float] [0.05%float] [0%float] [ax] w' 0%nat ax Hrun eq_refl)
    as (sz & stp & ini & cs & ct & ci & n & Hsz & Hstp & Hini & Hcs & Hct & Hci & Hn & Hax).
  injection Hsz as <-. injection Hstp as <-. injection Hini as <-.
  assert (cs = 1e-6%float) as -> by (vm_compute in Hcs; congruence).
  assert (ct = 1e-6%float) as -> by (vm_compute in Hct; congruence).
  assert (ci = 1e-6%float) as -> by (vm_compute in Hci; congruence).
  exists ax, w', n. split; [exact Hrun|]. split; [exact Hn|]. split; [exact Hax|].
  split; [exact Hlen|exact Hsym].
Defined.

(** *** Runs of the scan *)

(** The index tuples handed to [scan_function], in call order. *)
Definition measured (l : list Call) : list (list Z) :=
  omap (fun c => match c with CScanFunction idx => Some idx | _ => None end) l.

(** The world after a call that returns. *)
Definition after_call (env : Env) (c : Call) (w : World) : World :=
  {| self := set_abort_requested (abort_requested (self w) || env_abort env (calls w) c) (self w);
     calls := calls w ++ [c] |}.

(** The calls that follow the first one during which another thread set
    [abort_requested]; [None] when no call of [ext] saw that. *)
Fixpoint after_abort (env : Env) (h ext : list Call) : option (list Call) :=
  match ext with
  | [] => None
  | c :: ext' => if env_abort env h c then Some ext' else after_abort env (h ++ [c]) ext'
  end.

(** The independence of [init_grid] from everything but the unit tags. *)
Definition same_units (g1 g2 : GridScanner) : Prop :=
  _size_unit g1 = _size_unit g2 /\ _step_unit g1 = _step_unit g2 /\ _init_unit g1 = _init_unit g2.

Lemma init_axis_pure size step init i acc w :
  exists r, init_axis size step init i acc w = (r, w) /\
            forall w2, same_units (self w) (self w2) -> init_axis size step init i acc w2 = (r, w2).
Proof.
  unfold init_axis, bind, lift, get, ret, same_units. simpl.
  destruct (Py.getitem size i); [|by eauto].
  destruct (dict_get _ (_size_unit (self w))) eqn:E1;
    [|eexists; split; [done|]; intros w2 (H1 & H2 & H3);
      by rewrite <- ?H1, <- ?H2, <- ?H3, ?E1].
  destruct (Py.getitem step i);
    [|eexists; split; [done|]; intros w2 (H1 & H2 & H3);
      by rewrite <- ?H1, <- ?H2, <- ?H3, ?E1].
  destruct (dict_get _ (_step_unit (self w))) eqn:E2;
    [|eexists; split; [done|]; intros w2 (H1 & H2 & H3);
      by rewrite <- ?H1, <- ?H2, <- ?H3, ?E1, ?E2].
  destruct (Py.getitem init i);
    [|eexists; split; [done|]; intros w2 (H1 & H2 & H3);
      by rewrite <- ?H1, <- ?H2, <- ?H3, ?E1, ?E2].
  destruct (dict_get _ (_init_unit (self w))) eqn:E3;
    [|eexists; split; [done|]; intros w2 (H1 & H2 & H3);
      by rewrite <- ?H1, <- ?H2, <- ?H3, ?E1, ?E2, ?E3].
  destruct (Np.arange _ _ _) eqn:E4;
    eexists; (split; [done|]); intros w2 (H1 & H2 & H3);
    by rewrite <- ?H1, <- ?H2, <- ?H3, ?E1, ?E2, ?E3, ?E4.
Qed.

Lemma init_loop_pure size step init l acc w :
  exists r, for_in l (init_axis size step init) acc w = (r, w) /\
            forall w2, same_units (self w) (self w2) ->
                       for_in l (init_axis size step init) acc w2 = (r, w2).
Proof.
  revert acc. induction l as [|i l IH]; intros acc; simpl.
  - eexists. split; [done|]. done.
  - destruct (init_axis_pure size step init i acc w) as (r & E & E2).
    unfold bind. rewrite E.
    destruct r as [[[|] acc']|e].
    + destruct (IH acc') as (r' & F & F2). exists r'. split; [done|].
      intros w2 Hu. rewrite (E2 w2 Hu). by apply F2.
    + eexists. split; [done|]. intros w2 Hu. by rewrite (E2 w2 Hu).
    + eexists. split; [done|]. intros w2 Hu. by rewrite (E2 w2 Hu).
Qed.

Lemma init_grid_same_units axes size step init w w2 sa :
  same_units (self w) (self w2) ->
  (init_grid axes size step init w).1 = Ok sa ->
  init_grid axes size step init w2 = (Ok sa, with_grid sa w2).
Proof.
  intros Hu. unfold init_grid, bind.
  destruct (init_loop_pure size step init (Py.range (len axes)) [] w) as (r & E & E2).
  rewrite E, (E2 w2 Hu). destruct r as [sa'|e]; simpl; [|discriminate].
  by intros [= ->].
Qed.

(** *** Indexing facts *)

Lemma getitem_valid {A} (l : list A) (i : Z) :
  0 <= i < len l -> exists x, Py.getitem l i = Ok x /\ l !! Z.to_nat i = Some x.
Proof.
  unfold len. intros Hi.
  destruct (lookup_lt_is_Some_2 l (Z.to_nat i)) as [x Hx]; [lia|].
  exists x. split; [|done].
  rewrite <- (Z2Nat.id i) by lia. by apply getitem_lookup.
Qed.

Lemma getitem_from_end {A} (l : list A) (k : nat) x :
  (0 < k <= length l)%nat -> l !! (length l - k)%nat = Some x ->
  Py.getitem l (- Z.of_nat k) = Ok x.
Proof.
  intros Hk Hx. unfold Py.getitem.
  destruct (Z.ltb_spec (- Z.of_nat k) 0); [|lia].
  destruct (Z.ltb_spec (- Z.of_nat k + Z.of_nat (length l)) 0); [lia|].
  destruct (Z.leb_spec (Z.of_nat (length l)) (- Z.of_nat k + Z.of_nat (length l))); [lia|].
  simpl. replace (Z.to_nat (- Z.of_nat k + Z.of_nat (length l))) with (length l - k)%nat by lia.
  by rewrite Hx.
Qed.

Lemma setitem_from_end {A} (l : list A) (k : nat) v :
  (0 < k <= length l)%nat ->
  Py.setitem l (- Z.of_nat k) v = Ok (<[(length l - k)%nat := v]> l).
Proof.
  intros Hk. unfold Py.setitem.
  destruct (Z.ltb_spec (- Z.of_nat k) 0); [|lia].
  destruct (Z.ltb_spec (- Z.of_nat k + Z.of_nat (length l)) 0); [lia|].
  destruct (Z.leb_spec (Z.of_nat (length l)) (- Z.of_nat k + Z.of_nat (length l))); [lia|].
  simpl. by replace (Z.to_nat (- Z.of_nat k + Z.of_nat (length l))) with (length l - k)%nat by lia.
Qed.

Lemma getitem_last {A} (f : list A) a b : Py.getitem (f ++ [a; b]) (-1) = Ok b.
Proof.
  apply (getitem_from_end _ 1); rewrite length_app; simpl; [lia|].
  replace (length f + 2 - 1)%nat with (length f + 1)%nat by lia.
  by rewrite lookup_app_r, Nat.add_sub' by lia.
Qed.

Lemma getitem_last_but_one {A} (f : list A) a b : Py.getitem (f ++ [a; b]) (-2) = Ok a.
Proof.
  apply (getitem_from_end _ 2); rewrite length_app; simpl; [lia|].
  replace (length f + 2 - 2)%nat with (length f + 0)%nat by lia.
  by rewrite lookup_app_r, Nat.add_sub' by lia.
Qed.

Lemma setitem_last_but_one {A} (f : list A) a b v :
  Py.setitem (f ++ [a; b]) (-2) v = Ok (f ++ [v; b]).
Proof.
  rewrite (setitem_from_end _ 2) by (rewrite length_app; simpl; lia).
  f_equal. rewrite length_app. simpl.
  replace (length f + 2 - 2)%nat with (length f + 0)%nat by lia.
  by rewrite insert_app_r.
Qed.

Lemma list_last_two {A} (l : list A) :
  (2 <= length l)%nat -> exists f a b, l = f ++ [a; b].
Proof.
  intros H.
  destruct (decide (l = [])) as [->|Hne]; [simpl in H; lia|].
  destruct (exists_last Hne) as (l1 & b & ->).
  rewrite length_app in H. simpl in H.
  destruct (decide (l1 = [])) as [->|Hne1]; [simpl in H; lia|].
  destruct (exists_last Hne1) as (f & a & ->).
  exists f, a, b. by rewrite <- app_assoc.
Qed.

Lemma full_ok (sh : list Z) (x : float) :
  (length sh <= 32)%nat ->
  Np.full sh x = Ok {| Np.shape := sh; Np.data := replicate (Z.to_nat (Py.prod sh)) x |}.
Proof.
  intros H. unfold Np.full, Np.NPY_MAXDIMS.
  destruct (Z.ltb_spec 32 (Z.of_nat (length sh))); [lia|done].
Qed.

Lemma ravel_valid (sh idx : list Z) acc :
  Forall2 (fun n i => 0 <= i < n) sh idx -> exists off, Np.ravel sh idx acc = Some off.
Proof.
  intros H. revert acc. induction H as [|n i sh idx Hi _ IH]; intros acc; simpl; [eauto|].
  destruct (Z.ltb_spec i 0); [lia|].
  destruct (Z.ltb_spec i 0); [lia|].
  destruct (Z.leb_spec n i); [lia|]. simpl. apply IH.
Qed.

Lemma after_abort_snoc env h ext c :
  after_abort env h (ext ++ [c]) =
  match after_abort env h ext with
  | Some post => Some (post ++ [c])
  | None => if env_abort env (h ++ ext) c then Some [] else None
  end.
Proof.
  revert h. induction ext as [|c0 ext IH]; intros h; simpl.
  - by rewrite app_nil_r.
  - destruct (env_abort env h c0); [done|].
    by rewrite IH, <- app_assoc.
Qed.

Lemma after_abort_split env h ext pre c post :
  ext = pre ++ c :: post -> env_abort env (h ++ pre) c = true ->
  exists post0, after_abort env h ext = Some post0 /\ post `suffix_of` post0.
Proof.
  intros -> Hc. revert h Hc. induction pre as [|c0 pre IH]; intros h Hc; simpl.
  - rewrite app_nil_r in Hc. rewrite Hc. by exists post.
  - destruct (env_abort env h c0).
    + eexists. split; [done|]. by apply suffix_app_r, suffix_cons_r.
    + apply IH. by rewrite <- app_assoc.
Qed.

Lemma measured_app l1 l2 : measured (l1 ++ l2) = measured l1 ++ measured l2.
Proof. apply omap_app. Qed.

Lemma measured_suffix l1 l2 :
  l1 `suffix_of` l2 -> (length (measured l1) <= length (measured l2))%nat.
Proof. intros [k ->]. rewrite measured_app, length_app. lia. Qed.

Tactic Notation "wp_use" uconstr(lem) :=
  apply wp_bind; eapply wp_mono; [eapply lem|]; simpl.

(** *** Scans in which no call raises *)

Section Completes.

Variable env : Env.
Hypothesis no_raise : forall h c, env_raises env h c = None.

Lemma wp_call c w Q :
  match env_raises env (calls w) c with
  | Some e => Q (Raise e) (after_call env c w)
  | None => Q (Ok tt) (after_call env c w)
  end -> wp (call env c) w Q.
Proof using Type.
  unfold wp, call, after_call. destruct (env_raises env (calls w) c); done.
Qed.

Lemma wp_call_ok c w Q : Q (Ok tt) (after_call env c w) -> wp (call env c) w Q.
Proof using no_raise. intros H. apply wp_call. by rewrite no_raise. Qed.

Lemma wp_time w Q : Q (Ok (env_time env (calls w))) w -> wp (time_time env) w Q.
Proof using Type. done. Qed.

Variable h0 : list Call.
Variable u : float.
Variable axes : list string.
Variable sa : list (list float).

(** The scan is specialised to two and three axes. *)
Definition specialised : bool := (len axes =? 2) || (len axes =? 3).

(** What holds of the world all along the loop nest.  [slack] bounds the
    measurements made since [abort_requested] was first set: none when the
    flag has just been tested, at most one in general. *)
Definition inv (slack : nat) (w : World) : Prop :=
  stage_units (self w) = u /\
  (exists a, _step_times (self w) = Some a /\
             Np.shape a = (fun ax : list float => len ax) <$> sa) /\
  exists ext, calls w = h0 ++ ext /\
    match after_abort env h0 ext with
    | None => abort_requested (self w) = false
    | Some post => abort_requested (self w) = true /\ (length (measured post) <= slack)%nat
    end /\
    (specialised = false -> measured ext = [] /\ _index (self w) = 0).

(** Every index of [p] is within the axis [ax]. *)
Definition in_axis (p : list Z) (ax : list float) : Prop := forall x, x ∈ p -> 0 <= x < len ax.

Definition valid_pnts (pnts : list (list Z)) : Prop := Forall2 in_axis pnts sa.

Lemma inv_weaken s w : inv s w -> inv (S s) w.
Proof using Type.
  intros (Hu & Ht & ext & Hc & Ha & Hm). split; [done|split; [done|]].
  exists ext. split; [done|split; [|done]].
  destruct (after_abort env h0 ext); [|done]. destruct Ha. split; [done|lia].
Qed.

Lemma inv_tested s w : inv s w -> abort_requested (self w) = false -> inv 0 w.
Proof using Type.
  intros (Hu & Ht & ext & Hc & Ha & Hm) Hf. split; [done|split; [done|]].
  exists ext. split; [done|split; [|done]].
  destruct (after_abort env h0 ext); [|done]. destruct Ha. congruence.
Qed.

Lemma inv_call s c w :
  measured [c] = [] -> inv s w -> inv s (after_call env c w).
Proof using Type.
  intros Hc (Hu & Ht & ext & Hcs & Ha & Hm). split; [done|split; [done|]].
  exists (ext ++ [c]). simpl. rewrite Hcs, <- app_assoc. split; [done|].
  rewrite after_abort_snoc. split.
  - destruct (after_abort env h0 ext) as [post|].
    + destruct Ha as [-> Ha]. split; [done|].
      by rewrite measured_app, Hc, app_nil_r.
    + rewrite Ha. simpl. destruct (env_abort env (h0 ++ ext) c); [split; [done|simpl; lia]|done].
  - intros Hs. destruct (Hm Hs) as [Hm1 Hm2]. by rewrite measured_app, Hm1, Hc.
Qed.

Lemma inv_measure idx w :
  specialised = true -> inv 0 w -> inv 1 (after_call env (CScanFunction idx) w).
Proof using Type.
  intros Hsp (Hu & Ht & ext & Hcs & Ha & Hm). split; [done|split; [done|]].
  exists (ext ++ [CScanFunction idx]). simpl. rewrite Hcs, <- app_assoc. split; [done|].
  rewrite after_abort_snoc. split.
  - destruct (after_abort env h0 ext) as [post|].
    + destruct Ha as [-> Ha]. split; [done|].
      rewrite measured_app, length_app. simpl. lia.
    + rewrite Ha. simpl.
      destruct (env_abort env (h0 ++ ext) _); [split; [done|simpl; lia]|done].
  - congruence.
Qed.

Lemma wp_move s pos a w :
  inv s w ->
  wp (move env pos a) w (fun r w' =>
    r = Ok tt /\ inv s w' /\ calls w' = calls w ++ [CMove (pos / u) a]).
Proof using no_raise.
  intros Hi. unfold move. apply wp_bind, wp_get. apply wp_call_ok.
  destruct Hi as (Hu & Hi). rewrite Hu. split; [done|].
  split; [|done]. apply inv_call; [done|]. by split.
Qed.

Lemma wp_scan_point idx w :
  specialised = true -> inv 0 w ->
  Forall2 (fun n i => 0 <= i < n) ((fun ax : list float => len ax) <$> sa) idx ->
  wp (scan_point env idx) w (fun r w' => r = Ok tt /\ inv 1 w').
Proof using no_raise.
  intros Hsp Hi Hidx. unfold scan_point, _timed_scan_function, scan_function.
  apply wp_bind, wp_modify.
  apply wp_bind. apply wp_bind, wp_time. apply wp_bind, wp_call_ok.
  apply wp_bind, wp_time. apply wp_bind, wp_get.
  assert (Hi1 : inv 1 (after_call env (CScanFunction idx)
                         {| self := set_indices idx (self w); calls := calls w |})).
  { apply inv_measure; [done|]. exact Hi. }
  destruct Hi1 as (Hu & (a & Ha & Hsh) & Hext).
  simpl in Ha. simpl. rewrite Ha.
  apply wp_bind, wp_lift. unfold Np.setitem.
  destruct (ravel_valid (Np.shape a) idx 0) as [off ->]; [by rewrite Hsh|].
  apply wp_modify. apply wp_modify. split; [done|].
  split; [exact Hu|]. split; [by eexists|].
  destruct Hext as (ext & Hc & Hab & Hm). exists ext.
  split; [done|split; [done|]]. congruence.
Qed.

Lemma valid_pnts_last_two pnts sf a2 a1 :
  sa = sf ++ [a2; a1] -> valid_pnts pnts ->
  exists pf p2 p1, pnts = pf ++ [p2; p1] /\ Forall2 in_axis pf sf /\
                   in_axis p2 a2 /\ in_axis p1 a1.
Proof using Type.
  intros Hsa Hv. unfold valid_pnts in Hv. rewrite Hsa in Hv.
  apply Forall2_app_inv_r in Hv as (pf & pl & Hf & Hl & ->).
  inversion Hl as [|p2 ? pl1 ? H2 Hl1]; subst.
  inversion Hl1 as [|p1 ? pl2 ? H1 Hl2]; subst.
  inversion Hl2; subst. by exists pf, p2, p1.
Qed.

Lemma valid_pnts_build pf p2 p1 sf a2 a1 :
  sa = sf ++ [a2; a1] -> Forall2 in_axis pf sf -> in_axis p2 a2 -> in_axis p1 a1 ->
  valid_pnts (pf ++ [p2; p1]).
Proof using Type.
  intros Hsa Hf H2 H1. unfold valid_pnts. rewrite Hsa.
  apply Forall2_app; [done|]. constructor; [done|]. constructor; [done|]. constructor.
Qed.

Lemma in_axis_reverse p ax : in_axis p ax -> in_axis (reverse p) ax.
Proof using Type. intros H x Hx. apply H. by apply elem_of_reverse. Qed.

Lemma getitem_first_of_three {A} (a b c : A) : Py.getitem [a; b; c] (-3) = Ok a.
Proof using Type. reflexivity. Qed.

Lemma setitem_first_of_three {A} (a b c v : A) : Py.setitem [a; b; c] (-3) v = Ok [v; b; c].
Proof using Type. reflexivity. Qed.

Lemma wp_loop_i x3 x2 x1 a3 a2 a1 (inner : list Z) j k pnts w :
  specialised = true ->
  axes = [x3; x2; x1] -> sa = [a3; a2; a1] ->
  0 <= j < len a2 -> 0 <= k < len a1 -> in_axis inner a3 ->
  inv 1 w ->
  wp (for_in inner (loop_i env axes sa j k) pnts) w (fun r w' => r = Ok pnts /\ inv 1 w').
Proof using no_raise.
  intros Hsp Hax Hsa Hj Hk Hin Hi.
  assert (Ea : Py.getitem sa (-3) = Ok a3) by (by rewrite Hsa).
  assert (Ex : Py.getitem axes (-3) = Ok x3) by (by rewrite Hax).
  apply (wp_for_in _ (fun _ s w' => s = pnts /\ inv 1 w')); [done| |by intros s w0 [-> ?]].
  intros visited i rest s w1 El [-> Hi1]. unfold loop_i.
  apply wp_bind, wp_get. destruct (abort_requested (self w1)) eqn:Hab; [by apply wp_ret|].
  apply (inv_tested _ _ Hi1) in Hab.
  apply wp_bind, wp_lift. rewrite Ea.
  destruct (getitem_valid a3 i) as (pos & -> & _).
  { apply Hin. rewrite El. apply elem_of_app. right. apply elem_of_cons. by left. }
  apply wp_bind, wp_lift. simpl.
  apply wp_bind, wp_lift. rewrite Ex.
  wp_use (wp_move 0 pos x3 w1 Hab). intros r w2 (-> & Hi2 & _).
  wp_use (wp_scan_point [i; j; k] w2 Hsp Hi2).
  { rewrite Hsa. simpl. constructor; [|by repeat (constructor; [lia|])].
    apply Hin. rewrite El. apply elem_of_app. right. apply elem_of_cons. by left. }
  intros r w3 (-> & Hi3). by apply wp_ret.
Qed.

Lemma elem_of_middle {A} (l visited rest : list A) x : l = visited ++ x :: rest -> x ∈ l.
Proof using Type. intros ->. apply elem_of_app. right. apply elem_of_cons. by left. Qed.

Lemma wp_loop_j xf x2 x1 sf a2 a1 (js : list Z) k pnts w :
  axes = xf ++ [x2; x1] -> sa = sf ++ [a2; a1] -> length xf = length sf ->
  0 <= k < len a1 -> in_axis js a2 -> valid_pnts pnts -> inv 1 w ->
  wp (for_in js (loop_j env axes sa k) pnts) w (fun r w' =>
    exists pnts', r = Ok pnts' /\ valid_pnts pnts' /\ inv 1 w').
Proof using no_raise.
  intros Hax Hsa Hlen Hk Hin Hv Hi.
  assert (Ea : Py.getitem sa (-2) = Ok a2) by (rewrite Hsa; apply getitem_last_but_one).
  assert (Ex : Py.getitem axes (-2) = Ok x2) by (rewrite Hax; apply getitem_last_but_one).
  assert (Hl : len axes = len sf + 2).
  { unfold len. rewrite Hax, length_app. simpl. lia. }
  apply (wp_for_in _ (fun _ s w' => valid_pnts s /\ inv 1 w')); [done| |by eauto].
  intros visited j rest s w1 El [Hv1 Hi1]. unfold loop_j.
  pose proof (Hin j (elem_of_middle _ _ _ _ El)) as Hj.
  apply wp_bind, wp_get. destruct (abort_requested (self w1)) eqn:Hab; [apply wp_ret; eauto|].
  apply (inv_tested _ _ Hi1) in Hab.
  apply wp_bind, wp_lift. rewrite Ea.
  destruct (getitem_valid a2 j Hj) as (pos & -> & _).
  apply wp_bind, wp_lift. simpl.
  apply wp_bind, wp_lift. rewrite Ex.
  wp_use (wp_move 0 pos x2 w1 Hab). intros r w2 (-> & Hi2 & _).
  destruct (Z.eqb_spec (len axes) 3) as [H3|N3]; [|destruct (Z.eqb_spec (len axes) 2) as [H2|N2]].
  - (* volume scan *)
    assert (Hsp : specialised = true) by (unfold specialised; rewrite H3; reflexivity).
    destruct sf as [|a3 [|? ?]]; unfold len in Hl, H3; simpl in Hl; try lia.
    destruct xf as [|x3 [|? ?]]; simpl in Hlen; try lia.
    simpl in Hsa, Hax.
    destruct (valid_pnts_last_two s [a3] a2 a1 Hsa Hv1) as (pf & p2 & p1 & -> & Hf & Hp2 & Hp1).
    inversion Hf as [|p3 ? pf' ? Hp3 Hf']; subst pf. inversion Hf'; subst pf'.
    simpl.
    apply wp_bind, wp_lift. rewrite getitem_first_of_three.
    apply wp_bind, wp_lift. rewrite setitem_first_of_three.
    apply wp_bind, wp_lift. rewrite getitem_first_of_three.
    wp_use (wp_loop_i x3 x2 x1 a3 a2 a1 (reverse p3) j k [reverse p3; p2; p1] w2);
      try done; [by apply in_axis_reverse|by apply inv_weaken|].
    intros r w3 (-> & Hi3). apply wp_ret. split; [|done].
    apply (valid_pnts_build [reverse p3] p2 p1 [a3] a2 a1); try done.
    constructor; [by apply in_axis_reverse|constructor].
  - (* plane scan *)
    assert (Hsp : specialised = true) by (unfold specialised; rewrite H2; reflexivity).
    destruct sf as [|? ?]; unfold len in Hl, H2; simpl in Hl; try lia.
    simpl in Hsa.
    wp_use (wp_scan_point [j; k] w2 Hsp Hi2).
    { rewrite Hsa. simpl. by repeat (constructor; [lia|]). }
    intros r w3 (-> & Hi3). apply wp_ret. done.
  - apply wp_ret. split; [done|]. by apply inv_weaken.
Qed.

Lemma wp_loop_k xf x2 x1 sf a2 a1 (ks : list Z) pnts w :
  axes = xf ++ [x2; x1] -> sa = sf ++ [a2; a1] -> length xf = length sf ->
  in_axis ks a1 -> valid_pnts pnts -> inv 1 w ->
  wp (for_in ks (loop_k env axes sa) pnts) w (fun r w' =>
    exists pnts', r = Ok pnts' /\ valid_pnts pnts' /\ inv 1 w').
Proof using no_raise.
  intros Hax Hsa Hlen Hin Hv Hi.
  assert (Ea : Py.getitem sa (-1) = Ok a1) by (rewrite Hsa; apply getitem_last).
  assert (Ex : Py.getitem axes (-1) = Ok x1) by (rewrite Hax; apply getitem_last).
  apply (wp_for_in _ (fun _ s w' => valid_pnts s /\ inv 1 w')); [done| |by eauto].
  intros visited k rest s w1 El [Hv1 Hi1]. unfold loop_k.
  pose proof (Hin k (elem_of_middle _ _ _ _ El)) as Hk.
  apply wp_bind, wp_get. destruct (abort_requested (self w1)) eqn:Hab; [apply wp_ret; eauto|].
  apply (inv_tested _ _ Hi1) in Hab.
  unfold update_drift_compensation. apply wp_bind, wp_call_ok.
  pose proof (inv_call 0 CDriftCompensation w1 eq_refl Hab) as Hi2.
  destruct (valid_pnts_last_two s sf a2 a1 Hsa Hv1) as (pf & p2 & p1 & -> & Hf & Hp2 & Hp1).
  apply wp_bind, wp_lift. rewrite getitem_last.
  apply wp_bind, wp_modify.
  apply wp_bind, wp_lift. rewrite Ea.
  destruct (getitem_valid a1 k Hk) as (pos & -> & _).
  apply wp_bind, wp_lift. simpl.
  apply wp_bind, wp_lift. rewrite Ex.
  wp_use (wp_move 0 pos x1); [exact Hi2|]. intros r w3 (-> & Hi3 & _).
  apply wp_bind, wp_lift. rewrite getitem_last_but_one.
  apply wp_bind, wp_lift. rewrite setitem_last_but_one.
  apply wp_bind, wp_lift. rewrite getitem_last_but_one.
  wp_use (wp_loop_j xf x2 x1 sf a2 a1 (reverse p2) k (pf ++ [reverse p2; p1]) w3);
    try done; [by apply in_axis_reverse| |by apply inv_weaken|].
  { apply (valid_pnts_build pf (reverse p2) p1 sf a2 a1); try done. by apply in_axis_reverse. }
  intros r w4 (pnts' & -> & Hv4 & Hi4). apply wp_ret. done.
Qed.

(** The moves of the return to the initial positions. *)
Definition back_moves (init : list float) : list Call :=
  zip_with (fun x a => CMove (x / u) a) init axes.

Lemma wp_move_back init w :
  (forall d, (d < length axes)%nat -> is_Some (init !! d)) -> inv 1 w ->
  wp (move_back env axes init) w (fun r w' =>
    r = Ok tt /\ inv 1 w' /\ calls w' = calls w ++ back_moves init).
Proof using no_raise.
  intros Hinit Hi. unfold move_back.
  apply (wp_for_in _ (fun visited _ w' =>
           inv 1 w' /\ calls w' = calls w ++ take (length visited) (back_moves init))).
  - split; [done|]. by rewrite app_nil_r.
  - intros visited i rest [] w1 El [Hi1 Hc1].
    apply range_split in El as [-> Hx]. unfold len in Hx.
    destruct (Hinit (length visited)) as [xi Hxi]; [lia|].
    destruct (lookup_lt_is_Some_2 axes (length visited)) as [ai Hai]; [lia|].
    apply wp_bind, wp_lift. unfold len. rewrite (getitem_lookup _ _ _ Hxi).
    apply wp_bind, wp_lift. rewrite (getitem_lookup _ _ _ Hai).
    wp_use (wp_move 1 xi ai w1 Hi1). intros r w2 (-> & Hi2 & Hc2).
    apply wp_ret. split; [done|].
    rewrite Hc2, Hc1, <- app_assoc, length_app. simpl. f_equal.
    rewrite Nat.add_1_r. symmetry. apply take_S_r.
    unfold back_moves. rewrite lookup_zip_with, Hxi. simpl. by rewrite Hai.
  - intros [] w1 [Hi1 Hc1]. split; [done|]. split; [done|].
    rewrite Hc1. f_equal. apply take_ge.
    unfold back_moves, Py.range, len. rewrite length_zip_with, length_seqZ. lia.
Qed.

Lemma scan_grid_completes size step init w :
  h0 = calls w -> u = stage_units (self w) -> (2 <= length axes <= 32)%nat ->
  (init_grid axes size step init w).1 = Ok sa ->
  exists w' body t,
    scan_grid env axes size step init w = (Ok tt, w') /\
    status (self w') = "scan complete" /\
    calls w' = h0 ++ body ++ CPrintScanTime t :: back_moves init ++ [CAnalyseScan; CCloseScan] /\
    inv 1 w'.
Proof using no_raise.
  intros Hh Hu [Hax Hmax] Hgrid.
  set (w0 := {| self := set_abort_requested false (self w); calls := calls w |}).
  assert (Hg0 : init_grid axes size step init w0 = (Ok sa, with_grid sa w0)).
  { apply (init_grid_same_units _ _ _ _ w); [done|done]. }
  pose proof (init_grid_run axes size step init w0) as Hrun. rewrite Hg0 in Hrun.
  destruct Hrun as (_ & Hlen & Hbuilt).
  assert (Hinit : forall d, (d < length axes)%nat -> is_Some (init !! d)).
  { intros d Hd. destruct (lookup_lt_is_Some_2 sa d) as [ax Hax']; [lia|].
    destruct (Hbuilt d ax Hax') as (? & ? & ini & ? & ? & ? & ? & ? & ? & Hi & _). by exists ini. }
  destruct (list_last_two axes Hax) as (xf & x2 & x1 & Eax).
  destruct (list_last_two sa) as (sf & a2 & a1 & Esa); [lia|].
  assert (Hlf : length xf = length sf).
  { rewrite Eax, Esa, !length_app in Hlen. simpl in Hlen. lia. }
  enough (wp (scan_grid env axes size step init) w (fun r w' =>
            r = Ok tt /\ status (self w') = "scan complete" /\ inv 1 w' /\
            exists body t, calls w' = h0 ++ body ++ CPrintScanTime t
                                       :: back_moves init ++ [CAnalyseScan; CCloseScan])) as H.
  { unfold wp in H. destruct (scan_grid env axes size step init w) as [r w'].
    simpl in H. destruct H as (-> & Hs & Hi & body & t & Hc). by exists w', body, t. }
  unfold scan_grid.
  apply wp_bind, wp_modify. fold w0.
  apply wp_bind. unfold wp at 1. rewrite Hg0. simpl.
  unfold open_scan. apply wp_bind, wp_call_ok.
  apply wp_bind, wp_modify. apply wp_bind, wp_modify. apply wp_bind, wp_get.
  apply wp_bind, wp_lift. rewrite full_ok by (simpl; rewrite length_fmap; lia).
  apply wp_bind, wp_modify. apply wp_bind, wp_modify. apply wp_bind, wp_modify.
  apply wp_bind, wp_time.
  apply wp_bind, wp_lift.
  assert (Ep : (fun axis : list float => Py.range (len axis)) <$> sa
               = ((fun axis : list float => Py.range (len axis)) <$> sf)
                 ++ [Py.range (len a2); Py.range (len a1)]).
  { by rewrite Esa, fmap_app. }
  rewrite Ep, getitem_last.
  match goal with |- wp _ ?wk _ => set (w1 := wk) end.
  assert (Hi1 : inv 1 w1).
  { split; [done|]. split; [by eexists|].
    exists [COpenScan]. split; [by rewrite Hh|]. simpl. rewrite <- Hh. split.
    - destruct (env_abort env h0 COpenScan); [split; [done|simpl; lia]|done].
    - done. }
  apply wp_bind.
  eapply wp_mono.
  { apply (wp_loop_k xf x2 x1 sf a2 a1); try done.
    - intros x Hx. apply elem_of_seqZ in Hx. lia.
    - unfold valid_pnts. rewrite <- Ep.
      apply Forall2_fmap_l, Forall_Forall2_diag, Forall_forall.
      intros ax _ x Hx. apply elem_of_seqZ in Hx. lia. }
  simpl. intros r w2 (pnts' & -> & _ & Hi2).
  apply wp_bind, wp_time.
  unfold print_scan_time. apply wp_bind, wp_call_ok.
  apply wp_bind, wp_modify.
  match goal with |- wp _ ?wk _ => set (w3 := wk) end.
  assert (Hi3 : inv 1 w3).
  { apply (inv_call 1 (CPrintScanTime _) w2 eq_refl Hi2). }
  wp_use (wp_move_back init w3 Hinit Hi3). intros r w4 (-> & Hi4 & Hc4).
  unfold analyse_scan, close_scan. apply wp_bind, wp_call_ok. apply wp_bind, wp_call_ok.
  apply wp_modify. split; [done|]. split; [done|].
  split.
  - apply (inv_call 1 CCloseScan _ eq_refl), (inv_call 1 CAnalyseScan _ eq_refl), Hi4.
  - destruct Hi2 as (_ & _ & ext & Hc2 & _).
    eexists ext, _. simpl. rewrite Hc4. simpl. rewrite Hc2.
    by rewrite <- !app_assoc.
Qed.

End Completes.

(** *** Plane scans that run to the end *)

(** The order in which a plane scan visits the points: row [k] of the
    outer axis is walked downwards when [k] is even, upwards when odd. *)
Definition snake_row (n : Z) (k : Z) : list (list Z) :=
  (fun j => [j; k]) <$> (if Z.even k then reverse (Py.range n) else Py.range n).

Definition snake (n m : Z) : list (list Z) := concat (snake_row n <$> Py.range m).

Section Plane.

Variable env : Env.
Hypothesis no_raise : forall h c, env_raises env h c = None.
Hypothesis no_abort : forall h c, env_abort env h c = false.

Variable h0 : list Call.
Variables x2 x1 : string.
Variables a2 a1 : list float.

Definition inv2 (m : list (list Z)) (w : World) : Prop :=
  abort_requested (self w) = false /\
  (exists a, _step_times (self w) = Some a /\ Np.shape a = [len a2; len a1]) /\
  exists ext, calls w = h0 ++ ext /\ measured ext = m.

Lemma inv2_call m c w : measured [c] = [] -> inv2 m w -> inv2 m (after_call env c w).
Proof using no_abort.
  intros Hc (Hab & Ht & ext & Hcs & Hm). split; [|split; [done|]].
  - simpl. by rewrite Hab, no_abort.
  - exists (ext ++ [c]). simpl. rewrite Hcs, <- app_assoc. split; [done|].
    by rewrite measured_app, Hc, app_nil_r.
Qed.

Lemma wp_move2 m pos a w :
  inv2 m w -> wp (move env pos a) w (fun r w' => r = Ok tt /\ inv2 m w').
Proof using no_raise no_abort.
  intros Hi. unfold move. apply wp_bind, wp_get. apply wp_call_ok; [done|].
  split; [done|]. by apply inv2_call.
Qed.

Lemma wp_scan_point2 m j k w :
  inv2 m w -> 0 <= j < len a2 -> 0 <= k < len a1 ->
  wp (scan_point env [j; k]) w (fun r w' => r = Ok tt /\ inv2 (m ++ [[j; k]]) w').
Proof using no_raise no_abort.
  intros (Hab & (a & Ha & Hsh) & ext & Hc & Hm) Hj Hk.
  unfold scan_point, _timed_scan_function, scan_function.
  apply wp_bind, wp_modify.
  apply wp_bind. apply wp_bind, wp_time. apply wp_bind, wp_call_ok; [done|].
  apply wp_bind, wp_time. apply wp_bind, wp_get. simpl. rewrite Ha.
  apply wp_bind, wp_lift. unfold Np.setitem.
  destruct (ravel_valid (Np.shape a) [j; k] 0) as [off ->].
  { rewrite Hsh. by repeat (constructor; [lia|]). }
  apply wp_modify. apply wp_modify. split; [done|].
  split; [|split; [by eexists|]].
  - simpl. by rewrite Hab, no_abort.
  - exists (ext ++ [CScanFunction [j; k]]). simpl. rewrite Hc, <- app_assoc. split; [done|].
    by rewrite measured_app, Hm.
Qed.

Lemma wp_plane_row m (js : list Z) k pnts w :
  inv2 m w -> 0 <= k < len a1 -> in_axis js a2 ->
  wp (for_in js (loop_j env [x2; x1] [a2; a1] k) pnts) w (fun r w' =>
    r = Ok pnts /\ inv2 (m ++ ((fun j => [j; k]) <$> js)) w').
Proof using no_raise no_abort.
  intros Hi Hk Hin.
  apply (wp_for_in _ (fun visited s w' =>
           s = pnts /\ inv2 (m ++ ((fun j => [j; k]) <$> visited)) w')).
  - split; [done|]. by rewrite app_nil_r.
  - intros visited j rest s w1 El [-> Hi1]. unfold loop_j.
    pose proof (Hin j (elem_of_middle _ _ _ _ El)) as Hj.
    apply wp_bind, wp_get. destruct Hi1 as (Hab & Hi1). rewrite Hab.
    assert (Hi1' : inv2 (m ++ ((fun j => [j; k]) <$> visited)) w1) by (by split).
    apply wp_bind, wp_lift. change (Py.getitem [a2; a1] (-2)) with (Ok a2 : result (list float)).
    destruct (getitem_valid a2 j Hj) as (pos & -> & _).
    apply wp_bind, wp_lift. simpl.
    apply wp_bind, wp_lift. change (Py.getitem [x2; x1] (-2)) with (Ok x2 : result string).
    wp_use (wp_move2 _ pos x2 w1 Hi1'). intros r w2 (-> & Hi2).
    change (len [x2; x1] =? 3) with false. change (len [x2; x1] =? 2) with true.
    wp_use (wp_scan_point2 _ j k w2 Hi2 Hj Hk). intros r w3 (-> & Hi3).
    apply wp_ret. split; [done|]. by rewrite fmap_app, app_assoc.
  - intros s w1 [-> Hi1]. done.
Qed.

Lemma wp_plane m0 (n : Z) w :
  inv2 m0 w -> n = len a1 ->
  wp (for_in (Py.range n) (loop_k env [x2; x1] [a2; a1])
        [Py.range (len a2); Py.range (len a1)]) w (fun r w' =>
    exists pnts, r = Ok pnts /\ inv2 (m0 ++ snake (len a2) n) w').
Proof using no_raise no_abort.
  intros Hi Hn.
  apply (wp_for_in _ (fun visited s w' =>
           s = [if Z.even (len visited) then Py.range (len a2) else reverse (Py.range (len a2));
                Py.range (len a1)] /\
           inv2 (m0 ++ concat (snake_row (len a2) <$> visited)) w')).
  - split; [done|]. by rewrite app_nil_r.
  - intros visited k rest s w1 El [-> Hi1]. unfold loop_k.
    apply range_split in El as [-> Hk].
    apply wp_bind, wp_get. destruct Hi1 as (Hab & Hi1). rewrite Hab.
    assert (Hi1' : inv2 (m0 ++ concat (snake_row (len a2) <$> visited)) w1) by (by split).
    unfold update_drift_compensation. apply wp_bind, wp_call_ok; [done|].
    pose proof (inv2_call _ CDriftCompensation w1 eq_refl Hi1') as Hi2.
    apply wp_bind, wp_lift.
    match goal with |- context [Py.getitem [?p; ?q] (-1)] =>
      change (Py.getitem [p; q] (-1)) with (Ok q : result (list Z)) end.
    apply wp_bind, wp_modify.
    apply wp_bind, wp_lift. change (Py.getitem [a2; a1] (-1)) with (Ok a1 : result (list float)).
    destruct (getitem_valid a1 (len visited)) as (pos & -> & _); [lia|].
    apply wp_bind, wp_lift. simpl.
    apply wp_bind, wp_lift. change (Py.getitem [x2; x1] (-1)) with (Ok x1 : result string).
    wp_use (wp_move2 _ pos x1); [exact Hi2|]. intros r w3 (-> & Hi3).
    apply wp_bind, wp_lift.
    match goal with |- context [Py.getitem [?p; ?q] (-2)] =>
      change (Py.getitem [p; q] (-2)) with (Ok p : result (list Z)) end.
    apply wp_bind, wp_lift.
    match goal with |- context [Py.setitem [?p; ?q] (-2) ?v] =>
      change (Py.setitem [p; q] (-2) v) with (Ok [v; q] : result (list (list Z))) end.
    apply wp_bind, wp_lift.
    match goal with |- context [Py.getitem [?p; ?q] (-2)] =>
      change (Py.getitem [p; q] (-2)) with (Ok p : result (list Z)) end.
    wp_use (wp_plane_row _ _ (len visited) _ w3 Hi3); [lia| |].
    { intros j Hj.
      destruct (Z.even (len visited)); rewrite ?elem_of_reverse in Hj;
        apply elem_of_seqZ in Hj; lia. }
    intros r w4 (-> & Hi4). apply wp_ret. split.
    + assert (Ev : len (visited ++ [len visited]) = len visited + 1).
      { unfold len. rewrite length_app. simpl. lia. }
      rewrite Ev, Z.even_add. simpl.
      destruct (Z.even (len visited)); [done|]. by rewrite reverse_involutive.
    + rewrite fmap_app, concat_app. simpl. rewrite app_nil_r, app_assoc.
      unfold snake_row at 2.
      destruct (Z.even (len visited)); [done|]. by rewrite reverse_involutive in Hi4.
  - intros s w1 [-> Hi1]. eexists. split; [done|]. done.
Qed.

Lemma wp_move_back2 m init w :
  (forall d, (d < 2)%nat -> is_Some (init !! d)) -> inv2 m w ->
  wp (move_back env [x2; x1] init) w (fun r w' => r = Ok tt /\ inv2 m w').
Proof using no_raise no_abort.
  intros Hinit Hi. unfold move_back.
  apply (wp_for_in _ (fun _ _ w' => inv2 m w')); [done| |by intros [] ?].
  intros visited i rest [] w1 El Hi1.
  apply range_split in El as [-> Hx]. unfold len in Hx. simpl in Hx.
  destruct (Hinit (length visited)) as [xi Hxi]; [lia|].
  destruct (lookup_lt_is_Some_2 [x2; x1] (length visited)) as [ai Hai]; [simpl; lia|].
  apply wp_bind, wp_lift. unfold len. rewrite (getitem_lookup _ _ _ Hxi).
  apply wp_bind, wp_lift. rewrite (getitem_lookup _ _ _ Hai).
  wp_use (wp_move2 m xi ai w1 Hi1). intros r w2 (-> & Hi2).
  by apply wp_ret.
Qed.

Lemma scan_grid_plane size step init w :
  h0 = calls w ->
  (init_grid [x2; x1] size step init w).1 = Ok [a2; a1] ->
  exists w' ext,
    scan_grid env [x2; x1] size step init w = (Ok tt, w') /\
    calls w' = h0 ++ ext /\
    measured ext = snake (len a2) (len a1).
Proof using no_raise no_abort.
  intros Hh Hgrid.
  set (w0 := {| self := set_abort_requested false (self w); calls := calls w |}).
  assert (Hg0 : init_grid [x2; x1] size step init w0 = (Ok [a2; a1], with_grid [a2; a1] w0)).
  { apply (init_grid_same_units _ _ _ _ w); [done|done]. }
  pose proof (init_grid_run [x2; x1] size step init w0) as Hrun. rewrite Hg0 in Hrun.
  destruct Hrun as (_ & _ & Hbuilt).
  assert (Hinit : forall d, (d < 2)%nat -> is_Some (init !! d)).
  { intros d Hd. destruct (lookup_lt_is_Some_2 [a2; a1] d) as [ax Hax']; [simpl; lia|].
    destruct (Hbuilt d ax Hax') as (? & ? & ini & ? & ? & ? & ? & ? & ? & Hi & _). by exists ini. }
  enough (wp (scan_grid env [x2; x1] size step init) w (fun r w' =>
            r = Ok tt /\ inv2 (snake (len a2) (len a1)) w')) as H.
  { unfold wp in H. destruct (scan_grid env [x2; x1] size step init w) as [r w'].
    simpl in H. destruct H as (-> & _ & _ & ext & Hc & Hm). by exists w', ext. }
  unfold scan_grid.
  apply wp_bind, wp_modify. fold w0.
  apply wp_bind. unfold wp at 1. rewrite Hg0. simpl.
  unfold open_scan. apply wp_bind, wp_call_ok; [done|].
  apply wp_bind, wp_modify. apply wp_bind, wp_modify. apply wp_bind, wp_get.
  apply wp_bind, wp_lift. rewrite full_ok by (simpl; lia).
  apply wp_bind, wp_modify. apply wp_bind, wp_modify. apply wp_bind, wp_modify.
  apply wp_bind, wp_time.
  apply wp_bind, wp_lift.
  change (Py.getitem [Py.range (len a2); Py.range (len a1)] (-1))
    with (Ok (Py.range (len a1)) : result (list Z)).
  cbv beta iota.
  match goal with |- wp _ ?wk _ => set (w1 := wk) end.
  assert (Hi1 : inv2 [] w1).
  { split; [simpl; by rewrite no_abort|]. split; [by eexists|].
    exists [COpenScan]. split; [by rewrite Hh|done]. }
  wp_use (wp_plane [] (len a1) w1 Hi1 eq_refl).
  intros r w2 (pnts' & -> & Hi2).
  apply wp_bind, wp_time.
  unfold print_scan_time. apply wp_bind, wp_call_ok; [done|].
  apply wp_bind, wp_modify.
  match goal with |- wp _ ?wk _ => set (w3 := wk) end.
  assert (Hi3 : inv2 (snake (len a2) (len a1)) w3).
  { apply (inv2_call _ (CPrintScanTime _) w2 eq_refl Hi2). }
  wp_use (wp_move_back2 _ init w3 Hinit Hi3). intros r w4 (-> & Hi4).
  unfold analyse_scan, close_scan.
  apply wp_bind, wp_call_ok; [done|]. apply wp_bind, wp_call_ok; [done|].
  apply wp_modify. split; [done|].
  apply (inv2_call _ CCloseScan _ eq_refl), (inv2_call _ CAnalyseScan _ eq_refl), Hi4.
Qed.

End Plane.

(** C2 (as amended): a two-axis scan that runs to the end (no call raises,
    nobody requests an abort) measures the grid row by row of the outer
    axis, the inner axis being walked downwards on the first row and in the
    opposite direction on each following row; on a grid of shape (3, 2) the
    inner indices are 2, 1, 0 while the outer index is 0 and 0, 1, 2 while
    it is 1. *)
Theorem snake_order env w x y size step init inner outer :
  (forall h c, env_raises env h c = None) ->
  (forall h c, env_abort env h c = false) ->
  (init_grid [x; y] size step init w).1 = Ok [inner; outer] ->
  exists w' ext,
    scan_grid env [x; y] size step init w = (Ok tt, w') /\
    calls w' = calls w ++ ext /\
    measured ext = snake (len inner) (len outer) /\
    (len inner = 3 -> len outer = 2 ->
     measured ext = [[2; 0]; [1; 0]; [0; 0]; [0; 1]; [1; 1]; [2; 1]]).
Proof.
  intros Hr Ha Hg.
  destruct (scan_grid_plane env Hr Ha (calls w) x y inner outer size step init w eq_refl Hg)
    as (w' & ext & Hrun & Hc & Hm).
  exists w', ext. repeat split; try done.
  intros H3 H2. by rewrite Hm, H3, H2.
Qed.

(** An environment in which every call returns, nobody aborts, and the
    clock advances by one second per call. *)
Definition quiet : Env :=
  {| env_raises := fun _ _ => None;
     env_abort := fun _ _ => false;
     env_time := fun h => Np.of_int (len h) |}.

(** The same, with an abort requested during the [n]-th call of the run
    (counting from zero). *)
Definition abort_during (n : nat) : Env :=
  {| env_raises := fun _ _ => None;
     env_abort := fun h _ => bool_decide (length h = n);
     env_time := fun h => Np.of_int (len h) |}.

(** The same as [quiet], with the [n]-th call raising. *)
Definition failing_at (n : nat) : Env :=
  {| env_raises := fun h _ => if decide (length h = n) then Some (UserError "stage fault") else None;
     env_abort := fun _ _ => false;
     env_time := fun h => Np.of_int (len h) |}.

(** The inner indices measured while the outer index is [k]. *)
Definition inner_while (k : Z) (m : list (list Z)) : list Z :=
  omap (fun idx => match idx with
                   | [j; k'] => if k' =? k then Some j else None
                   | _ => None
                   end) m.

(** C2, counterexample: on a grid of shape (3, 2) the first row is walked
    from the far end, 2, 1, 0, and the second row 0, 1, 2. *)
Lemma snake_order_first_row_descends :
  exists w',
    scan_grid quiet ["x"; "y"] [1%float; 1%float] [0.5%float; 1%float] [0%float; 0%float]
      scanner2 = (Ok tt, w') /\
    grid_shape (self w') = [3; 2] /\
    inner_while 0 (measured (calls w')) = [2; 1; 0] /\
    inner_while 1 (measured (calls w')) = [0; 1; 2] /\
    inner_while 0 (measured (calls w')) <> [0; 1; 2].
Proof.
  eexists. split; [vm_compute; reflexivity|]. vm_compute. repeat split; congruence.
Qed.

Definition grid_of (w : World) (axes : list string) (size step init : list float) (d : nat)
    : list float :=
  match (init_grid axes size step init w).1 with
  | Ok sa => default [] (sa !! d)
  | Raise _ => []
  end.

Lemma snake_order_witness :
  exists w' ext,
    scan_grid quiet ["x"; "y"] [1%float; 1%float] [0.5%float; 1%float] [0%float; 0%float]
      scanner2 = (Ok tt, w') /\
    calls w' = calls scanner2 ++ ext /\
    measured ext = [[2; 0]; [1; 0]; [0; 0]; [0; 1]; [1; 1]; [2; 1]].
Proof.
  assert (Hr : forall h c, env_raises quiet h c = None) by reflexivity.
  assert (Ha : forall h c, env_abort quiet h c = false) by reflexivity.
  assert (Hg : (init_grid ["x"; "y"] [1%float; 1%float] [0.5%float; 1%float]
                  [0%float; 0%float] scanner2).1
               = Ok [grid_of scanner2 ["x"; "y"] [1%float; 1%float] [0.5%float; 1%float]
                       [0%float; 0%float] 0;
                     grid_of scanner2 ["x"; "y"] [1%float; 1%float] [0.5%float; 1%float]
                       [0%float; 0%float] 1]).
  { vm_compute. reflexivity. }
  destruct (snake_order quiet scanner2 "x" "y" _ _ _ _ _ Hr Ha Hg)
    as (w' & ext & Hrun & Hc & _ & Hm).
  exists w', ext. split; [exact Hrun|]. split; [exact Hc|].
  apply Hm; vm_compute; reflexivity.
Defined.

(** C3 (as amended): in a scan of two or more axes (and of at most the 32
    dimensions numpy gives an array) in which no call raises, if another
    thread sets [abort_requested] during some call of the scan, at most one
    measurement is made after that call; whether or not that happens the
    scan then prints its duration, moves every axis back to its [init]
    position, runs [analyse_scan] and [close_scan], sets the status to
    "scan complete" and returns normally.  A request made before the scan
    starts is discarded: whatever the flag was, the run is the same. *)
Theorem abort_honoured env w axes size step init sa :
  (forall h c, env_raises env h c = None) ->
  (2 <= length axes <= 32)%nat ->
  (init_grid axes size step init w).1 = Ok sa ->
  exists w' body t,
    scan_grid env axes size step init w = (Ok tt, w') /\
    status (self w') = "scan complete" /\
    calls w' = calls w ++ body ++ CPrintScanTime t
                 :: back_moves (stage_units (self w)) axes init
                 ++ [CAnalyseScan; CCloseScan] /\
    length (back_moves (stage_units (self w)) axes init) = length axes /\
    (forall pre c post,
       body ++ CPrintScanTime t :: back_moves (stage_units (self w)) axes init
         ++ [CAnalyseScan; CCloseScan] = pre ++ c :: post ->
       env_abort env (calls w ++ pre) c = true ->
       (length (measured post) <= 1)%nat) /\
    (forall b,
       scan_grid env axes size step init
         {| self := set_abort_requested b (self w); calls := calls w |} = (Ok tt, w')).
Proof.
  intros Hr Hax Hg.
  destruct (scan_grid_completes env Hr (calls w) (stage_units (self w)) axes sa
              size step init w eq_refl eq_refl Hax Hg)
    as (w' & body & t & Hrun & Hst & Hc & Hi).
  exists w', body, t. split; [done|]. split; [done|]. split; [done|]. split; [|split].
  - pose proof (init_grid_run axes size step init w) as Hrun'.
    destruct (init_grid axes size step init w) as [[sa'|e] w1]; simpl in Hg; [|done].
    injection Hg as ->. destruct Hrun' as (_ & Hlen & Hbuilt).
    unfold back_moves. rewrite length_zip_with.
    enough (length axes <= length init)%nat by lia.
    destruct (length axes) as [|n] eqn:En; [lia|].
    destruct (lookup_lt_is_Some_2 sa n) as [ax Hax']; [lia|].
    destruct (Hbuilt n ax Hax') as (? & ? & ini & ? & ? & ? & ? & ? & ? & Hi' & _).
    apply lookup_lt_Some in Hi'. lia.
  - intros pre c post Hsplit Hab.
    destruct Hi as (_ & _ & ext & Hc' & Hafter & _).
    rewrite Hc in Hc'. apply app_inv_head in Hc'. subst ext.
    destruct (after_abort_split env (calls w) _ pre c post Hsplit Hab) as (post0 & E & Hsuf).
    rewrite E in Hafter. destruct Hafter as [_ Hle].
    pose proof (measured_suffix _ _ Hsuf). lia.
  - intros b. rewrite <- Hrun. unfold scan_grid, bind at 1. reflexivity.
Qed.

(** *** Exceptions raised by a call *)

Section Propagation.

Variable env : Env.

(** No call of [ext], made after the calls [h0], raised. *)
Definition quiet_run (h0 ext : list Call) : Prop :=
  forall pre c post, ext = pre ++ c :: post -> env_raises env (h0 ++ pre) c = None.

(** So far every call since [h0] has returned. *)
Definition linear (h0 : list Call) (w : World) : Prop :=
  exists ext, calls w = h0 ++ ext /\ quiet_run h0 ext.

(** The last call made raised [e], and it is the only one that raised. *)
Definition failed (h0 : list Call) (e : exn) (w : World) : Prop :=
  exists pre c, calls w = h0 ++ pre ++ [c] /\ quiet_run h0 pre /\
                env_raises env (h0 ++ pre) c = Some e.

(** A computation that stops at the first call that raises, with the
    exception of that call. *)
Definition sound {A} (m : M A) : Prop :=
  forall h0 w, linear h0 w ->
    wp m w (fun r w' => match r with
                        | Ok _ => linear h0 w'
                        | Raise e => linear h0 w' \/ failed h0 e w'
                        end).

Lemma quiet_run_snoc h0 ext c :
  quiet_run h0 ext -> env_raises env (h0 ++ ext) c = None -> quiet_run h0 (ext ++ [c]).
Proof using Type.
  intros Hq Hc pre c' post E.
  destruct (decide (post = [])) as [->|Hne].
  - apply app_inj_tail in E as [-> ->]. exact Hc.
  - destruct (exists_last Hne) as (post' & c'' & ->).
    rewrite app_comm_cons, app_assoc in E. apply app_inj_tail in E as [-> _].
    by apply (Hq pre c' post').
Qed.

Lemma sound_ret {A} (a : A) : sound (ret a).
Proof using Type. intros h0 w H. exact H. Qed.

Lemma sound_raise {A} e : sound (@raise A e).
Proof using Type. intros h0 w H. by left. Qed.

Lemma sound_lift {A} (r : result A) : sound (lift r).
Proof using Type. intros h0 w H. unfold wp. simpl. destruct r; [done|by left]. Qed.

Lemma sound_get {A} (f : GridScanner -> A) : sound (get f).
Proof using Type. intros h0 w H. exact H. Qed.

Lemma sound_modify f : sound (modify f).
Proof using Type. intros h0 w H. exact H. Qed.

Lemma sound_time : sound (time_time env).
Proof using Type. intros h0 w H. exact H. Qed.

Lemma sound_call c : sound (call env c).
Proof using Type.
  intros h0 w (ext & Hc & Hq). unfold wp, call. rewrite Hc.
  destruct (env_raises env (h0 ++ ext) c) as [e|] eqn:E; simpl.
  - right. exists ext, c. by rewrite <- app_assoc.
  - exists (ext ++ [c]). rewrite <- app_assoc. split; [done|]. by apply quiet_run_snoc.
Qed.

Lemma sound_bind {A B} (m : M A) (k : A -> M B) :
  sound m -> (forall a, sound (k a)) -> sound (bind m k).
Proof using Type.
  intros Hm Hk h0 w H. apply wp_bind.
  eapply wp_mono; [apply (Hm h0 w H)|].
  intros [a|e] w' Hr; [|done]. by apply Hk.
Qed.

Lemma sound_for_in {A S} (l : list A) (body : A -> S -> M (control * S)) s :
  (forall x s, sound (body x s)) -> sound (for_in l body s).
Proof using Type.
  intros Hb. revert s. induction l as [|x l IH]; intros s; simpl.
  - apply sound_ret.
  - apply sound_bind; [apply Hb|]. intros [[|] s']; [apply IH|apply sound_ret].
Qed.

Lemma sound_move pos a : sound (move env pos a).
Proof using Type. apply sound_bind; [apply sound_get|]. intros u. apply sound_call. Qed.

Ltac sound_step :=
  first
    [ apply sound_bind; [|intros ?]
    | apply sound_ret | apply sound_raise | apply sound_lift | apply sound_get
    | apply sound_modify | apply sound_time | apply sound_call | apply sound_move
    | apply sound_for_in; intros ? ?
    | match goal with
      | |- sound (if ?b then _ else _) => destruct b
      | |- sound (match ?x with _ => _ end) => destruct x
      end ].

Lemma sound_scan_point idx : sound (scan_point env idx).
Proof using Type.
  unfold scan_point, _timed_scan_function, scan_function. repeat sound_step.
Qed.

Lemma sound_loop_i axes sa j k i pnts : sound (loop_i env axes sa j k i pnts).
Proof using Type.
  unfold loop_i. repeat first [apply sound_scan_point | sound_step].
Qed.

Lemma sound_loop_j axes sa k j pnts : sound (loop_j env axes sa k j pnts).
Proof using Type.
  unfold loop_j.
  repeat first [apply sound_scan_point | apply sound_for_in; intros ? ?; apply sound_loop_i
               | sound_step].
Qed.

Lemma sound_loop_k axes sa k pnts : sound (loop_k env axes sa k pnts).
Proof using Type.
  unfold loop_k, update_drift_compensation.
  repeat first [apply sound_for_in; intros ? ?; apply sound_loop_j | sound_step].
Qed.

Lemma sound_init_grid axes size step init : sound (init_grid axes size step init).
Proof using Type.
  unfold init_grid, init_axis. repeat sound_step.
Qed.

Lemma sound_scan_grid axes size step init : sound (scan_grid env axes size step init).
Proof using Type.
  unfold scan_grid, open_scan, print_scan_time, move_back, analyse_scan, close_scan.
  repeat first [apply sound_init_grid | apply sound_for_in; intros ? ?; apply sound_loop_k
               | sound_step].
Qed.

End Propagation.

(** C1 (as amended): when a call made by [scan_grid] (a stage move, the
    measurement or a hook) raises, that call is the last one the scan makes
    and [scan_grid] raises the same exception: no return to the initial
    positions, [analyse_scan] or [close_scan] follows it. *)
Theorem exception_propagates_at_once env w axes size step init r w' pre c post e :
  scan_grid env axes size step init w = (r, w') ->
  calls w' = calls w ++ pre ++ c :: post ->
  env_raises env (calls w ++ pre) c = Some e ->
  r = Raise e /\ post = [].
Proof.
  intros Hrun Hcalls Hraise.
  assert (Hl : linear env (calls w) w).
  { exists []. split; [by rewrite app_nil_r|]. intros pre' c' post' E. by destruct pre'. }
  pose proof (sound_scan_grid env axes size step init (calls w) w Hl) as H.
  unfold wp in H. rewrite Hrun in H. simpl in H.
  assert (Hnot : ~ linear env (calls w) w').
  { intros (ext & Hc & Hq). rewrite Hcalls in Hc. apply app_inv_head in Hc.
    specialize (Hq pre c post (eq_sym Hc)). congruence. }
  destruct r as [[]|e']; [done|].
  destruct H as [H|(pre' & c' & Hc & Hq & He)]; [done|].
  rewrite Hcalls in Hc. apply app_inv_head in Hc.
  destruct (decide (post = [])) as [->|Hne].
  - apply app_inj_tail in Hc as [-> ->]. split; [congruence|done].
  - exfalso. destruct (exists_last Hne) as (post' & c'' & ->).
    rewrite app_comm_cons, app_assoc in Hc. apply app_inj_tail in Hc as [<- _].
    specialize (Hq pre c post' eq_refl). congruence.
Qed.

(** The parameters of a plane scan of two by two points. *)
Definition xy : list string := ["x"; "y"].
Definition ones : list float := [1%float; 1%float].
Definition zeros : list float := [0%float; 0%float].

(** The axes a run moved, in call order. *)
Definition moved_axes (l : list Call) : list string :=
  omap (fun c => match c with CMove _ a => Some a | _ => None end) l.

(** C1, counterexample: the measurement at the first grid point raises;
    [scan_grid] raises the same exception with that measurement as its last
    call, no axis having been moved back and no closing hook run, and the
    status still names the layer being scanned. *)
Lemma no_cleanup_after_exception :
  exists w',
    scan_grid (failing_at 4) xy ones ones zeros scanner2
      = (Raise (UserError "stage fault"), w') /\
    last (calls w') = Some (CScanFunction [1; 0]) /\
    moved_axes (calls w') = ["y"; "x"] /\
    (CAnalyseScan ∉ calls w') /\ (CCloseScan ∉ calls w') /\
    status (self w') = "Scanning layer 1/2".
Proof.
  eexists. split; [vm_compute; reflexivity|]. vm_compute.
  repeat split; try reflexivity.
  - intros H. repeat (apply elem_of_cons in H as [H|H]; [discriminate|]).
    by apply elem_of_nil in H.
  - intros H. repeat (apply elem_of_cons in H as [H|H]; [discriminate|]).
    by apply elem_of_nil in H.
Qed.

Lemma exception_propagates_at_once_witness :
  (scan_grid (failing_at 4) xy ones ones zeros scanner2).1 = Raise (UserError "stage fault") /\
  drop 5 (calls (scan_grid (failing_at 4) xy ones ones zeros scanner2).2) = [].
Proof.
  apply (exception_propagates_at_once (failing_at 4) scanner2 xy ones ones zeros
           (scan_grid (failing_at 4) xy ones ones zeros scanner2).1
           (scan_grid (failing_at 4) xy ones ones zeros scanner2).2
           (take 4 (calls (scan_grid (failing_at 4) xy ones ones zeros scanner2).2))
           (CScanFunction [1; 0])).
  - apply surjective_pairing.
  - vm_compute. reflexivity.
  - vm_compute. reflexivity.
Defined.

Lemma abort_honoured_witness :
  exists w' body t,
    scan_grid (abort_during 3) xy ones ones zeros scanner2 = (Ok tt, w') /\
    status (self w') = "scan complete" /\
    calls w' = calls scanner2 ++ body ++ CPrintScanTime t
                 :: back_moves (stage_units (self scanner2)) xy zeros
                 ++ [CAnalyseScan; CCloseScan] /\
    length (back_moves (stage_units (self scanner2)) xy zeros) = length xy /\
    (forall pre c post,
       body ++ CPrintScanTime t :: back_moves (stage_units (self scanner2)) xy zeros
         ++ [CAnalyseScan; CCloseScan] = pre ++ c :: post ->
       env_abort (abort_during 3) (calls scanner2 ++ pre) c = true ->
       (length (measured post) <= 1)%nat) /\
    (forall b,
       scan_grid (abort_during 3) xy ones ones zeros
         {| self := set_abort_requested b (self scanner2); calls := calls scanner2 |}
       = (Ok tt, w')).
Proof.
  apply (abort_honoured (abort_during 3) scanner2 xy ones ones zeros
           [grid_of scanner2 xy ones ones zeros 0; grid_of scanner2 xy ones ones zeros 1]).
  - reflexivity.
  - simpl. lia.
  - vm_compute. reflexivity.
Defined.

(** What the run of [abort_honoured_witness] does: the abort arrives during
    the move that precedes the first measurement, which is still made. *)
Example abort_run :
  measured (calls (scan_grid (abort_during 3) xy ones ones zeros scanner2).2) = [[1; 0]] /\
  moved_axes (calls (scan_grid (abort_during 3) xy ones ones zeros scanner2).2)
    = ["y"; "x"; "x"; "y"].
Proof. vm_compute. done. Qed.

(** A scanner on a stage with the single axis ['1']. *)
Definition scanner1 : World := (__init__ ["1"]).2.

(** C3, counterexample: a scanner with one axis, scanned with its own
    parameters (21 points), and an abort requested during the first move.
    The scan does not complete: it raises [IndexError] at [pnts[-2]] after
    that move, the axis is not moved back to [init], neither closing hook
    runs and the status still names the layer. *)
Lemma abort_on_one_axis :
  exists w',
    scan_grid (abort_during 2) (axes (self scanner1)) (size (self scanner1))
      (step (self scanner1)) (init (self scanner1)) scanner1 = (Raise IndexError, w') /\
    grid_shape (self w') = [21] /\
    abort_requested (self w') = true /\
    length (calls w') = 3%nat /\
    moved_axes (calls w') = ["1"] /\
    (CAnalyseScan ∉ calls w') /\ (CCloseScan ∉ calls w') /\
    status (self w') = "Scanning layer 1/21".
Proof.
  eexists. split; [vm_compute; reflexivity|]. vm_compute.
  repeat split; try reflexivity.
  - intros H. repeat (apply elem_of_cons in H as [H|H]; [discriminate|]).
    by apply elem_of_nil in H.
  - intros H. repeat (apply elem_of_cons in H as [H|H]; [discriminate|]).
    by apply elem_of_nil in H.
Qed.

(** A grid of 33 axes of two points each: [np.zeros] refuses the shape, and
    the scan raises [ValueError] when [open_scan] has returned, before any
    move. *)
Example scan_of_33_axes :
  exists msg w',
    scan_grid quiet (replicate 33 "x") (replicate 33 1%float) (replicate 33 1%float)
      (replicate 33 0%float) scanner2 = (Raise (ValueError msg), w') /\
    calls w' = [COpenScan] /\ total_points (self w') = 2 ^ 33.
Proof. eexists _, _. split; [vm_compute; reflexivity|]. vm_compute. done. Qed.

(** With four to 32 axes, and no call raising, [scan_grid] returns normally
    with the status "scan complete" after moving every axis back, but it
    never calls [scan_function]: the measurement sits under
    [if len(axes) == 3 ... elif len(axes) == 2], which has no [else]. *)
Lemma many_axes_measure_nothing env w axes size step init sa :
  (forall h c, env_raises env h c = None) ->
  (3 < length axes <= 32)%nat ->
  (init_grid axes size step init w).1 = Ok sa ->
  exists w' body t,
    scan_grid env axes size step init w = (Ok tt, w') /\
    status (self w') = "scan complete" /\
    calls w' = calls w ++ body ++ CPrintScanTime t
                 :: back_moves (stage_units (self w)) axes init
                 ++ [CAnalyseScan; CCloseScan] /\
    measured body = [] /\
    _index (self w') = 0.
Proof.
  intros Hr Hax Hg.
  destruct (scan_grid_completes env Hr (calls w) (stage_units (self w)) axes sa
              size step init w eq_refl eq_refl) as (w' & body & t & Hrun & Hst & Hc & Hi);
    [lia|done|].
  exists w', body, t. split; [done|]. split; [done|]. split; [done|].
  destruct Hi as (_ & _ & ext & Hc' & _ & Hm).
  rewrite Hc in Hc'. apply app_inv_head in Hc'. subst ext.
  destruct Hm as [Hm Hidx].
  { unfold specialised, len.
    destruct (Z.eqb_spec (Z.of_nat (length axes)) 2); [lia|].
    destruct (Z.eqb_spec (Z.of_nat (length axes)) 3); [lia|done]. }
  split; [|done].
  rewrite measured_app in Hm. by apply app_eq_nil in Hm as [? _].
Qed.

Definition xyzt : list string := ["x"; "y"; "z"; "t"].
Definition ones4 : list float := [1%float; 1%float; 1%float; 1%float].
Definition zeros4 : list float := [0%float; 0%float; 0%float; 0%float].
Definition scanner4 : World := (__init__ xyzt).2.

Lemma many_axes_measure_nothing_witness :
  exists w' body t,
    scan_grid quiet xyzt ones4 ones4 zeros4 scanner4 = (Ok tt, w') /\
    status (self w') = "scan complete" /\
    calls w' = calls scanner4 ++ body ++ CPrintScanTime t
                 :: back_moves (stage_units (self scanner4)) xyzt zeros4
                 ++ [CAnalyseScan; CCloseScan] /\
    measured body = [] /\
    _index (self w') = 0.
Proof.
  apply (many_axes_measure_nothing quiet scanner4 xyzt ones4 ones4 zeros4
           [grid_of scanner4 xyzt ones4 ones4 zeros4 0; grid_of scanner4 xyzt ones4 ones4 zeros4 1;
            grid_of scanner4 xyzt ones4 ones4 zeros4 2; grid_of scanner4 xyzt ones4 ones4 zeros4 3]).
  - reflexivity.
  - simpl. lia.
  - vm_compute. reflexivity.
Defined.

(** C9, the code at the failing input: a four-axis grid of sixteen points
    is scanned without an error and reported complete, but the loops only
    move the last two axes and not one point is measured, against the
    docstring of [scan_grid] ("applying a function at each position") and
    what the two- and three-axis branches do. *)
Lemma four_axes_scan_measures_nothing :
  exists w',
    scan_grid quiet xyzt ones4 ones4 zeros4 scanner4 = (Ok tt, w') /\
    status (self w') = "scan complete" /\
    grid_shape (self w') = [2; 2; 2; 2] /\
    total_points (self w') = 16 /\
    measured (calls w') = [] /\
    _index (self w') = 0 /\
    moved_axes (calls w') = ["t"; "z"; "z"; "t"; "z"; "z"; "x"; "y"; "z"; "t"].
Proof.
  eexists. split; [vm_compute; reflexivity|]. vm_compute. done.
Qed.

(** *** Signs of doubles *)

(** The doubles that compare [>= 0]: zeros, positive finite numbers and
    [+inf]. *)
Definition sf_nonneg (x : spec_float) : Prop :=
  match x with
  | S754_zero _ | S754_finite false _ _ | S754_infinity false => True
  | _ => False
  end.

(** Zero, finite or infinite with the sign [s]; never NaN. *)
Definition sf_signed (s : bool) (x : spec_float) : Prop :=
  match x with
  | S754_zero s' | S754_finite s' _ _ | S754_infinity s' => s' = s
  | S754_nan => False
  end.

Definition sf_finite (x : spec_float) : Prop :=
  match x with
  | S754_zero _ | S754_finite _ _ _ => True
  | _ => False
  end.

Lemma sf_signed_nonneg x : sf_signed false x -> sf_nonneg x.
Proof. destruct x as [s|s| |s m e]; simpl; try done; by intros ->. Qed.

Lemma leb_zero_nonneg (x : float) : (0 <=? x)%float = true <-> sf_nonneg (Prim2SF x).
Proof.
  rewrite FloatAxioms.leb_spec, Prim2SF_zero.
  destruct (Prim2SF x) as [s|[|]| |[|] m e]; simpl; unfold SFleb; simpl; split; try done.
Qed.

Lemma Prim2SF_infinity : Prim2SF infinity = S754_infinity false.
Proof. reflexivity. Qed.

Lemma is_finite_spec (x : float) : is_finite x = true <-> sf_finite (Prim2SF x).
Proof.
  unfold is_finite, is_nan, is_infinity.
  rewrite !FloatAxioms.eqb_spec, FloatAxioms.abs_spec, Prim2SF_infinity.
  destruct (Prim2SF x) as [s|[|]| |[|] m e]; simpl; unfold SFeqb; simpl; split; try done.
  all: intros _; rewrite Z.compare_refl, Pos.compare_cont_refl; done.
Qed.

(** *** Rounding keeps the sign *)

Lemma iter_pos_invariant {A} (f : A -> A) (P : A -> Prop) :
  (forall x, P x -> P (f x)) -> forall p x, P x -> P (SpecFloat.iter_pos f p x).
Proof.
  intros Hf. induction p as [p IH|p IH|]; intros x Hx; simpl; auto.
Qed.

Lemma shr_1_bounds b mrs :
  0 <= shr_m mrs <= b -> 0 <= shr_m (shr_1 mrs) <= b.
Proof.
  destruct mrs as [[|[p|p|]|p] r s]; simpl; lia.
Qed.

Lemma shr_bounds b mrs e n :
  0 <= shr_m mrs <= b -> 0 <= shr_m (shr mrs e n).1 <= b.
Proof.
  intros H. destruct n as [|p|p]; simpl; try done.
  apply (iter_pos_invariant shr_1 (fun x => 0 <= shr_m x <= b)); [|done].
  intros x. apply shr_1_bounds.
Qed.

Lemma shr_exponent mrs e n : (shr mrs e n).2 = Z.max e (e + n).
Proof. destruct n; simpl; lia. Qed.

Lemma shr_record_of_loc_m m l : shr_m (shr_record_of_loc m l) = m.
Proof. by destruct l as [|[| |]]. Qed.

Lemma shr_fexp_bounds prec emax m e l :
  0 <= m -> 0 <= shr_m (shr_fexp prec emax m e l).1 <= m.
Proof.
  intros Hm. unfold shr_fexp. apply shr_bounds. rewrite shr_record_of_loc_m. lia.
Qed.

Lemma shr_fexp_exponent prec emax m e l :
  (shr_fexp prec emax m e l).2 = Z.max e (fexp prec emax (Zdigits2 m + e)).
Proof. unfold shr_fexp. rewrite shr_exponent. lia. Qed.

Lemma round_nearest_even_bounds m l :
  0 <= m -> m <= round_nearest_even m l <= m + 1.
Proof.
  intros Hm. destruct l as [|[| |]]; simpl; try lia. destruct (Z.even m); lia.
Qed.

(** Rounding a non-negative mantissa gives zero, a finite number or an
    infinity of the sign asked for. *)
Lemma binary_round_aux_signed prec emax s m e l :
  0 <= m -> sf_signed s (binary_round_aux prec emax s m e l).
Proof.
  intros Hm. unfold binary_round_aux.
  destruct (shr_fexp prec emax m e l) as [mrs' e'] eqn:E1.
  pose proof (shr_fexp_bounds prec emax m e l Hm) as H1. rewrite E1 in H1. simpl in H1.
  pose proof (round_nearest_even_bounds (shr_m mrs') (loc_of_shr_record mrs') (proj1 H1)) as H2.
  destruct (shr_fexp prec emax _ e' loc_Exact) as [mrs'' e''] eqn:E2.
  pose proof (shr_fexp_bounds prec emax (round_nearest_even (shr_m mrs') (loc_of_shr_record mrs'))
                e' loc_Exact) as H3.
  rewrite E2 in H3. simpl in H3.
  destruct (shr_m mrs'') as [|p|p]; simpl; [done| |lia].
  by destruct (_ <=? _).
Qed.

Lemma binary_round_signed prec emax s m e : sf_signed s (binary_round prec emax s m e).
Proof.
  unfold binary_round. destruct (shl_align _ _ _) as [mz ez].
  by apply binary_round_aux_signed.
Qed.

Lemma binary_normalize_nonneg prec emax z e :
  0 <= z -> sf_signed false (binary_normalize prec emax z e false).
Proof.
  intros Hz. destruct z as [|p|p]; simpl; [done| |lia]. apply binary_round_signed.
Qed.

Lemma SFadd_nonneg prec emax x y :
  sf_nonneg x -> sf_nonneg y -> sf_nonneg (SFadd prec emax x y).
Proof.
  destruct x as [sx|[|]| |[|] mx ex]; destruct y as [sy|[|]| |[|] my ey]; simpl; try done.
  - by destruct sx, sy.
  - intros _ _. apply sf_signed_nonneg, binary_round_signed.
Qed.

Lemma SFmul_nonneg prec emax x y :
  sf_nonneg x -> sf_nonneg y -> sf_finite x -> sf_finite y ->
  sf_nonneg (SFmul prec emax x y).
Proof.
  destruct x as [sx|[|]| |[|] mx ex]; destruct y as [sy|[|]| |[|] my ey]; simpl; try done.
  intros _ _ _ _. apply sf_signed_nonneg. by apply (binary_round_aux_signed _ _ false).
Qed.

Lemma div_eucl_nonneg a b : 0 <= a -> 0 < b -> 0 <= (Z.div_eucl a b).1.
Proof.
  intros Ha Hb. pose proof (Z.div_pos a b Ha Hb) as H.
  unfold Z.div in H. by destruct (Z.div_eucl a b).
Qed.

Lemma SFdiv_nonneg prec emax x y :
  sf_nonneg x -> sf_nonneg y -> sf_finite (SFdiv prec emax x y) ->
  sf_nonneg (SFdiv prec emax x y).
Proof.
  destruct x as [sx|[|]| |[|] mx ex]; destruct y as [sy|[|]| |[|] my ey]; simpl; try done.
  intros _ _ _. unfold SFdiv_core_binary.
  set (s := _ - _ - _).
  set (m' := match s with 0 => _ | Z.pos _ => _ | Z.neg _ => _ end).
  assert (Hm : 0 <= m').
  { subst m'. destruct s; try lia. apply Z.shiftl_nonneg. lia. }
  pose proof (div_eucl_nonneg m' (Z.pos my) Hm ltac:(lia)) as Hq.
  destruct (Z.div_eucl m' (Z.pos my)) as [q r]. simpl in Hq.
  apply sf_signed_nonneg. by apply (binary_round_aux_signed _ _ false).
Qed.

(** *** Integers convert to finite doubles *)

Lemma digits2_pos_size p : digits2_pos p = Pos.size p.
Proof. induction p; simpl; congruence. Qed.

Lemma Zdigits2_le_iff a k : 0 <= a -> 0 <= k -> (Zdigits2 a <= k <-> a < 2 ^ k).
Proof.
  intros Ha Hk. destruct a as [|p|p]; [|clear Ha|lia].
  - simpl. split; [intros _; by apply Z.pow_pos_nonneg|done].
  - simpl. rewrite digits2_pos_size.
    pose proof (Pos.size_gt p) as Hgt. pose proof (Pos.size_le p) as Hle.
    apply Pos2Z.pos_lt_pos in Hgt. apply Pos2Z.pos_le_pos in Hle.
    rewrite Pos2Z.inj_pow in Hgt, Hle. change (Z.pos p~0) with (2 * Z.pos p) in Hle.
    split; intros H.
    + eapply Z.lt_le_trans; [exact Hgt|]. apply Z.pow_le_mono_r; lia.
    + destruct (Z.le_gt_cases (Z.pos (Pos.size p)) k) as [|Hlt]; [done|]. exfalso.
      assert (2 ^ (k + 1) <= 2 ^ Z.pos (Pos.size p)) by (apply Z.pow_le_mono_r; lia).
      assert (2 ^ (k + 1) = 2 * 2 ^ k) by (rewrite <- Z.pow_succ_r by lia; done).
      lia.
Qed.

Lemma Zdigits2_nonneg a : 0 <= Zdigits2 a.
Proof. destruct a; simpl; lia. Qed.

Lemma Zdigits2_mono a b k : 0 <= a <= b -> Zdigits2 b <= k -> Zdigits2 a <= k.
Proof.
  intros Hab Hb.
  assert (0 <= k) by (pose proof (Zdigits2_nonneg b); lia).
  apply Zdigits2_le_iff; [lia|lia|].
  apply Zdigits2_le_iff in Hb; lia.
Qed.

Lemma Zdigits2_succ a b k : 0 <= a <= b + 1 -> 0 <= b -> Zdigits2 b <= k -> Zdigits2 a <= k + 1.
Proof.
  intros Hab H0 Hb.
  assert (0 <= k) by (pose proof (Zdigits2_nonneg b); lia).
  apply Zdigits2_le_iff; [lia|lia|].
  apply Zdigits2_le_iff in Hb; [|lia|lia].
  assert (2 ^ (k + 1) = 2 * 2 ^ k) by (rewrite <- Z.pow_succ_r by lia; done).
  lia.
Qed.

(** Rounding stays finite when the mantissa and the exponent are far from
    the overflow threshold. *)
Lemma binary_round_aux_finite s m e l :
  0 <= m -> Zdigits2 m <= 200 -> e <= 500 ->
  sf_finite (binary_round_aux prec emax s m e l).
Proof.
  intros Hm Hd He. unfold binary_round_aux.
  destruct (shr_fexp prec emax m e l) as [mrs' e'] eqn:E1.
  pose proof (shr_fexp_bounds prec emax m e l Hm) as H1.
  pose proof (shr_fexp_exponent prec emax m e l) as X1.
  rewrite E1 in H1, X1. simpl in H1, X1.
  pose proof (round_nearest_even_bounds (shr_m mrs') (loc_of_shr_record mrs') (proj1 H1)) as H2.
  set (m' := round_nearest_even (shr_m mrs') (loc_of_shr_record mrs')) in *.
  destruct (shr_fexp prec emax m' e' loc_Exact) as [mrs'' e''] eqn:E2.
  pose proof (shr_fexp_exponent prec emax m' e' loc_Exact) as X2.
  pose proof (shr_fexp_bounds prec emax m' e' loc_Exact ltac:(lia)) as H3.
  rewrite E2 in X2, H3. simpl in X2, H3.
  assert (Hd' : Zdigits2 m' <= 201).
  { apply (Zdigits2_succ m' m 200); lia. }
  pose proof (Zdigits2_nonneg m). pose proof (Zdigits2_nonneg m').
  unfold fexp, SpecFloat.emin, prec, emax in X1, X2.
  destruct (shr_m mrs'') as [|p|p]; simpl; [done| |lia].
  destruct (Z.leb_spec e'' (emax - prec)); [done|].
  unfold prec, emax in *. lia.
Qed.

Lemma pos_iter_xO p d : Z.pos (Pos.iter xO p d) = Z.pos p * 2 ^ Z.pos d.
Proof.
  induction d as [|d IH] using Pos.peano_ind.
  - simpl. lia.
  - rewrite Pos.iter_succ, Pos2Z.inj_xO, IH, Pos2Z.inj_succ, Z.pow_succ_r by lia. lia.
Qed.

Lemma binary_round_small s p : Z.pos p < 2 ^ 63 -> sf_finite (binary_round prec emax s p 0).
Proof.
  intros Hp. unfold binary_round, shl_align.
  assert (Hd : Zdigits2 (Z.pos p) <= 63) by (apply Zdigits2_le_iff; lia).
  simpl in Hd.
  set (ex' := fexp prec emax (Z.pos (digits2_pos p) + 0)).
  assert (Hex : -52 <= ex' <= 10).
  { subst ex'. unfold fexp, SpecFloat.emin, prec, emax. lia. }
  destruct (ex' - 0) as [|d|d] eqn:Ed.
  - apply binary_round_aux_finite; [lia| |lia]. simpl. lia.
  - apply binary_round_aux_finite; [lia| |lia]. simpl. lia.
  - apply binary_round_aux_finite; [lia| |lia].
    apply Zdigits2_le_iff; [lia|lia|]. rewrite pos_iter_xO.
    assert (2 ^ Z.pos d <= 2 ^ 52) by (apply Z.pow_le_mono_r; lia).
    assert (0 < 2 ^ Z.pos d) by (apply Z.pow_pos_nonneg; lia).
    change (2 ^ 200) with (2 ^ 63 * 2 ^ 137). nia.
Qed.

Lemma of_int_spec z :
  0 <= z < 2 ^ 63 -> Prim2SF (Np.of_int z) = binary_normalize prec emax z 0 false.
Proof.
  intros Hz. unfold Np.of_int.
  destruct (Z.ltb_spec (Z.abs z) (2 ^ 63)); [|lia].
  destruct (Z.ltb_spec z 0); [lia|].
  rewrite FloatAxioms.of_uint63_spec, Uint63.of_Z_spec.
  rewrite Z.mod_small; [done|]. exact Hz.
Qed.

Lemma of_int_nonneg_finite z :
  0 <= z < 2 ^ 63 ->
  sf_nonneg (Prim2SF (Np.of_int z)) /\ sf_finite (Prim2SF (Np.of_int z)).
Proof.
  intros Hz. rewrite of_int_spec by done. split.
  - apply sf_signed_nonneg, binary_normalize_nonneg. lia.
  - destruct z as [|p|p]; simpl; [done| |lia]. apply binary_round_small. lia.
Qed.

(** *** The time estimate *)

(** A Python number that compares [>= 0]. *)
Definition pynum_nonneg (v : pynum) : bool :=
  match v with
  | PyInt z => 0 <=? z
  | PyFloat f => (0 <=? f)%float
  end.

(** The doubles that adding up the items of a list can give, the additions
    being made in double precision in any order and any grouping. *)
Inductive sum_of : list float -> float -> Prop :=
  | sum_of_nil : sum_of [] 0%float
  | sum_of_one x : sum_of [x] x
  | sum_of_add l1 l2 l s1 s2 :
      sum_of l1 s1 -> sum_of l2 s2 -> l ≡ₚ l1 ++ l2 -> sum_of l (s1 + s2)%float.

(** What [np.mean] returns for the array [l], whatever the version of
    numpy: such a sum, divided by the number of items. *)
Definition is_mean (l : list float) (m : float) : Prop :=
  exists s, sum_of l s /\ m = (s / Np.of_int (len l))%float.

Lemma sum_of_perm l l' s : l ≡ₚ l' -> sum_of l s -> sum_of l' s.
Proof.
  intros Hp H. revert l' Hp. induction H as [|x|l1 l2 l s1 s2 H1 _ H2 _ Hl]; intros l' Hp.
  - apply Permutation_nil_l in Hp as <-. constructor.
  - apply Permutation_singleton_l in Hp as <-. constructor.
  - apply (sum_of_add l1 l2); [done|done|]. by rewrite <- Hp.
Qed.

Lemma sum_of_snoc l s x : sum_of l s -> sum_of (l ++ [x]) (s + x)%float.
Proof. intros H. apply (sum_of_add l [x]); [done|constructor|done]. Qed.

Lemma sum_of_foldl l0 acc l :
  sum_of l0 acc -> sum_of (l0 ++ l) (foldl PrimFloat.add acc l).
Proof.
  revert l0 acc. induction l as [|x l IH]; intros l0 acc H; simpl.
  - by rewrite app_nil_r.
  - replace (l0 ++ x :: l) with ((l0 ++ [x]) ++ l) by (by rewrite <- app_assoc).
    apply IH. by apply sum_of_snoc.
Qed.

(** One round of the eight running sums. *)
Lemma sum_of_zip (ls : list (list float)) (r b : list float) :
  Forall2 sum_of ls r -> length b = length r ->
  Forall2 sum_of (zip_with (fun L x => L ++ [x]) ls b) (zip_with PrimFloat.add r b) /\
  concat (zip_with (fun L x => L ++ [x]) ls b) ≡ₚ concat ls ++ b.
Proof.
  intros H. revert b. induction H as [|L s ls r Hs _ IH]; intros [|x b] Hb; simpl in *; try done.
  destruct (IH b) as [IH1 IH2]; [lia|]. split.
  - constructor; [by apply sum_of_snoc|done].
  - rewrite IH2. rewrite <- !app_assoc. apply Permutation_app_head.
    rewrite (Permutation_app_comm (concat ls) (x :: b)). simpl.
    constructor. apply Permutation_app_comm.
Qed.

Lemma accumulate8_sum_of (groups : nat) (ls : list (list float)) (r l : list float) :
  Forall2 sum_of ls r -> length r = 8%nat -> (8 * groups <= length l)%nat ->
  exists ls',
    Forall2 sum_of ls' (Np.accumulate8 groups r l).1 /\
    length (Np.accumulate8 groups r l).1 = 8%nat /\
    concat ls' ++ (Np.accumulate8 groups r l).2 ≡ₚ concat ls ++ l.
Proof.
  revert ls r l. induction groups as [|k IH]; intros ls r l H Hr Hl; simpl.
  - by exists ls.
  - assert (Hb : length (take 8 l) = length r) by (rewrite length_take; lia).
    destruct (sum_of_zip ls r (take 8 l) H Hb) as [H1 H2].
    destruct (IH _ _ (drop 8 l) H1) as (ls' & G1 & G2 & G3).
    + rewrite length_zip_with. lia.
    + rewrite length_drop. lia.
    + exists ls'. split; [done|]. split; [done|].
      rewrite G3, H2, <- app_assoc. by rewrite take_drop.
Qed.

Lemma sum8_sum_of (ls : list (list float)) (r : list float) :
  Forall2 sum_of ls r -> length r = 8%nat -> sum_of (concat ls) (Np.sum8 r).
Proof.
  intros H Hr.
  do 9 (destruct r as [|? r]; simpl in Hr; try lia).
  repeat match goal with
         | H : Forall2 _ _ (_ :: _) |- _ =>
             apply Forall2_cons_inv_r in H as (? & ? & ? & H & ->)
         | H : Forall2 _ _ [] |- _ => apply Forall2_nil_inv_r in H as ->
         end.
  simpl. rewrite app_nil_r.
  lazymatch goal with
  | |- sum_of _ (((?a + ?b) + (?c + ?d)) + ((?e + ?f) + (?g + ?h)))%float =>
      lazymatch goal with
      | Ha : sum_of ?la a, Hb : sum_of ?lb b, Hc : sum_of ?lc c, Hd : sum_of ?ld d,
        He : sum_of ?le e, Hf : sum_of ?lf f, Hg : sum_of ?lg g, Hh : sum_of ?lh h |- _ =>
          apply (sum_of_perm (((la ++ lb) ++ (lc ++ ld)) ++ ((le ++ lf) ++ (lg ++ lh))));
          [ by rewrite <- !app_assoc
          | repeat (eapply sum_of_add; [| |reflexivity]); assumption ]
      end
  end.
Qed.

Lemma block_sum_of (a : list float) : (8 <= length a)%nat -> sum_of a (Np.block_sum a).
Proof.
  intros Hn. unfold Np.block_sum.
  destruct (accumulate8_sum_of (length a / 8 - 1) ((fun x => [x]) <$> take 8 a)
              (take 8 a) (drop 8 a)) as (ls' & H1 & H2 & H3).
  - apply Forall2_fmap_l, Forall_Forall2_diag, Forall_forall. intros x _. constructor.
  - rewrite length_take. lia.
  - rewrite length_drop.
    pose proof (Nat.div_mod_eq (length a) 8). lia.
  - destruct (Np.accumulate8 _ _ _) as [r rest]. simpl in *.
    apply (sum_of_perm (concat ls' ++ rest)).
    + rewrite H3. rewrite <- (take_drop 8 a) at 3. apply Permutation_app_tail.
      clear. induction (take 8 a) as [|x l IH]; simpl; [done|]. by constructor.
    + apply sum_of_foldl. by apply sum8_sum_of.
Qed.

Lemma pairwise_sum_of (fuel : nat) (a : list float) : sum_of a (Np.pairwise_sum fuel a).
Proof.
  revert a. induction fuel as [|fuel IH]; intros a; simpl.
  - destruct (Nat.ltb_spec (length a) 8); [apply (sum_of_foldl [] _ a); constructor|].
    destruct (length a <=? 128)%nat; by apply block_sum_of.
  - destruct (Nat.ltb_spec (length a) 8); [apply (sum_of_foldl [] _ a); constructor|].
    destruct (length a <=? 128)%nat; [by apply block_sum_of|].
    eapply sum_of_add; [apply IH|apply IH|]. by rewrite take_drop.
Qed.

(** The block sum of numpy is one of the sums of the items, and its mean
    one of their means. *)
Lemma mean_is_mean (l : list float) : is_mean l (Np.mean l).
Proof.
  exists (Np.sum l). split; [|done].
  unfold Np.sum. apply (sum_of_add [] l); [constructor|apply pairwise_sum_of|done].
Qed.

Lemma sum_of_nonneg (l : list float) (s : float) :
  sum_of l s -> Forall (fun x => (0 <=? x)%float = true) l -> sf_nonneg (Prim2SF s).
Proof.
  induction 1 as [|x|l1 l2 l s1 s2 _ IH1 _ IH2 Hl]; intros Hf.
  - done.
  - apply leb_zero_nonneg. by inversion Hf.
  - rewrite Hl in Hf. apply Forall_app in Hf as [Hf1 Hf2].
    rewrite FloatAxioms.add_spec. apply SFadd_nonneg; auto.
Qed.

Lemma mean_nonneg (l : list float) (m : float) :
  is_mean l m -> len l < 2 ^ 63 ->
  Forall (fun x => (0 <=? x)%float = true) l ->
  is_finite m = true ->
  sf_nonneg (Prim2SF m).
Proof.
  intros (s & Hs & ->) Hlen Hl Hfin. apply is_finite_spec in Hfin.
  rewrite FloatAxioms.div_spec in *. apply SFdiv_nonneg; [| |done].
  - by apply (sum_of_nonneg l).
  - apply of_int_nonneg_finite. unfold len in *. lia.
Qed.

Lemma int_to_float_small (z : Z) : 0 <= z < 2 ^ 63 -> int_to_float z = Ok (Np.of_int z).
Proof.
  intros Hz. unfold int_to_float.
  destruct (of_int_nonneg_finite z Hz) as [_ Hf]. apply is_finite_spec in Hf.
  unfold is_finite in Hf. by destruct (is_nan _), (is_infinity _).
Qed.

(** C5 (as amended): [get_estimated_time_remaining] returns [np.inf] before
    any scan has created the step times, the integer 0 while no step time
    is finite, and otherwise the double of [total_points - _index] times
    [np.mean] of the finite step times ([OverflowError] when that integer
    has no finite double); the value is [>= 0] provided the grid has at
    least [_index] points, no finite step time is negative and their mean,
    the quotient of one of their sums by their number, is finite. *)
Theorem estimated_time_remaining_cases (np_mean : list float -> float) (g : GridScanner) :
  (_step_times g = None -> get_estimated_time_remaining np_mean g = Ok (PyFloat infinity)) /\
  (forall a, _step_times g = Some a -> Np.finite_items a = [] ->
     get_estimated_time_remaining np_mean g = Ok (PyInt 0)) /\
  (forall a, _step_times g = Some a -> Np.finite_items a <> [] ->
     get_estimated_time_remaining np_mean g
     = match int_to_float (total_points g - _index g) with
       | Ok n => Ok (PyFloat (n * np_mean (Np.finite_items a)))
       | Raise e => Raise OverflowError
       end) /\
  (0 <= total_points g - _index g < 2 ^ 63 ->
   (forall a, _step_times g = Some a ->
      len (Np.data a) <= Np.NPY_MAX_INTP /\
      Forall (fun x => (0 <=? x)%float = true) (Np.finite_items a) /\
      is_mean (Np.finite_items a) (np_mean (Np.finite_items a)) /\
      is_finite (np_mean (Np.finite_items a)) = true) ->
   exists v, get_estimated_time_remaining np_mean g = Ok v /\ pynum_nonneg v = true).
Proof.
  unfold get_estimated_time_remaining. repeat split.
  - by intros ->.
  - by intros a -> ->.
  - intros a -> Hne. destruct (Np.finite_items a); [done|].
    unfold int_to_float. by destruct (is_infinity _).
  - intros Hz Ha. destruct (_step_times g) as [a|]; [|by eexists].
    destruct (Ha a eq_refl) as (Hlen & Hpos & Hmean & Hfin).
    destruct (Np.finite_items a) as [|x l] eqn:E; [by eexists|].
    rewrite (int_to_float_small _ Hz). simpl. eexists. split; [done|]. simpl.
    apply leb_zero_nonneg. rewrite FloatAxioms.mul_spec.
    assert (Hl : len (x :: l) < 2 ^ 63).
    { rewrite <- E. unfold Np.finite_items, len, Np.NPY_MAX_INTP in *.
      pose proof (length_filter (fun x => is_finite x = true) (Np.data a)). lia. }
    destruct (of_int_nonneg_finite _ Hz) as [Hn Hf].
    apply SFmul_nonneg; [done| |done|by apply is_finite_spec].
    by apply (mean_nonneg (x :: l)).
Qed.

(** C5, counterexample: after a scan of four points the grid is rebuilt
    with a single point ([init_grid] with sizes set to zero); the estimate
    is then [(1 - 4)] times the mean step time of one second. *)
Lemma negative_time_remaining :
  exists w1 w2 sa,
    scan_grid quiet xy ones ones zeros scanner2 = (Ok tt, w1) /\
    init_grid xy zeros ones zeros w1 = (Ok sa, w2) /\
    total_points (self w2) = 1 /\ _index (self w2) = 4 /\
    (forall np_mean, np_mean [1%float; 1%float; 1%float; 1%float] = 1%float ->
       get_estimated_time_remaining np_mean (self w2) = Ok (PyFloat (-3))) /\
    get_estimated_time_remaining Np.mean (self w2) = Ok (PyFloat (-3)) /\
    pynum_nonneg (PyFloat (-3)) = false.
Proof.
  eexists _, _, _. split; [vm_compute; reflexivity|].
  split; [vm_compute; reflexivity|].
  split; [vm_compute; reflexivity|]. split; [vm_compute; reflexivity|].
  split; [|split; vm_compute; reflexivity].
  intros np_mean H. vm_compute. vm_compute in H. rewrite H. vm_compute. reflexivity.
Qed.

Lemma estimated_time_remaining_cases_witness :
  get_estimated_time_remaining Np.mean (self scanner2) = Ok (PyFloat infinity) /\
  get_estimated_time_remaining Np.mean (self (scan_grid quiet xy ones ones zeros scanner2).2)
    = Ok (PyFloat 0) /\
  exists v,
    get_estimated_time_remaining Np.mean (self (scan_grid quiet xy ones ones zeros scanner2).2)
    = Ok v /\ pynum_nonneg v = true.
Proof.
  split; [|split].
  - apply (estimated_time_remaining_cases Np.mean (self scanner2)). reflexivity.
  - vm_compute. reflexivity.
  - apply (estimated_time_remaining_cases Np.mean
             (self (scan_grid quiet xy ones ones zeros scanner2).2)).
    + vm_compute. split; [discriminate|reflexivity].
    + intros a Ha. vm_compute in Ha. injection Ha as <-.
      split; [vm_compute; discriminate|].
      split; [vm_compute; repeat constructor|].
      split; [apply mean_is_mean|vm_compute; reflexivity].
Defined.

(** Ten step times of a tenth of a second: the eight running sums give the
    mean 0.1 exactly, where adding from left to right gives the double
    just below it. *)
Example mean_of_ten_tenths :
  Np.mean (replicate 10 0.1%float) = 0.1%float /\
  (foldl PrimFloat.add 0 (replicate 10 0.1%float) / 10)%float = 0.099999999999999992%float.
Proof. vm_compute. done. Qed.

(* ===================================================================== *)
(** ** Changing units and changing back *)
(* ===================================================================== *)

(** *** Rounding to nearest, on integers *)

Lemma iter_pos_nat {A} (f : A -> A) p x :
  SpecFloat.iter_pos f p x = Nat.iter (Pos.to_nat p) f x.
Proof.
  revert x. induction p as [p IH|p IH|]; intros x.
  - rewrite Pos2Nat.inj_xI. cbn [SpecFloat.iter_pos]. rewrite !IH.
    replace (S (2 * Pos.to_nat p)) with (Pos.to_nat p + S (Pos.to_nat p))%nat by lia.
    rewrite Nat.iter_add. f_equal. by rewrite <- Nat.iter_succ_r.
  - rewrite Pos2Nat.inj_xO. cbn [SpecFloat.iter_pos]. rewrite !IH.
    replace (2 * Pos.to_nat p)%nat with (Pos.to_nat p + Pos.to_nat p)%nat by lia.
    by rewrite Nat.iter_add.
  - done.
Qed.

Lemma shr_1_spec m r s :
  0 <= m ->
  shr_1 {| shr_m := m; shr_r := r; shr_s := s |}
  = {| shr_m := m / 2; shr_r := Z.odd m; shr_s := r || s |}.
Proof.
  intros Hm. rewrite <- Z.div2_div.
  destruct m as [|[p|p|]|p]; simpl; try done; lia.
Qed.

(** [k + 1] right shifts of [m]: the quotient, the bit shifted out last,
    and whether any bit shifted out before it was set. *)
Lemma shr_iter (k : nat) m :
  0 <= m ->
  Nat.iter (S k) shr_1 {| shr_m := m; shr_r := false; shr_s := false |}
  = {| shr_m := m / 2 ^ (Z.of_nat k + 1);
       shr_r := Z.odd (m / 2 ^ Z.of_nat k);
       shr_s := negb (m mod 2 ^ Z.of_nat k =? 0) |}.
Proof.
  intros Hm. induction k as [|k IH].
  - rewrite Nat.iter_succ. cbn [Nat.iter nat_rect]. rewrite shr_1_spec by done.
    change (Z.of_nat 0) with 0. change (2 ^ (0 + 1)) with 2. change (2 ^ 0) with 1. f_equal.
    + by rewrite Z.div_1_r.
    + by rewrite Z.mod_1_r.
  - rewrite Nat.iter_succ, IH.
    assert (H2 : 0 < 2 ^ Z.of_nat k) by (apply Z.pow_pos_nonneg; lia).
    rewrite shr_1_spec by (apply Z.div_pos; [lia|apply Z.pow_pos_nonneg; lia]).
    replace (Z.of_nat (S k)) with (Z.of_nat k + 1) by lia.
    f_equal.
    + rewrite Z.div_div by lia. f_equal.
      rewrite (Z.pow_add_r 2 (Z.of_nat k + 1) 1) by lia. lia.
    + rewrite Z.pow_add_r by lia. change (2 ^ 1) with 2.
      pose proof (Z.div_mod m (2 ^ Z.of_nat k) ltac:(lia)) as Hdm.
      pose proof (Z.mod_pos_bound m (2 ^ Z.of_nat k) H2) as Hb.
      set (a := m / 2 ^ Z.of_nat k) in *. set (b := m mod 2 ^ Z.of_nat k) in *.
      pose proof (Z.div_mod a 2 ltac:(lia)) as Hda.
      pose proof (Z.mod_pos_bound a 2 ltac:(lia)) as Hba.
      rewrite Zodd_mod.
      assert (Hmod : m mod (2 ^ Z.of_nat k * 2) = (a mod 2) * 2 ^ Z.of_nat k + b).
      { symmetry. apply (Z.mod_unique_pos _ _ (a / 2)); [nia|]. nia. }
      rewrite Hmod.
      clear IH.
      destruct (Z.eqb_spec (a mod 2) 1) as [E1|N1];
        destruct (Z.eqb_spec b 0) as [E0|N0];
        destruct (Z.eqb_spec (a mod 2 * 2 ^ Z.of_nat k + b) 0) as [E|N];
        simpl; try done; exfalso; nia.
Qed.

(** The value of [round_nearest_even] after a shift by [n >= 1] bits is
    within half a unit of the shifted-out weight. *)
Lemma round_shift_error (k : nat) m :
  0 <= m ->
  let mrs := Nat.iter (S k) shr_1 {| shr_m := m; shr_r := false; shr_s := false |} in
  let m' := round_nearest_even (shr_m mrs) (loc_of_shr_record mrs) in
  m / 2 ^ (Z.of_nat k + 1) <= m' <= m / 2 ^ (Z.of_nat k + 1) + 1 /\
  2 * Z.abs (m' * 2 ^ (Z.of_nat k + 1) - m) <= 2 ^ (Z.of_nat k + 1).
Proof.
  intros Hm. rewrite shr_iter by done. simpl.
  assert (H2 : 0 < 2 ^ Z.of_nat k) by (apply Z.pow_pos_nonneg; lia).
  rewrite Z.pow_add_r by lia. change (2 ^ 1) with 2.
  pose proof (Z.div_mod m (2 ^ Z.of_nat k) ltac:(lia)) as Hdm.
  pose proof (Z.mod_pos_bound m (2 ^ Z.of_nat k) H2) as Hb.
  assert (Hq : m / (2 ^ Z.of_nat k * 2) = (m / 2 ^ Z.of_nat k) / 2) by (rewrite Z.div_div; lia).
  rewrite Hq.
  set (h := 2 ^ Z.of_nat k) in *.
  set (a := m / h) in *. set (b := m mod h) in *.
  pose proof (Z.div_mod a 2 ltac:(lia)) as Hda.
  pose proof (Z.mod_pos_bound a 2 ltac:(lia)) as Hba.
  rewrite Zodd_mod.
  set (q := a / 2) in *.
  destruct (Z.eqb_spec (a mod 2) 1) as [E1|N1];
    destruct (Z.eqb_spec b 0) as [E0|N0]; simpl.
  - destruct (Z.even q); split; nia.
  - split; nia.
  - split; nia.
  - split; nia.
Qed.

Lemma Zdigits2_eq a d : 1 <= d -> 2 ^ (d - 1) <= a < 2 ^ d -> Zdigits2 a = d.
Proof.
  intros Hd [Hlo Hhi].
  assert (0 < 2 ^ (d - 1)) by (apply Z.pow_pos_nonneg; lia).
  assert (H1 : Zdigits2 a <= d) by (apply Zdigits2_le_iff; lia).
  assert (H2 : ~ Zdigits2 a <= d - 1).
  { intros H2. apply Zdigits2_le_iff in H2; lia. }
  lia.
Qed.

Lemma pow2_succ k : 0 <= k -> 2 ^ (k + 1) = 2 * 2 ^ k.
Proof. intros Hk. rewrite Z.pow_add_r by lia. change (2 ^ 1) with 2. lia. Qed.

Lemma shr_pos mrs e p :
  shr mrs e (Z.pos p) = (Nat.iter (S (Nat.pred (Pos.to_nat p))) shr_1 mrs, e + Z.pos p).
Proof.
  pose proof (Pos2Nat.is_pos p).
  replace (S (Nat.pred (Pos.to_nat p))) with (Pos.to_nat p) by lia.
  unfold shr. by rewrite iter_pos_nat.
Qed.

(** Rounding a mantissa of [53 + j] bits to a normal number: the result
    has 53 bits, the exponent grows by [j] or [j + 1], and the value moves
    by at most half a unit in the last place. *)
Lemma binary_round_aux_normal s m e j :
  1 <= j -> 2 ^ (52 + j) <= m < 2 ^ (53 + j) -> -1074 <= e + j -> e + j + 1 <= 971 ->
  exists m' n,
    binary_round_aux prec emax s m e loc_Exact = S754_finite s m' (e + n) /\
    2 ^ 52 <= Z.pos m' < 2 ^ 53 /\ j <= n <= j + 1 /\
    2 * Z.abs (Z.pos m' * 2 ^ n - m) <= 2 ^ n.
Proof.
  intros Hj Hm Hlo Hhi.
  assert (H0 : 0 < 2 ^ (52 + j)) by (apply Z.pow_pos_nonneg; lia).
  assert (Hd : Zdigits2 m = 53 + j).
  { apply Zdigits2_eq; [lia|]. by replace (53 + j - 1) with (52 + j) by lia. }
  unfold binary_round_aux, shr_fexp. rewrite Hd.
  assert (Hf : fexp prec emax (53 + j + e) - e = j).
  { unfold fexp, SpecFloat.emin, prec, emax. lia. }
  rewrite Hf. destruct j as [|p|p]; [lia| |lia].
  rewrite shr_pos. cbn [shr_record_of_loc].
  set (k := Nat.pred (Pos.to_nat p)).
  assert (Hk : Z.of_nat k + 1 = Z.pos p) by (pose proof (Pos2Nat.is_pos p); subst k; lia).
  pose proof (round_shift_error k m ltac:(lia)) as Hr. cbv zeta in Hr.
  rewrite Hk in Hr.
  set (m1 := round_nearest_even _ _) in *.
  destruct Hr as [Hq Herr].
  assert (Hp2 : 0 < 2 ^ Z.pos p) by (apply Z.pow_pos_nonneg; lia).
  assert (Hq1 : 2 ^ 52 <= m / 2 ^ Z.pos p).
  { apply Z.div_le_lower_bound; [lia|]. rewrite <- Z.pow_add_r by lia.
    replace (Z.pos p + 52) with (52 + Z.pos p) by lia. lia. }
  assert (Hq2 : m / 2 ^ Z.pos p < 2 ^ 53).
  { apply Z.div_lt_upper_bound; [lia|]. rewrite <- Z.pow_add_r by lia.
    replace (Z.pos p + 53) with (53 + Z.pos p) by lia. lia. }
  destruct (Z.eq_dec m1 (2 ^ 53)) as [Hmax|Hnmax].
  - (* the mantissa rounds up to the next binade *)
    rewrite Hmax.
    assert (Hd1 : Zdigits2 (2 ^ 53) = 54) by done.
    rewrite Hd1.
    assert (Hf1 : fexp prec emax (54 + (e + Z.pos p)) - (e + Z.pos p) = 1).
    { unfold fexp, SpecFloat.emin, prec, emax. lia. }
    rewrite Hf1. cbn -[Z.pow Z.add Z.leb].
    change (Z.pos 4503599627370496) with (2 ^ 52).
    destruct (Z.leb_spec (e + Z.pos p + 1) (emax - prec)) as [_|Hbad];
      [|unfold prec, emax in Hbad; lia].
    exists 4503599627370496%positive, (Z.pos p + 1).
    split; [f_equal; lia|]. split; [done|]. split; [lia|].
    rewrite pow2_succ by lia. change (Z.pos 4503599627370496) with (2 ^ 52).
    rewrite Hmax in Herr. change (2 ^ 53) with (2 * 2 ^ 52) in Herr. nia.
  - assert (Hd1 : Zdigits2 m1 = 53) by (apply Zdigits2_eq; [lia|simpl; lia]).
    rewrite Hd1.
    assert (Hf1 : fexp prec emax (53 + (e + Z.pos p)) - (e + Z.pos p) = 0).
    { unfold fexp, SpecFloat.emin, prec, emax. lia. }
    rewrite Hf1. cbn [shr shr_record_of_loc shr_m].
    destruct m1 as [|p1|p1] eqn:Em1; [lia| |lia].
    destruct (Z.leb_spec (e + Z.pos p) (emax - prec)) as [_|Hbad];
      [|unfold prec, emax in Hbad; lia].
    exists p1, (Z.pos p). split; [done|]. split; [lia|]. split; [lia|]. exact Herr.
Qed.

(** The product of two normal numbers, away from overflow and underflow. *)
Lemma SFmul_normal s1 m1 e1 s2 m2 e2 :
  2 ^ 52 <= Z.pos m1 < 2 ^ 53 -> 2 ^ 52 <= Z.pos m2 < 2 ^ 53 ->
  -1126 <= e1 + e2 -> e1 + e2 + 54 <= 971 ->
  exists m' n,
    SFmul prec emax (S754_finite s1 m1 e1) (S754_finite s2 m2 e2)
    = S754_finite (xorb s1 s2) m' (e1 + e2 + n) /\
    2 ^ 52 <= Z.pos m' < 2 ^ 53 /\ 52 <= n <= 54 /\
    2 * Z.abs (Z.pos m' * 2 ^ n - Z.pos m1 * Z.pos m2) <= 2 ^ n.
Proof.
  intros H1 H2 Hlo Hhi. cbn [SFmul]. rewrite Pos2Z.inj_mul.
  assert (Hp : 2 ^ 104 <= Z.pos m1 * Z.pos m2 < 2 ^ 106).
  { change (2 ^ 104) with (2 ^ 52 * 2 ^ 52). change (2 ^ 106) with (2 ^ 53 * 2 ^ 53).
    split; [apply Z.mul_le_mono_nonneg; lia|apply Z.mul_lt_mono_nonneg; lia]. }
  destruct (Z.lt_ge_cases (Z.pos m1 * Z.pos m2) (2 ^ 105)) as [Hlt|Hge].
  - destruct (binary_round_aux_normal (xorb s1 s2) (Z.pos m1 * Z.pos m2) (e1 + e2) 52)
      as (m' & n & E & Hm' & Hn & Herr); [lia|simpl; lia|lia|lia|].
    exists m', n. split; [done|]. split; [done|]. split; [lia|done].
  - destruct (binary_round_aux_normal (xorb s1 s2) (Z.pos m1 * Z.pos m2) (e1 + e2) 53)
      as (m' & n & E & Hm' & Hn & Herr); [lia|simpl; lia|lia|lia|].
    exists m', n. split; [done|]. split; [done|]. split; [lia|done].
Qed.

(** Two roundings in a row, by factors whose product is close to a power
    of two: the mantissa comes back within one part in [10 ^ 9]. *)
Lemma round_trip_mantissa mx mc1 mc2 m1 m2 n1 n2 T :
  2 ^ 52 <= mx < 2 ^ 53 -> 2 ^ 52 <= mc1 < 2 ^ 53 -> 2 ^ 52 <= mc2 < 2 ^ 53 ->
  52 <= n1 <= 54 -> 52 <= n2 <= 54 -> 104 <= T ->
  2 * Z.abs (m1 * 2 ^ n1 - mx * mc1) <= 2 ^ n1 ->
  2 * Z.abs (m2 * 2 ^ n2 - m1 * mc2) <= 2 ^ n2 ->
  2 ^ 40 * Z.abs (mc1 * mc2 - 2 ^ T) <= 2 ^ T ->
  10 ^ 9 * Z.abs (m2 * 2 ^ (n1 + n2) - mx * 2 ^ T) <= mx * 2 ^ T.
Proof.
  intros Hx Hc1 Hc2 Hn1 Hn2 HT Hv Hu Hw.
  rewrite Z.pow_add_r by lia.
  assert (HP1 : 0 < 2 ^ n1 <= 2 ^ 54).
  { split; [apply Z.pow_pos_nonneg; lia|apply Z.pow_le_mono_r; lia]. }
  assert (HP2 : 0 < 2 ^ n2 <= 2 ^ 54).
  { split; [apply Z.pow_pos_nonneg; lia|apply Z.pow_le_mono_r; lia]. }
  assert (HPT : 2 ^ 104 <= 2 ^ T) by (apply Z.pow_le_mono_r; lia).
  set (P1 := 2 ^ n1) in *. set (P2 := 2 ^ n2) in *. set (PT := 2 ^ T) in *.
  set (u := m2 * P2 - m1 * mc2) in *. set (v := m1 * P1 - mx * mc1) in *.
  set (w := mc1 * mc2 - PT) in *.
  assert (Hid : m2 * (P1 * P2) - mx * PT = P1 * u + mc2 * v + mx * w).
  { subst u v w. ring. }
  rewrite Hid.
  assert (Htri : Z.abs (P1 * u + mc2 * v + mx * w)
                 <= P1 * Z.abs u + mc2 * Z.abs v + mx * Z.abs w).
  { etransitivity; [apply Z.abs_triangle|].
    etransitivity; [apply Z.add_le_mono_r, Z.abs_triangle|].
    rewrite !Z.abs_mul, (Z.abs_eq P1), (Z.abs_eq mc2), (Z.abs_eq mx) by lia. lia. }
  assert (H1 : 2 * (P1 * Z.abs u) <= 2 ^ 54 * 2 ^ 54).
  { pose proof (Z.abs_nonneg u).
    transitivity (P1 * P2); [|apply Z.mul_le_mono_nonneg; lia].
    replace (2 * (P1 * Z.abs u)) with (P1 * (2 * Z.abs u)) by ring.
    apply Z.mul_le_mono_nonneg_l; lia. }
  assert (H2 : 2 * (mc2 * Z.abs v) <= 2 ^ 53 * 2 ^ 54).
  { pose proof (Z.abs_nonneg v).
    transitivity (mc2 * P1); [|apply Z.mul_le_mono_nonneg; lia].
    replace (2 * (mc2 * Z.abs v)) with (mc2 * (2 * Z.abs v)) by ring.
    apply Z.mul_le_mono_nonneg_l; lia. }
  assert (H3 : 2 ^ 40 * (mx * Z.abs w) <= mx * PT).
  { replace (2 ^ 40 * (mx * Z.abs w)) with (mx * (2 ^ 40 * Z.abs w)) by ring.
    apply Z.mul_le_mono_nonneg_l; lia. }
  assert (HX : 2 ^ 52 * 2 ^ 104 <= mx * PT).
  { apply Z.mul_le_mono_nonneg; lia. }
  set (a := P1 * Z.abs u) in *. set (b := mc2 * Z.abs v) in *.
  set (c := mx * Z.abs w) in *. set (X := mx * PT) in *.
  set (lhs := Z.abs _) in *.
  clearbody a b c X lhs. clear -Htri H1 H2 H3 HX.
  lia.
Qed.

(** *** Values as real numbers *)

(** The real number a double stands for (zero for the infinities and NaN). *)
Definition SF2R (x : spec_float) : R :=
  match x with
  | S754_finite s m e => (IZR (if s then Z.neg m else Z.pos m) * powerRZ 2 e)%R
  | _ => 0%R
  end.

Definition real (x : float) : R := SF2R (Prim2SF x).

(** [y] is a finite number within the relative tolerance [tol] of [x]. *)
Definition within_rel (tol : R) (x y : float) : Prop :=
  is_finite y = true /\ (Rabs (real y - real x) <= tol * Rabs (real x))%R.

Lemma SFmul_round_trip s mx ex mc1 ec1 mc2 ec2 :
  2 ^ 52 <= Z.pos mx < 2 ^ 53 -> 2 ^ 52 <= Z.pos mc1 < 2 ^ 53 -> 2 ^ 52 <= Z.pos mc2 < 2 ^ 53 ->
  -1000 <= ex <= 900 -> -80 <= ec1 <= -20 -> -80 <= ec2 <= -20 ->
  104 <= - (ec1 + ec2) ->
  2 ^ 40 * Z.abs (Z.pos mc1 * Z.pos mc2 - 2 ^ (- (ec1 + ec2))) <= 2 ^ (- (ec1 + ec2)) ->
  exists m2 k,
    SFmul prec emax (SFmul prec emax (S754_finite s mx ex) (S754_finite false mc1 ec1))
      (S754_finite false mc2 ec2)
    = S754_finite s m2 (ex + (ec1 + ec2) + k) /\
    0 <= k /\
    10 ^ 9 * Z.abs (Z.pos m2 * 2 ^ k - Z.pos mx * 2 ^ (- (ec1 + ec2)))
    <= Z.pos mx * 2 ^ (- (ec1 + ec2)).
Proof.
  intros Hx Hc1 Hc2 Hex He1 He2 HT Hw.
  destruct (SFmul_normal s mx ex false mc1 ec1) as (m1 & n1 & E1 & Hm1 & Hn1 & Hv);
    [done|done|lia|lia|].
  rewrite E1, xorb_false_r.
  destruct (SFmul_normal s m1 (ex + ec1 + n1) false mc2 ec2) as (m2 & n2 & E2 & Hm2 & Hn2 & Hu);
    [done|done|lia|lia|].
  rewrite E2, xorb_false_r.
  exists m2, (n1 + n2). split; [f_equal; lia|]. split; [lia|].
  by apply (round_trip_mantissa _ (Z.pos mc1) (Z.pos mc2) (Z.pos m1)).
Qed.

Lemma powerRZ_2_nonneg k : 0 <= k -> powerRZ 2 k = IZR (2 ^ k).
Proof.
  intros Hk. rewrite <- (Z2Nat.id k Hk), <- pow_powerRZ. apply pow_IZR.
Qed.

Lemma SF2R_shift s m e k :
  0 <= k ->
  SF2R (S754_finite s m (e + k))
  = ((if s then -1 else 1) * IZR (Z.pos m * 2 ^ k) * powerRZ 2 e)%R.
Proof.
  intros Hk. unfold SF2R.
  rewrite powerRZ_add by lra. rewrite (powerRZ_2_nonneg k) by done.
  rewrite mult_IZR. destruct s.
  - change (Z.neg m) with (- Z.pos m). rewrite opp_IZR. lra.
  - lra.
Qed.

(** Closeness of mantissas at a common exponent is closeness of values. *)
Lemma SF2R_close s m2 mx e k T :
  0 <= k -> 0 <= T ->
  10 ^ 9 * Z.abs (Z.pos m2 * 2 ^ k - Z.pos mx * 2 ^ T) <= Z.pos mx * 2 ^ T ->
  (Rabs (SF2R (S754_finite s m2 (e + k)) - SF2R (S754_finite s mx (e + T)))
   <= 1e-9 * Rabs (SF2R (S754_finite s mx (e + T))))%R.
Proof.
  intros Hk HT H. rewrite !SF2R_shift by done.
  set (A := Z.pos m2 * 2 ^ k) in *. set (D := Z.pos mx * 2 ^ T) in *.
  pose proof (powerRZ_lt 2 e ltac:(lra)) as HP. set (P := powerRZ 2 e) in *.
  assert (HD : 0 <= D).
  { subst D. apply Z.mul_nonneg_nonneg; [lia|]. apply Z.pow_nonneg. lia. }
  apply IZR_le in H. rewrite mult_IZR, abs_IZR, minus_IZR in H.
  apply IZR_le in HD.
  replace ((if s then -1 else 1) * IZR A * P - (if s then -1 else 1) * IZR D * P)%R
    with ((if s then -1 else 1) * ((IZR A - IZR D) * P))%R by ring.
  replace ((if s then -1 else 1) * IZR D * P)%R
    with ((if s then -1 else 1) * (IZR D * P))%R by ring.
  rewrite !Rabs_mult.
  assert (Hs : Rabs (if s then -1 else 1) = 1%R).
  { destruct s; [rewrite Rabs_left|rewrite Rabs_right]; lra. }
  rewrite Hs, (Rabs_right P), (Rabs_right (IZR D)) by lra.
  change (IZR (10 ^ 9)) with 1000000000%R in H.
  pose proof (Rabs_pos (IZR A - IZR D)).
  set (r := Rabs (IZR A - IZR D)) in *. clearbody r.
  assert (r <= 1e-9 * IZR D)%R by lra.
  nra.
Qed.

(** *** Doubles in range *)

(** The magnitudes for which a change of unit neither overflows nor
    loses bits to underflow. *)
Definition in_range (x : float) : bool :=
  ((1e-280 <=? abs x) && (abs x <=? 1e280))%float.

(** What the round trip needs of the two factors: normal mantissas,
    exponents of moderate size, and a product within [2 ^ -40] of one. *)
Definition good_factors (f g : float) : bool :=
  match Prim2SF f, Prim2SF g with
  | S754_finite false mf ef, S754_finite false mg eg =>
      (2 ^ 52 <=? Z.pos mf) && (Z.pos mf <? 2 ^ 53) &&
      (2 ^ 52 <=? Z.pos mg) && (Z.pos mg <? 2 ^ 53) &&
      (-80 <=? ef) && (ef <=? -20) && (-80 <=? eg) && (eg <=? -20) &&
      (104 <=? - (ef + eg)) &&
      (2 ^ 40 * Z.abs (Z.pos mf * Z.pos mg - 2 ^ (- (ef + eg))) <=? 2 ^ (- (ef + eg)))
  | _, _ => false
  end.

Lemma canonical_normal m e :
  SpecFloat.bounded prec emax m e = true -> -1074 < e -> 2 ^ 52 <= Z.pos m < 2 ^ 53.
Proof.
  unfold SpecFloat.bounded, canonical_mantissa, fexp, SpecFloat.emin, prec, emax.
  intros H He. apply andb_prop in H as [H _]. apply Z.eqb_eq in H.
  assert (Hd : Zdigits2 (Z.pos m) = 53) by (simpl; lia).
  split.
  - destruct (Z.lt_ge_cases (Z.pos m) (2 ^ 52)) as [Hlt|]; [|done].
    apply (Zdigits2_le_iff (Z.pos m) 52) in Hlt; lia.
  - apply (Zdigits2_le_iff (Z.pos m) 53); lia.
Qed.

Lemma in_range_normal x :
  in_range x = true ->
  exists s m e, Prim2SF x = S754_finite s m e /\
    2 ^ 52 <= Z.pos m < 2 ^ 53 /\ -1000 <= e <= 900.
Proof.
  unfold in_range. intros H. apply andb_prop in H as [Hlo Hhi].
  rewrite FloatAxioms.leb_spec, FloatAxioms.abs_spec in Hlo, Hhi.
  pose proof (FloatAxioms.Prim2SF_valid x) as Hv.
  assert (Elo : Prim2SF 1e-280 = S754_finite false 8174961907854212 (-983)) by reflexivity.
  assert (Ehi : Prim2SF 1e280 = S754_finite false 4962080516648048 878) by reflexivity.
  rewrite Elo in Hlo. rewrite Ehi in Hhi.
  destruct (Prim2SF x) as [b|b| |s m e]; try discriminate.
  cbn [SFabs] in Hlo, Hhi. unfold SFleb, SFcompare in Hlo, Hhi.
  assert (He : -983 <= e <= 878).
  { split.
    - destruct (Z.compare_spec (-983) e); [lia|lia|discriminate].
    - destruct (Z.compare_spec e 878); [lia|lia|discriminate]. }
  exists s, m, e. split; [done|]. split; [|lia].
  apply (canonical_normal m e); [exact Hv|lia].
Qed.

Lemma good_factors_spec f g :
  good_factors f g = true ->
  exists mf ef mg eg,
    Prim2SF f = S754_finite false mf ef /\ Prim2SF g = S754_finite false mg eg /\
    2 ^ 52 <= Z.pos mf < 2 ^ 53 /\ 2 ^ 52 <= Z.pos mg < 2 ^ 53 /\
    -80 <= ef <= -20 /\ -80 <= eg <= -20 /\ 104 <= - (ef + eg) /\
    2 ^ 40 * Z.abs (Z.pos mf * Z.pos mg - 2 ^ (- (ef + eg))) <= 2 ^ (- (ef + eg)).
Proof.
  unfold good_factors.
  destruct (Prim2SF f) as [| | |[|] mf ef]; try discriminate.
  destruct (Prim2SF g) as [| | |[|] mg eg]; try discriminate.
  intros H. repeat (apply andb_prop in H as [H ?]).
  exists mf, ef, mg, eg.
  repeat match goal with
         | H : (_ <=? _) = true |- _ => apply Z.leb_le in H
         | H : (_ <? _) = true |- _ => apply Z.ltb_lt in H
         end.
  split; [done|]. split; [done|]. lia.
Qed.

(** A value in range, multiplied by two such factors in turn, comes back
    within one part in [10 ^ 9]. *)
Lemma mul_round_trip (x f g : float) :
  good_factors f g = true -> in_range x = true ->
  within_rel 1e-9 x (x * f * g).
Proof.
  intros Hfg Hx.
  destruct (good_factors_spec f g Hfg)
    as (mf & ef & mg & eg & Ef & Eg & Hmf & Hmg & Hef & Heg & HT & Hw).
  destruct (in_range_normal x Hx) as (s & m & e & Ex & Hm & He).
  destruct (SFmul_round_trip s m e mf ef mg eg) as (m2 & k & E & Hk & Hclose); try done.
  assert (Ey : Prim2SF (x * f * g) = S754_finite s m2 (e + (ef + eg) + k)).
  { rewrite !FloatAxioms.mul_spec, Ex, Ef, Eg. exact E. }
  split.
  - apply is_finite_spec. by rewrite Ey.
  - unfold real. rewrite Ey, Ex.
    replace e with (e + (ef + eg) + - (ef + eg)) at 2 3 by lia.
    apply SF2R_close; [done|lia|done].
Qed.

(** Zeros keep their sign through both multiplications. *)
Lemma mul_round_trip_zero (x f g : float) b :
  good_factors f g = true -> Prim2SF x = S754_zero b -> (x * f * g)%float = x.
Proof.
  intros Hfg Hx.
  destruct (good_factors_spec f g Hfg) as (mf & ef & mg & eg & Ef & Eg & _).
  apply Prim2SF_inj.
  rewrite !FloatAxioms.mul_spec, Hx, Ef, Eg. cbn. by rewrite !xorb_false_r.
Qed.

Lemma unit_factors_good c1 c2 :
  c1 = 1e-9%float \/ c1 = 1e-6%float \/ c1 = 1e-3%float ->
  c2 = 1e-9%float \/ c2 = 1e-6%float \/ c2 = 1e-3%float ->
  good_factors (c1 / c2) (c2 / c1) = true.
Proof.
  intros [->|[->| ->]] [->|[->| ->]]; vm_compute; reflexivity.
Qed.

(** *** One change of unit *)

(** What one change of unit needs of the conversion factors [cA], [cB] and
    of the quotient [f] the code multiplies by: normal mantissas, and
    [f * cB] within [2 ^ -40] of [cA]. *)
Definition good_ratio (cA cB f : float) : bool :=
  match Prim2SF cA, Prim2SF cB, Prim2SF f with
  | S754_finite false mA eA, S754_finite false mB eB, S754_finite false mf ef =>
      (2 ^ 52 <=? Z.pos mA) && (Z.pos mA <? 2 ^ 53) &&
      (2 ^ 52 <=? Z.pos mB) && (Z.pos mB <? 2 ^ 53) &&
      (2 ^ 52 <=? Z.pos mf) && (Z.pos mf <? 2 ^ 53) &&
      (-80 <=? ef) && (ef <=? -20) &&
      (50 <=? eA - ef - eB) &&
      (2 ^ 40 * Z.abs (Z.pos mf * Z.pos mB - Z.pos mA * 2 ^ (eA - ef - eB))
       <=? Z.pos mA * 2 ^ (eA - ef - eB))
  | _, _, _ => false
  end.

Lemma good_ratio_spec cA cB f :
  good_ratio cA cB f = true ->
  exists mA eA mB eB mf ef,
    Prim2SF cA = S754_finite false mA eA /\ Prim2SF cB = S754_finite false mB eB /\
    Prim2SF f = S754_finite false mf ef /\
    2 ^ 52 <= Z.pos mA < 2 ^ 53 /\ 2 ^ 52 <= Z.pos mB < 2 ^ 53 /\
    2 ^ 52 <= Z.pos mf < 2 ^ 53 /\ -80 <= ef <= -20 /\ 50 <= eA - ef - eB /\
    2 ^ 40 * Z.abs (Z.pos mf * Z.pos mB - Z.pos mA * 2 ^ (eA - ef - eB))
    <= Z.pos mA * 2 ^ (eA - ef - eB).
Proof.
  unfold good_ratio.
  destruct (Prim2SF cA) as [| | |[|] mA eA]; try discriminate.
  destruct (Prim2SF cB) as [| | |[|] mB eB]; try discriminate.
  destruct (Prim2SF f) as [| | |[|] mf ef]; try discriminate.
  intros H. repeat (apply andb_prop in H as [H ?]).
  exists mA, eA, mB, eB, mf, ef.
  repeat match goal with
         | H : (_ <=? _) = true |- _ => apply Z.leb_le in H
         | H : (_ <? _) = true |- _ => apply Z.ltb_lt in H
         end.
  split; [done|]. split; [done|]. split; [done|]. lia.
Qed.

(** One rounding, by a factor [mf] with [mf * mB] close to [mA * 2 ^ S]. *)
Lemma one_way_mantissa mx mA mB mf m1 n1 S :
  2 ^ 52 <= mx < 2 ^ 53 -> 2 ^ 52 <= mA < 2 ^ 53 -> 2 ^ 52 <= mB < 2 ^ 53 ->
  52 <= n1 <= 54 -> 50 <= S ->
  2 * Z.abs (m1 * 2 ^ n1 - mx * mf) <= 2 ^ n1 ->
  2 ^ 40 * Z.abs (mf * mB - mA * 2 ^ S) <= mA * 2 ^ S ->
  10 ^ 9 * Z.abs (m1 * mB * 2 ^ n1 - mx * mA * 2 ^ S) <= mx * mA * 2 ^ S.
Proof.
  intros Hx HA HB Hn1 HS Hv Hw.
  assert (HP1 : 0 < 2 ^ n1 <= 2 ^ 54).
  { split; [apply Z.pow_pos_nonneg; lia|apply Z.pow_le_mono_r; lia]. }
  assert (HPS : 2 ^ 50 <= 2 ^ S) by (apply Z.pow_le_mono_r; lia).
  set (P1 := 2 ^ n1) in *. set (PS := 2 ^ S) in *.
  set (v := m1 * P1 - mx * mf) in *. set (w := mf * mB - mA * PS) in *.
  assert (Hid : m1 * mB * P1 - mx * mA * PS = mB * v + mx * w).
  { subst v w. ring. }
  rewrite Hid.
  assert (Htri : Z.abs (mB * v + mx * w) <= mB * Z.abs v + mx * Z.abs w).
  { etransitivity; [apply Z.abs_triangle|].
    rewrite !Z.abs_mul, (Z.abs_eq mB), (Z.abs_eq mx) by lia. lia. }
  assert (H1 : 2 * (mB * Z.abs v) <= 2 ^ 53 * 2 ^ 54).
  { transitivity (mB * P1); [|apply Z.mul_le_mono_nonneg; lia].
    replace (2 * (mB * Z.abs v)) with (mB * (2 * Z.abs v)) by ring.
    apply Z.mul_le_mono_nonneg_l; lia. }
  assert (H2 : 2 ^ 40 * (mx * Z.abs w) <= mx * mA * PS).
  { replace (2 ^ 40 * (mx * Z.abs w)) with (mx * (2 ^ 40 * Z.abs w)) by ring.
    rewrite <- Z.mul_assoc. apply Z.mul_le_mono_nonneg_l; lia. }
  assert (HX : 2 ^ 52 * (2 ^ 52 * 2 ^ 50) <= mx * mA * PS).
  { rewrite <- Z.mul_assoc. apply Z.mul_le_mono_nonneg; [lia|lia|lia|].
    apply Z.mul_le_mono_nonneg; lia. }
  set (a := mB * Z.abs v) in *. set (c := mx * Z.abs w) in *.
  set (X := mx * mA * PS) in *. set (lhs := Z.abs _) in *.
  clearbody a c X lhs. clear -Htri H1 H2 HX.
  lia.
Qed.

Lemma SF2R_mul s m e m' e' :
  (SF2R (S754_finite s m e) * SF2R (S754_finite false m' e'))%R
  = SF2R (S754_finite s (m * m') (e + e')).
Proof.
  unfold SF2R. rewrite powerRZ_add by lra.
  destruct s.
  - change (Z.neg (m * m')) with (- (Z.pos m * Z.pos m')).
    change (Z.neg m) with (- Z.pos m). rewrite !opp_IZR, mult_IZR. ring.
  - rewrite Pos2Z.inj_mul, mult_IZR. ring.
Qed.

(** The physical quantity, in metres, that the stored value [x] stands for
    in the unit whose conversion factor is [c]. *)
Definition physical (x c : float) : R := (real x * real c)%R.

(** A value in range, rescaled from a unit to another, stands for the same
    physical quantity within one part in [10 ^ 9]. *)
Lemma mul_one_way (x cA cB : float) :
  good_ratio cA cB (cA / cB) = true -> in_range x = true ->
  is_finite (x * (cA / cB)) = true /\
  (Rabs (physical (x * (cA / cB)) cB - physical x cA) <= 1e-9 * Rabs (physical x cA))%R.
Proof.
  intros Hg Hx.
  destruct (good_ratio_spec _ _ _ Hg)
    as (mA & eA & mB & eB & mf & ef & EA & EB & Ef & HmA & HmB & Hmf & Hef & HS & Hw).
  destruct (in_range_normal x Hx) as (s & m & e & Ex & Hm & He).
  destruct (SFmul_normal s m e false mf ef) as (m1 & n1 & E1 & Hm1 & Hn1 & Hv);
    [done|done|lia|lia|].
  rewrite xorb_false_r in E1.
  assert (Ey : Prim2SF (x * (cA / cB)) = S754_finite s m1 (e + ef + n1)).
  { rewrite FloatAxioms.mul_spec, Ex, Ef. exact E1. }
  split.
  - apply is_finite_spec. by rewrite Ey.
  - unfold physical, real. rewrite Ey, Ex, EA, EB, !SF2R_mul.
    replace (e + ef + n1 + eB) with (e + ef + eB + n1) by lia.
    replace (e + eA) with (e + ef + eB + (eA - ef - eB)) by lia.
    apply SF2R_close; [lia|lia|].
    rewrite !Pos2Z.inj_mul.
    by apply (one_way_mantissa _ _ _ (Z.pos mf)).
Qed.

Lemma unit_ratio_good c1 c2 :
  c1 = 1e-9%float \/ c1 = 1e-6%float \/ c1 = 1e-3%float ->
  c2 = 1e-9%float \/ c2 = 1e-6%float \/ c2 = 1e-3%float ->
  good_ratio c1 c2 (c1 / c2) = true.
Proof.
  intros [->|[->| ->]] [->|[->| ->]]; vm_compute; reflexivity.
Qed.

(** *** The round trip *)

(** The state a successful [rescale_parameter] leaves. *)
Definition rescaled (param : Param) (value : string) (factor : float) (w : World) : World :=
  {| self := set_param_attr param ((fun x => x * factor)%float <$> param_attr param (self w))
               (set_unit_attr param value (self w));
     calls := calls w |}.

Lemma rescale_parameter_run param value w c_old c_new :
  _unit_conversion !! unit_attr param (self w) = Some c_old ->
  _unit_conversion !! value = Some c_new ->
  rescale_parameter param value w = (Ok tt, rescaled param value (c_old / c_new) w).
Proof.
  intros Hold Hnew. unfold rescale_parameter. rewrite Hnew.
  unfold bind, get, modify, lift, dict_get. simpl.
  rewrite Hold, Hnew. destruct param; reflexivity.
Qed.

Lemma rescaled_unit param value factor w :
  unit_attr param (self (rescaled param value factor w)) = value.
Proof. by destruct param. Qed.

Lemma rescaled_param param value factor w :
  param_attr param (self (rescaled param value factor w))
  = (fun x => x * factor)%float <$> param_attr param (self w).
Proof. by destruct param. Qed.

(** C6 (amended): with the parameter in unit [A], setting the unit to [B]
    and then to [A] again succeeds and restores the unit.  In between, every
    entry has been multiplied by the quotient of the two conversion
    factors, and an entry of magnitude between [1e-280] and [1e280] is
    finite and stands for the same physical quantity within [1e-9],
    relatively.  At the end, an entry that was zero is that zero again, and
    an entry of magnitude between [1e-280] and [1e280] is a finite number
    within [1e-9], relatively, of what it was.  The size [1.0] in [um] is
    stored as [999.99999999999989] in [nm], which is [1000.0] at that
    tolerance. *)
Theorem unit_round_trip (param : Param) (A B : string) (cA cB : float) (w : World) :
  unit_attr param (self w) = A ->
  _unit_conversion !! A = Some cA ->
  _unit_conversion !! B = Some cB ->
  exists w1 w2,
    rescale_parameter param B w = (Ok tt, w1) /\
    rescale_parameter param A w1 = (Ok tt, w2) /\
    unit_attr param (self w1) = B /\
    unit_attr param (self w2) = A /\
    Forall2 (fun x y =>
               y = (x * (cA / cB))%float /\
               (in_range x = true ->
                is_finite y = true /\
                (Rabs (physical y cB - physical x cA) <= 1e-9 * Rabs (physical x cA))%R))
      (param_attr param (self w)) (param_attr param (self w1)) /\
    Forall2 (fun x z =>
               ((x =? 0)%float = true -> z = x) /\
               (in_range x = true -> within_rel 1e-9 x z))
      (param_attr param (self w)) (param_attr param (self w2)) /\
    (1 * (1e-6 / 1e-9))%float = 999.99999999999989%float /\
    rel_close 1e-9 999.99999999999989 1000 = true.
Proof.
  intros HA HcA HcB.
  pose proof (unit_conversion_values A cA HcA) as HvA.
  pose proof (unit_conversion_values B cB HcB) as HvB.
  exists (rescaled param B (cA / cB) w), (rescaled param A (cB / cA) (rescaled param B (cA / cB) w)).
  split; [apply rescale_parameter_run; [by rewrite HA|done]|].
  split; [apply rescale_parameter_run; [by rewrite rescaled_unit|done]|].
  split; [apply rescaled_unit|]. split; [apply rescaled_unit|].
  split; [|split; [|split; reflexivity]].
  - rewrite rescaled_param.
    apply Forall2_fmap_r, Forall_Forall2_diag, Forall_forall. intros x _.
    split; [done|]. intros Hr. apply mul_one_way; [|done]. by apply unit_ratio_good.
  - rewrite !rescaled_param, <- list_fmap_compose.
    apply Forall2_fmap_r, Forall_Forall2_diag, Forall_forall. intros x _. simpl.
    pose proof (unit_factors_good cA cB HvA HvB) as Hgood.
    split.
    + intros Hz. apply eqb_zero_inv in Hz as [b Hb]. by apply (mul_round_trip_zero x _ _ b).
    + intros Hr. by apply mul_round_trip.
Qed.

Lemma unit_round_trip_witness :
  exists w1 w2,
    rescale_parameter Size "nm" scanner2 = (Ok tt, w1) /\
    rescale_parameter Size "um" w1 = (Ok tt, w2) /\
    _size_unit (self w1) = "nm" /\
    _size_unit (self w2) = "um" /\
    Forall2 (fun x y =>
               y = (x * (1e-6 / 1e-9))%float /\
               (in_range x = true ->
                is_finite y = true /\
                (Rabs (physical y 1e-9 - physical x 1e-6) <= 1e-9 * Rabs (physical x 1e-6))%R))
      (size (self scanner2)) (size (self w1)) /\
    Forall2 (fun x z =>
               ((x =? 0)%float = true -> z = x) /\
               (in_range x = true -> within_rel 1e-9 x z))
      (size (self scanner2)) (size (self w2)) /\
    (1 * (1e-6 / 1e-9))%float = 999.99999999999989%float /\
    rel_close 1e-9 999.99999999999989 1000 = true.
Proof.
  apply (unit_round_trip Size "um" "nm" 1e-6 1e-9 scanner2); reflexivity.
Defined.

(** The default scanner after [scanner.size = np.array([1e308, 1e308])]. *)
Definition huge : World := (modify (set_size [1e308%float; 1e308%float]) scanner2).2.

(** The default scanner after [scanner.size = np.array([1e-320, 1e-320])]. *)
Definition tiny : World := (modify (set_size [1e-320%float; 1e-320%float]) scanner2).2.

(** C6 as stated fails for arrays with very large or very small entries:
    a size of [1e308] in [um] overflows to infinity in [nm] and stays
    there, and a size of [1e-320] in [um] loses bits in [mm] and comes back
    more than one per cent off. *)
Lemma round_trip_out_of_range :
  exists w1 w2 w3 w4,
    rescale_parameter Size "nm" huge = (Ok tt, w1) /\
    rescale_parameter Size "um" w1 = (Ok tt, w2) /\
    size (self w2) = [infinity; infinity] /\
    is_finite infinity = false /\
    rel_close 1e-9 infinity 1e308 = false /\
    rescale_parameter Size "mm" tiny = (Ok tt, w3) /\
    rescale_parameter Size "um" w3 = (Ok tt, w4) /\
    size (self w4) = [9.8813129168249309e-321%float; 9.8813129168249309e-321%float] /\
    (0.01 * Rabs (real 1e-320) < Rabs (real 9.8813129168249309e-321 - real 1e-320))%R.
Proof.
  eexists _, _, _, _.
  split; [vm_compute; reflexivity|]. split; [vm_compute; reflexivity|].
  split; [vm_compute; reflexivity|]. split; [reflexivity|]. split; [reflexivity|].
  split; [vm_compute; reflexivity|]. split; [vm_compute; reflexivity|].
  split; [vm_compute; reflexivity|].
  unfold real.
  assert (E1 : Prim2SF 1e-320 = S754_finite false 2024 (-1074)) by reflexivity.
  assert (E2 : Prim2SF 9.8813129168249309e-321 = S754_finite false 2000 (-1074)) by reflexivity.
  rewrite E1, E2. unfold SF2R.
  pose proof (powerRZ_lt 2 (-1074) ltac:(lra)) as HP. set (P := powerRZ 2 (-1074)) in *.
  rewrite Rabs_right by nra. rewrite Rabs_left by nra. nra.
Qed.

(* ===================================================================== *)
(** ** Further properties of the class *)
(* ===================================================================== *)

(** *** The grid builder, whatever its arguments *)

(** [init_grid] either raises and leaves the scanner and the call log as
    they were, or returns one axis per entry of [axes], stores them in
    [scan_axes], sets [grid_shape] to their lengths and [total_points] to
    the product of the lengths, and changes nothing else. *)
Theorem init_grid_all_or_nothing axes size step init w :
  match init_grid axes size step init w with
  | (Ok sa, w') =>
      length sa = length axes /\
      scan_axes (self w') = Some sa /\
      grid_shape (self w') = (fun ax : list float => len ax) <$> sa /\
      total_points (self w') = Py.prod (grid_shape (self w')) /\
      w' = {| self := set_scan_axes (scan_axes (self w'))
                        (set_grid (grid_shape (self w')) (total_points (self w')) (self w));
              calls := calls w |}
  | (Raise e, w') => w' = w
  end.
Proof.
  pose proof (init_grid_run axes size step init w) as H.
  destruct (init_grid axes size step init w) as [[sa|e] w']; [|done].
  destruct H as (-> & Hlen & _). done.
Qed.

(** [init_grid] returns normally only if [size], [step] and [init] have an
    entry for every axis, the first [len(axes)] steps are all different
    from zero and, when there is an axis at all, the three unit tags are
    keys of the conversion table. *)
Theorem init_grid_requires axes size step init w sa w' :
  init_grid axes size step init w = (Ok sa, w') ->
  (length axes <= length size)%nat /\
  (length axes <= length step)%nat /\
  (length axes <= length init)%nat /\
  (forall (d : nat) stp, (d < length axes)%nat -> step !! d = Some stp ->
                         (stp =? 0)%float = false) /\
  (axes <> [] ->
   is_Some (_unit_conversion !! _size_unit (self w)) /\
   is_Some (_unit_conversion !! _step_unit (self w)) /\
   is_Some (_unit_conversion !! _init_unit (self w))).
Proof.
  intros Hrun.
  pose proof (init_grid_run axes size step init w) as H. rewrite Hrun in H.
  destruct H as (_ & Hlen & Hbuilt).
  assert (Hall : forall d, (d < length axes)%nat ->
            exists ax, sa !! d = Some ax /\ axis_built (self w) size step init d ax).
  { intros d Hd. destruct (lookup_lt_is_Some_2 sa d) as [ax Hax]; [lia|]. eauto. }
  assert (Hn : forall (l : list float),
            (forall d, (d < length axes)%nat -> is_Some (l !! d)) ->
            (length axes <= length l)%nat).
  { intros l Hl. destruct (length axes) as [|n] eqn:E; [lia|].
    destruct (Hl n) as [x Hx]; [lia|]. apply lookup_lt_Some in Hx. lia. }
  split; [|split; [|split; [|split]]].
  - apply Hn. intros d Hd.
    destruct (Hall d Hd) as (ax & _ & sz & ? & ? & ? & ? & ? & ? & H & _). by exists sz.
  - apply Hn. intros d Hd.
    destruct (Hall d Hd) as (ax & _ & ? & stp & ? & ? & ? & ? & ? & _ & H & _). by exists stp.
  - apply Hn. intros d Hd.
    destruct (Hall d Hd) as (ax & _ & ? & ? & ini & ? & ? & ? & ? & _ & _ & H & _). by exists ini.
  - intros d stp Hd Hstp.
    destruct (Hall d Hd) as (ax & _ & sz & stp' & ini & cs & ct & ci & a
                             & _ & Hs & _ & _ & Hct & _ & Ha & _).
    assert (stp' = stp) as -> by congruence.
    destruct (stp =? 0)%float eqn:Ez; [|done]. exfalso.
    apply eqb_zero_inv in Ez as [b Hb].
    pose proof (mul_zero_unit stp ct b Hb (unit_conversion_values _ _ Hct)) as Hz.
    destruct (arange_zero_step 0 (sz * cs + stp * ct / 2) (stp * ct) b Hz) as [msg Hm].
    congruence.
  - intros Hne. destruct axes as [|x axes']; [done|].
    destruct (Hall 0%nat) as (ax & _ & ? & ? & ? & cs & ct & ci & ? & _ & _ & _ & H1 & H2 & H3 & _);
      [simpl; lia|].
    repeat split; eauto.
Qed.

Lemma init_grid_requires_witness :
  (length ["x"; "y"] <= length (size (self scanner2)))%nat /\
  (length ["x"; "y"] <= length (step (self scanner2)))%nat /\
  (length ["x"; "y"] <= length (init (self scanner2)))%nat /\
  (forall (d : nat) stp, (d < length ["x"; "y"])%nat -> step (self scanner2) !! d = Some stp ->
                         (stp =? 0)%float = false) /\
  (["x"; "y"] <> [] ->
   is_Some (_unit_conversion !! _size_unit (self scanner2)) /\
   is_Some (_unit_conversion !! _step_unit (self scanner2)) /\
   is_Some (_unit_conversion !! _init_unit (self scanner2))).
Proof.
  apply (init_grid_requires ["x"; "y"] _ _ _ scanner2
           (grid_of scanner2 ["x"; "y"] (size (self scanner2)) (step (self scanner2))
              (init (self scanner2)) <$> [0%nat; 1%nat])
           (with_grid (grid_of scanner2 ["x"; "y"] (size (self scanner2)) (step (self scanner2))
              (init (self scanner2)) <$> [0%nat; 1%nat]) scanner2)).
  vm_compute. reflexivity.
Defined.

(** Once [init_current_grid] has returned, calling it again changes
    nothing: the grid depends on the parameters and their units only, and
    building it alters neither. *)
Theorem init_current_grid_idempotent (w w1 : World) :
  init_current_grid w = (Ok tt, w1) -> init_current_grid w1 = (Ok tt, w1).
Proof.
  unfold init_current_grid, bind, get, ret. simpl.
  pose proof (init_grid_run (axes (self w)) (size (self w)) (step (self w)) (init (self w)) w)
    as Hrun.
  destruct (init_grid (axes (self w)) (size (self w)) (step (self w)) (init (self w)) w)
    as [[sa|e] w'] eqn:E; [|discriminate].
  destruct Hrun as (-> & _). intros [= <-].
  assert (Hsame : same_units (self w) (self (with_grid sa w))) by done.
  assert (E1 : (init_grid (axes (self w)) (size (self w)) (step (self w)) (init (self w)) w).1
               = Ok sa) by (by rewrite E).
  change (axes (self (with_grid sa w))) with (axes (self w)).
  change (size (self (with_grid sa w))) with (size (self w)).
  change (step (self (with_grid sa w))) with (step (self w)).
  change (init (self (with_grid sa w))) with (init (self w)).
  rewrite (init_grid_same_units _ _ _ _ w (with_grid sa w) sa Hsame E1).
  reflexivity.
Qed.

Lemma init_current_grid_idempotent_witness :
  init_current_grid scanner2 = (Ok tt, scanner2).
Proof.
  apply (init_current_grid_idempotent scanner2 scanner2). vm_compute. reflexivity.
Defined.

(** *** A fresh scanner *)

(** The axis a fresh scanner builds in every direction: 21 points, from
    half a micrometre below zero, five hundredths of a micrometre apart. *)
Definition default_axis : list float :=
  (fun i => Np.arange_item 0 (0.05 * 1e-6) i - 1 * 1e-6 / 2 + 0 * 1e-6)%float <$> seqZ 0 21.

Lemma getitem_repeat {A} (x : A) (n i : Z) :
  0 <= i < n -> Py.getitem (Py.repeat x n) i = Ok x.
Proof.
  intros Hi. rewrite <- (Z2Nat.id i) by lia. apply getitem_lookup.
  unfold Py.repeat. apply lookup_replicate_2. lia.
Qed.

Lemma default_arange :
  Np.arange 0 (1 * 1e-6 + 0.05 * 1e-6 / 2) (0.05 * 1e-6)
  = Ok (Np.arange_item 0 (0.05 * 1e-6) <$> seqZ 0 21).
Proof. vm_compute. reflexivity. Qed.

Lemma unit_conversion_um : dict_get _unit_conversion "um" = Ok 1e-6%float.
Proof. reflexivity. Qed.

Lemma prod_replicate (n : nat) (k acc : Z) :
  foldl Z.mul acc (replicate n k) = acc * k ^ Z.of_nat n.
Proof.
  revert acc. induction n as [|n IH]; intros acc.
  - simpl. lia.
  - cbn [replicate foldl]. rewrite IH, Nat2Z.inj_succ, Z.pow_succ_r by lia. lia.
Qed.

Lemma fresh_grid (axis_names : list string) (w0 : World) :
  _size_unit (self w0) = "um" -> _step_unit (self w0) = "um" -> _init_unit (self w0) = "um" ->
  init_grid axis_names (Py.repeat 1%float (len axis_names))
    (Py.repeat 0.05%float (len axis_names)) (Py.repeat 0%float (len axis_names)) w0
  = (Ok (replicate (length axis_names) default_axis),
     with_grid (replicate (length axis_names) default_axis) w0).
Proof.
  intros Hu1 Hu2 Hu3. set (n := len axis_names).
  pose proof (init_grid_run axis_names (Py.repeat 1%float n) (Py.repeat 0.05%float n)
                (Py.repeat 0%float n) w0) as Hrun.
  enough (H : (init_grid axis_names (Py.repeat 1%float n) (Py.repeat 0.05%float n)
                 (Py.repeat 0%float n) w0).1
              = Ok (replicate (length axis_names) default_axis)).
  { destruct (init_grid _ _ _ _ w0) as [r w1]. simpl in H. subst r.
    destruct Hrun as (-> & _). done. }
  clear Hrun. unfold init_grid, bind.
  enough (H : wp (for_in (Py.range (len axis_names))
                    (init_axis (Py.repeat 1%float n) (Py.repeat 0.05%float n)
                       (Py.repeat 0%float n)) []) w0
                (fun r _ => r = Ok (replicate (length axis_names) default_axis))).
  { unfold wp in H. destruct (for_in _ _ _ w0) as [r w1]. simpl in H. by subst r. }
  apply (wp_for_in _ (fun visited acc w1 =>
           w1 = w0 /\ acc = replicate (length visited) default_axis)).
  - done.
  - intros visited i rest acc w1 El [-> ->]. apply range_split in El as [-> Hi].
    unfold init_axis. fold n in Hi.
    apply wp_bind, wp_lift. rewrite getitem_repeat by done.
    apply wp_bind, wp_get. apply wp_bind, wp_lift.
    rewrite Hu1, unit_conversion_um.
    apply wp_bind, wp_lift. rewrite getitem_repeat by done.
    apply wp_bind, wp_get. apply wp_bind, wp_lift.
    rewrite Hu2, unit_conversion_um.
    apply wp_bind, wp_lift. rewrite getitem_repeat by done.
    apply wp_bind, wp_get. apply wp_bind, wp_lift.
    rewrite Hu3, unit_conversion_um.
    apply wp_bind, wp_lift. rewrite default_arange. apply wp_ret.
    split; [done|].
    rewrite length_app. simpl. rewrite Nat.add_1_r, replicate_S_end.
    f_equal.
  - intros acc w1 [-> ->]. unfold Py.range, len. rewrite length_seqZ.
    by rewrite Nat2Z.id.
Qed.

(** [GridScanner()] on a stage with any number [n] of axes returns
    normally, without calling the stage: the five per-axis sequences have
    [n] entries (size 1.0, step 0.05, init 0.0, all in um), the grid has 21
    points along every axis, [total_points] is [21 ^ n], and the scanner is
    inactive with no abort pending. *)
Theorem fresh_scanner (axis_names : list string) :
  exists w,
    __init__ axis_names = (Ok tt, w) /\
    calls w = [] /\
    axes (self w) = axis_names /\ axes_names (self w) = axis_names /\
    _num_axes (self w) = len axis_names /\
    size (self w) = replicate (length axis_names) 1%float /\
    step (self w) = replicate (length axis_names) 0.05%float /\
    init (self w) = replicate (length axis_names) 0%float /\
    (_size_unit (self w), _step_unit (self w), _init_unit (self w)) = ("um", "um", "um") /\
    scan_axes (self w) = Some (replicate (length axis_names) default_axis) /\
    grid_shape (self w) = replicate (length axis_names) 21 /\
    total_points (self w) = 21 ^ len axis_names /\
    status (self w) = "inactive" /\ abort_requested (self w) = false /\
    _step_times (self w) = None.
Proof.
  unfold __init__. cbv zeta. cbn [axes size step init].
  eexists. split.
  { unfold bind at 1. rewrite fresh_grid by reflexivity. reflexivity. }
  simpl. unfold Py.repeat, len. rewrite !Nat2Z.id, fmap_replicate.
  repeat (split; [reflexivity|]).
  split; [|done].
  unfold Py.prod. rewrite prod_replicate.
  change (Z.of_nat (length default_axis)) with 21. lia.
Qed.

(** *** Successive settings of [num_axes] *)

(** The scanner after [num_axes] has been set to [n]. *)
Definition renumbered (n : Z) (g : GridScanner) : GridScanner :=
  set_init (resized n 0%float (init g))
    (set_step (resized n 0%float (step g))
       (set_size (resized n 0%float (size g))
          (set_axes_names (resized n EmptyString (axes_names g))
             (set_axes (resized n EmptyString (axes g)) (set__num_axes n g))))).

Lemma update_axes_run (w : World) (n : Z) :
  0 <= n -> consistent (self w) ->
  _update_axes n w = (Ok tt, {| self := renumbered n (self w); calls := calls w |}).
Proof.
  intros Hn (Hnames & Hsize & Hstep & Hinit).
  destruct w as [g h]. simpl in *.
  unfold _update_axes, bind, modify, get, lift. simpl.
  destruct (Z.ltb_spec (len (axes g)) n) as [Hlt|Hge].
  - simpl.
    rewrite (np_slice_assign_grow n (len (axes g)) (size g)),
            (np_slice_assign_grow n (len (axes g)) (step g)),
            (np_slice_assign_grow n (len (axes g)) (init g))
      by (unfold len in *; lia).
    simpl.
    rewrite (py_slice_assign_grow n _ (len (axes g)) (axes g)),
            (py_slice_assign_grow n _ (len (axes g)) (axes_names g))
      by (unfold len in *; lia).
    reflexivity.
  - simpl.
    rewrite (resized_shrink n EmptyString (axes g)),
            (resized_shrink n EmptyString (axes_names g)),
            (resized_shrink n 0%float (size g)),
            (resized_shrink n 0%float (step g)),
            (resized_shrink n 0%float (init g))
      by (unfold len in *; lia).
    reflexivity.
Qed.

Lemma renumbered_consistent n g : 0 <= n -> consistent (renumbered n g).
Proof.
  intros Hn. unfold consistent, renumbered. simpl. by rewrite !resized_length.
Qed.

Lemma resized_resized {A} (n m : Z) (fill : A) l :
  0 <= m <= n -> resized m fill (resized n fill l) = resized m fill l.
Proof.
  intros Hm. unfold resized.
  rewrite length_app, length_take, length_replicate, take_app, take_take, take_replicate,
    length_take.
  replace (Z.to_nat m - (Z.to_nat n `min` length l + (Z.to_nat n - length l)))%nat
    with 0%nat by lia.
  simpl. rewrite app_nil_r.
  replace (Z.to_nat m `min` Z.to_nat n)%nat with (Z.to_nat m) by lia.
  f_equal. f_equal. lia.
Qed.

Lemma resized_same {A} (fill : A) l : resized (len l) fill l = l.
Proof.
  unfold resized, len. rewrite Nat2Z.id, take_ge, Nat.sub_diag by lia. apply app_nil_r.
Qed.

Lemma resized_regrown {A} (n m : Z) (fill : A) l :
  0 <= n <= m -> n <= len l ->
  resized m fill (resized n fill l) = take (Z.to_nat n) l ++ replicate (Z.to_nat (m - n)) fill.
Proof.
  unfold len. intros Hn Hl. unfold resized.
  rewrite length_app, length_take, length_replicate.
  replace (Z.to_nat n - length l)%nat with 0%nat by lia. simpl. rewrite !app_nil_r.
  rewrite take_take. replace (Z.to_nat m `min` Z.to_nat n)%nat with (Z.to_nat n) by lia.
  f_equal. f_equal. lia.
Qed.

(** Setting [num_axes] to [n] and then to some [m <= n] leaves the scanner
    as setting it to [m] at once does; in particular, growing the scanner
    and then restoring the number of axes it had gives back the five
    sequences entry for entry. *)
Theorem update_axes_smaller_wins (w : World) (n m : Z) :
  consistent (self w) -> 0 <= m <= n ->
  (_update_axes n ;;; _update_axes m) w = _update_axes m w /\
  (m = len (axes (self w)) ->
   exists w',
     (_update_axes n ;;; _update_axes m) w = (Ok tt, w') /\
     axes (self w') = axes (self w) /\ axes_names (self w') = axes_names (self w) /\
     size (self w') = size (self w) /\ step (self w') = step (self w) /\
     init (self w') = init (self w)).
Proof.
  intros Hc Hm.
  assert (E : (_update_axes n ;;; _update_axes m) w
              = (Ok tt, {| self := renumbered m (self w); calls := calls w |})).
  { unfold bind at 1. rewrite update_axes_run by (done || lia).
    rewrite update_axes_run by (lia || by apply renumbered_consistent; lia).
    simpl. f_equal. f_equal. unfold renumbered. simpl.
    by rewrite !resized_resized. }
  split.
  - rewrite E. symmetry. apply update_axes_run; [lia|done].
  - intros ->. eexists. split; [exact E|].
    destruct Hc as (H1 & H2 & H3 & H4). unfold renumbered. simpl.
    split; [apply resized_same|].
    split; [replace (len (axes (self w))) with (len (axes_names (self w)))
              by (unfold len; lia); apply resized_same|].
    split; [replace (len (axes (self w))) with (len (size (self w)))
              by (unfold len; lia); apply resized_same|].
    split; [replace (len (axes (self w))) with (len (step (self w)))
              by (unfold len; lia); apply resized_same|].
    replace (len (axes (self w))) with (len (init (self w))) by (unfold len; lia).
    apply resized_same.
Qed.

Lemma update_axes_smaller_wins_witness :
  (_update_axes 5 ;;; _update_axes 2) scanner2 = _update_axes 2 scanner2 /\
  (2 = len (axes (self scanner2)) ->
   exists w',
     (_update_axes 5 ;;; _update_axes 2) scanner2 = (Ok tt, w') /\
     axes (self w') = axes (self scanner2) /\
     axes_names (self w') = axes_names (self scanner2) /\
     size (self w') = size (self scanner2) /\ step (self w') = step (self scanner2) /\
     init (self w') = init (self scanner2)).
Proof.
  apply (update_axes_smaller_wins scanner2 5 2); [vm_compute; auto|lia].
Defined.

(** Setting [num_axes] to some [n] below the current number and then to
    [m >= n] does not bring the dropped entries back: each sequence keeps
    its first [n] entries and is filled with zeros (empty strings for the
    two name lists). *)
Theorem update_axes_dropped_for_good (w : World) (n m : Z) :
  consistent (self w) -> 0 <= n <= m -> n <= len (axes (self w)) ->
  exists w',
    (_update_axes n ;;; _update_axes m) w = (Ok tt, w') /\
    _num_axes (self w') = m /\
    axes (self w') = take (Z.to_nat n) (axes (self w)) ++ replicate (Z.to_nat (m - n)) EmptyString /\
    axes_names (self w')
    = take (Z.to_nat n) (axes_names (self w)) ++ replicate (Z.to_nat (m - n)) EmptyString /\
    size (self w') = take (Z.to_nat n) (size (self w)) ++ replicate (Z.to_nat (m - n)) 0%float /\
    step (self w') = take (Z.to_nat n) (step (self w)) ++ replicate (Z.to_nat (m - n)) 0%float /\
    init (self w') = take (Z.to_nat n) (init (self w)) ++ replicate (Z.to_nat (m - n)) 0%float.
Proof.
  intros Hc Hn Hl.
  eexists. split.
  { unfold bind at 1. rewrite update_axes_run by (done || lia).
    apply update_axes_run; [lia|]. apply renumbered_consistent. lia. }
  destruct Hc as (H1 & H2 & H3 & H4). unfold len in Hl.
  unfold renumbered. simpl.
  rewrite !resized_regrown by (unfold len; lia). done.
Qed.

Lemma update_axes_dropped_for_good_witness :
  exists w',
    (_update_axes 1 ;;; _update_axes 3) scanner3 = (Ok tt, w') /\
    _num_axes (self w') = 3 /\
    axes (self w') = ["x"; ""; ""] /\
    axes_names (self w') = ["x"; ""; ""] /\
    size (self w') = [1%float; 0%float; 0%float] /\
    step (self w') = [0.05%float; 0%float; 0%float] /\
    init (self w') = [0%float; 0%float; 0%float].
Proof.
  apply (update_axes_dropped_for_good scanner3 1 3); [vm_compute; auto|lia|vm_compute; discriminate].
Defined.

(** After [num_axes] has grown, the new axes have size and step zero:
    [init_current_grid] raises and the scanner keeps the grid it had, until
    a step is given to every new axis. *)
Theorem grown_axes_have_no_grid (w : World) (n : Z) :
  consistent (self w) -> len (axes (self w)) < n ->
  exists w1 e,
    _update_axes n w = (Ok tt, w1) /\
    step (self w1) !! length (axes (self w)) = Some 0%float /\
    init_current_grid w1 = (Raise e, w1) /\
    scan_axes (self w1) = scan_axes (self w) /\
    grid_shape (self w1) = grid_shape (self w) /\
    total_points (self w1) = total_points (self w).
Proof.
  intros Hc Hn. pose proof Hc as (H1 & H2 & H3 & H4).
  assert (H0 : 0 <= n) by (unfold len in Hn; lia).
  assert (Hstep : step (renumbered n (self w)) !! length (axes (self w)) = Some 0%float).
  { unfold renumbered, resized. simpl. unfold len in Hn.
    rewrite take_ge by lia. rewrite lookup_app_r by lia.
    rewrite H3, Nat.sub_diag. apply lookup_replicate_2. lia. }
  destruct (init_grid_zero_step (axes (renumbered n (self w))) (size (renumbered n (self w)))
              (step (renumbered n (self w))) (init (renumbered n (self w)))
              {| self := renumbered n (self w); calls := calls w |}
              (length (axes (self w))) 0%float) as [e He].
  { unfold renumbered. simpl. rewrite resized_length by lia. unfold len in Hn. lia. }
  { exact Hstep. }
  { reflexivity. }
  exists {| self := renumbered n (self w); calls := calls w |}, e.
  split; [by apply update_axes_run|]. split; [exact Hstep|].
  split; [|done].
  unfold init_current_grid, bind, get. simpl. simpl in He. by rewrite He.
Qed.

Lemma grown_axes_have_no_grid_witness :
  exists w1 e,
    _update_axes 3 scanner2 = (Ok tt, w1) /\
    step (self w1) !! 2%nat = Some 0%float /\
    init_current_grid w1 = (Raise e, w1) /\
    scan_axes (self w1) = scan_axes (self scanner2) /\
    grid_shape (self w1) = grid_shape (self scanner2) /\
    total_points (self w1) = total_points (self scanner2).
Proof.
  apply (grown_axes_have_no_grid scanner2 3); [vm_compute; auto|vm_compute; reflexivity].
Defined.

(** *** Products and quotients that need no rounding *)

Lemma Zdigits2_bounds a : 0 < a -> 2 ^ (Zdigits2 a - 1) <= a < 2 ^ Zdigits2 a.
Proof.
  intros Ha. pose proof (Zdigits2_nonneg a) as Hd.
  assert (H1 : a < 2 ^ Zdigits2 a) by (apply Zdigits2_le_iff; lia).
  split; [|done].
  destruct (Z.eq_dec (Zdigits2 a) 0) as [E|N].
  { rewrite E in H1. simpl in H1. lia. }
  destruct (Z.lt_ge_cases a (2 ^ (Zdigits2 a - 1))) as [Hlt|]; [|done].
  apply Zdigits2_le_iff in Hlt; lia.
Qed.

Lemma Zdigits2_shift a k : 0 < a -> 0 <= k -> Zdigits2 (a * 2 ^ k) = Zdigits2 a + k.
Proof.
  intros Ha Hk. pose proof (Zdigits2_bounds a Ha) as [Hlo Hhi].
  pose proof (Zdigits2_nonneg a) as Hd.
  assert (Hd1 : 1 <= Zdigits2 a).
  { destruct (Z.eq_dec (Zdigits2 a) 0) as [E|N]; [|lia].
    rewrite E in Hhi. simpl in Hhi. lia. }
  assert (Hk2 : 0 < 2 ^ k) by (apply Z.pow_pos_nonneg; lia).
  apply Zdigits2_eq; [lia|].
  replace (Zdigits2 a + k - 1) with (Zdigits2 a - 1 + k) by lia.
  rewrite !Z.pow_add_r by lia. split.
  - apply Z.mul_le_mono_nonneg_r; lia.
  - apply Z.mul_lt_mono_pos_r; lia.
Qed.

(** A mantissa in canonical form times a power of two is rounded to that
    mantissa, exactly; the result overflows only when the exponent does. *)
Lemma binary_round_aux_canonical s m E k :
  canonical_mantissa prec emax m E = true -> 0 <= k ->
  binary_round_aux prec emax s (Z.pos m * 2 ^ k) (E - k) loc_Exact
  = if E <=? emax - prec then S754_finite s m E else S754_infinity s.
Proof.
  intros Hc Hk. unfold canonical_mantissa in Hc. apply Z.eqb_eq in Hc.
  change (Z.pos (digits2_pos m)) with (Zdigits2 (Z.pos m)) in Hc.
  assert (Hk2 : 0 < 2 ^ k) by (apply Z.pow_pos_nonneg; lia).
  unfold binary_round_aux, shr_fexp.
  rewrite Zdigits2_shift by lia.
  replace (Zdigits2 (Z.pos m) + k + (E - k)) with (Zdigits2 (Z.pos m) + E) by lia.
  rewrite Hc. replace (E - (E - k)) with k by lia.
  assert (Hsecond : forall e0, e0 = E ->
            (let '(mrs'', e'') := shr (shr_record_of_loc (Z.pos m) loc_Exact) e0
                                    (fexp prec emax (Zdigits2 (Z.pos m) + e0) - e0) in
             match shr_m mrs'' with
             | 0 => S754_zero s
             | Z.pos m0 => if e'' <=? emax - prec then S754_finite s m0 e'' else S754_infinity s
             | Z.neg _ => S754_nan
             end) = if E <=? emax - prec then S754_finite s m E else S754_infinity s).
  { intros e0 ->. rewrite Hc, Z.sub_diag. by cbn [shr shr_record_of_loc shr_m]. }
  destruct k as [|p|p]; [| |lia].
  - cbn [shr]. rewrite Z.mul_1_r. cbn [shr_record_of_loc shr_m loc_of_shr_record round_nearest_even].
    apply Hsecond. lia.
  - rewrite shr_pos. cbn [shr_record_of_loc].
    set (k' := Nat.pred (Pos.to_nat p)).
    assert (Ek : Z.of_nat k' + 1 = Z.pos p) by (pose proof (Pos2Nat.is_pos p); subst k'; lia).
    rewrite shr_iter by lia.
    assert (Hk' : 0 < 2 ^ Z.of_nat k') by (apply Z.pow_pos_nonneg; lia).
    assert (Ep : 2 ^ Z.pos p = 2 ^ Z.of_nat k' * 2).
    { rewrite <- Ek, Z.pow_add_r by lia. done. }
    assert (E1 : Z.pos m * 2 ^ Z.pos p / 2 ^ (Z.of_nat k' + 1) = Z.pos m).
    { rewrite Ek. apply Z.div_mul. lia. }
    assert (E2 : Z.pos m * 2 ^ Z.pos p / 2 ^ Z.of_nat k' = 2 * Z.pos m).
    { rewrite Ep. replace (Z.pos m * (2 ^ Z.of_nat k' * 2)) with (2 * Z.pos m * 2 ^ Z.of_nat k') by lia.
      apply Z.div_mul. lia. }
    assert (E3 : (Z.pos m * 2 ^ Z.pos p) mod 2 ^ Z.of_nat k' = 0).
    { rewrite Ep. replace (Z.pos m * (2 ^ Z.of_nat k' * 2)) with (2 * Z.pos m * 2 ^ Z.of_nat k') by lia.
      apply Z.mod_mul. lia. }
    rewrite E1, E2, E3, Z.odd_mul.
    cbn [Z.odd andb Z.eqb negb shr_m loc_of_shr_record round_nearest_even].
    apply Hsecond. lia.
Qed.

Lemma binary_round_aux_exact s m E k :
  SpecFloat.bounded prec emax m E = true -> 0 <= k ->
  binary_round_aux prec emax s (Z.pos m * 2 ^ k) (E - k) loc_Exact = S754_finite s m E.
Proof.
  intros Hb Hk. unfold SpecFloat.bounded in Hb. apply andb_prop in Hb as [Hc Hle].
  rewrite binary_round_aux_canonical by done. by rewrite Hle.
Qed.

Lemma Prim2SF_bounded (x : float) s m e :
  Prim2SF x = S754_finite s m e -> SpecFloat.bounded prec emax m e = true.
Proof.
  intros E. pose proof (FloatAxioms.Prim2SF_valid x) as H. by rewrite E in H.
Qed.

(** Multiplying by one changes nothing, whatever the double. *)
Lemma mul_one (x : float) : (x * 1)%float = x.
Proof.
  apply Prim2SF_inj. rewrite FloatAxioms.mul_spec.
  change (Prim2SF 1) with (S754_finite false 4503599627370496 (-52)).
  destruct (Prim2SF x) as [b|b| |s m e] eqn:E; unfold SF64mul; cbn [SFmul];
    rewrite ?xorb_false_r; try done.
  rewrite Pos2Z.inj_mul. change (Z.pos 4503599627370496) with (2 ^ 52).
  replace (e + -52) with (e - 52) by lia.
  apply binary_round_aux_exact; [by apply (Prim2SF_bounded x s)|lia].
Qed.

(** The two shapes of a finite double: a normal number has a mantissa of
    53 bits; a subnormal one has the least exponent and a shorter
    mantissa. *)
Lemma canonical_cases m e :
  canonical_mantissa prec emax m e = true ->
  (Zdigits2 (Z.pos m) = 53 /\ -1074 <= e) \/ (Zdigits2 (Z.pos m) < 53 /\ e = -1074).
Proof.
  unfold canonical_mantissa, fexp, SpecFloat.emin, prec, emax. intros H.
  apply Z.eqb_eq in H. change (Z.pos (digits2_pos m)) with (Zdigits2 (Z.pos m)) in H.
  pose proof (Zdigits2_nonneg (Z.pos m)). lia.
Qed.

Lemma canonical_normal_exponent m e :
  Zdigits2 (Z.pos m) = 53 -> -1074 <= e -> canonical_mantissa prec emax m e = true.
Proof.
  intros Hd He. unfold canonical_mantissa, fexp, SpecFloat.emin, prec, emax.
  change (Z.pos (digits2_pos m)) with (Zdigits2 (Z.pos m)). apply Z.eqb_eq. lia.
Qed.

Lemma canonical_subnormal m :
  Zdigits2 (Z.pos m) <= 53 -> canonical_mantissa prec emax m (-1074) = true.
Proof.
  intros Hd. unfold canonical_mantissa, fexp, SpecFloat.emin, prec, emax.
  change (Z.pos (digits2_pos m)) with (Zdigits2 (Z.pos m)). apply Z.eqb_eq.
  pose proof (Zdigits2_nonneg (Z.pos m)). lia.
Qed.

(** Twice a finite double. *)
Lemma SFmul_two s m e :
  SpecFloat.bounded prec emax m e = true ->
  SFmul prec emax (S754_finite s m e) (S754_finite false 4503599627370496 (-51))
  = if Zdigits2 (Z.pos m) =? 53
    then if e + 1 <=? emax - prec then S754_finite s m (e + 1) else S754_infinity s
    else S754_finite s (m~0) e.
Proof.
  intros Hb. unfold SpecFloat.bounded in Hb. apply andb_prop in Hb as [Hc Hle].
  cbn [SFmul]. rewrite xorb_false_r, Pos2Z.inj_mul.
  change (Z.pos 4503599627370496) with (2 ^ 52).
  destruct (canonical_cases m e Hc) as [[Hd He]|[Hd He]].
  - rewrite Hd. cbn [Z.eqb Pos.eqb].
    replace (e + -51) with (e + 1 - 52) by lia.
    apply binary_round_aux_canonical; [|lia].
    apply canonical_normal_exponent; [done|lia].
  - destruct (Z.eqb_spec (Zdigits2 (Z.pos m)) 53) as [E|_]; [lia|]. subst e.
    assert (Hd2 : Zdigits2 (Z.pos m~0) = Zdigits2 (Z.pos m) + 1).
    { change (Z.pos m~0) with (2 * Z.pos m). rewrite Z.mul_comm.
      change 2 with (2 ^ 1) at 1. apply Zdigits2_shift; lia. }
    replace (Z.pos m * 2 ^ 52) with (Z.pos m~0 * 2 ^ 51).
    2:{ change (Z.pos m~0) with (2 * Z.pos m). change (2 ^ 52) with (2 * 2 ^ 51). lia. }
    change (-1074 + -51) with (-1074 - 51).
    rewrite binary_round_aux_canonical; [done| |lia].
    apply canonical_subnormal. lia.
Qed.

Lemma div_eucl_exact a b : 0 < b -> Z.div_eucl (a * b) b = (a, 0).
Proof.
  intros Hb. pose proof (Z.div_eucl_eq (a * b) b ltac:(lia)) as H.
  pose proof (Z.mod_pos_bound (a * b) b Hb) as Hm.
  unfold Z.modulo in Hm. unfold Z.div, Z.modulo in *.
  generalize (Z.div_mul a b ltac:(lia)) (Z.mod_mul a b ltac:(lia)).
  unfold Z.div, Z.modulo. destruct (Z.div_eucl (a * b) b) as [q r]. by intros -> ->.
Qed.

(** Half of a double that is twice a finite double [(m, e)]. *)
Lemma SFdiv_two s m e :
  SpecFloat.bounded prec emax m e = true ->
  SFdiv prec emax
    (if Zdigits2 (Z.pos m) =? 53 then S754_finite s m (e + 1) else S754_finite s (m~0) e)
    (S754_finite false 4503599627370496 (-51))
  = S754_finite s m e.
Proof.
  intros Hb. pose proof Hb as Hb'.
  unfold SpecFloat.bounded in Hb. apply andb_prop in Hb as [Hc Hle].
  destruct (canonical_cases m e Hc) as [[Hd He]|[Hd He]].
  - rewrite Hd. cbn [Z.eqb Pos.eqb SFdiv]. rewrite xorb_false_r.
    unfold SFdiv_core_binary. rewrite Hd.
    change (Zdigits2 (Z.pos 4503599627370496)) with 53.
    destruct (Z.eq_dec e (-1074)) as [->|Hne].
    + change (fexp prec emax (53 + (-1074 + 1) - (53 + -51)) `min` (-1074 + 1 - -51)) with (-1074).
      change (-1074 + 1 - -51 - -1074) with 52.
      cbv beta iota zeta. rewrite Z.shiftl_mul_pow2 by lia.
      change (Z.pos 4503599627370496) with (2 ^ 52).
      rewrite div_eucl_exact by lia. cbv beta iota.
      change (new_location (2 ^ 52) 0) with loc_Exact.
      replace (Z.pos m) with (Z.pos m * 2 ^ 0) by lia.
      change (-1074) with (-1074 - 0) at 1.
      by apply binary_round_aux_exact.
    + assert (Ee : fexp prec emax (53 + (e + 1) - (53 + -51)) `min` (e + 1 - -51) = e - 1).
      { unfold fexp, SpecFloat.emin, prec, emax. lia. }
      rewrite Ee. replace (e + 1 - -51 - (e - 1)) with 53 by lia.
      cbv beta iota zeta. rewrite Z.shiftl_mul_pow2 by lia.
      change (Z.pos 4503599627370496) with (2 ^ 52).
      replace (Z.pos m * 2 ^ 53) with (Z.pos m * 2 ^ 1 * 2 ^ 52) by (change (2 ^ 53) with (2 ^ 1 * 2 ^ 52); lia).
      rewrite div_eucl_exact by lia. cbv beta iota.
      change (new_location (2 ^ 52) 0) with loc_Exact.
      by apply binary_round_aux_exact.
  - destruct (Z.eqb_spec (Zdigits2 (Z.pos m)) 53) as [E|_]; [lia|]. subst e.
    cbn [SFdiv]. rewrite xorb_false_r. unfold SFdiv_core_binary.
    assert (Hd2 : Zdigits2 (Z.pos m~0) = Zdigits2 (Z.pos m) + 1).
    { change (Z.pos m~0) with (2 * Z.pos m). rewrite Z.mul_comm.
      change 2 with (2 ^ 1) at 1. apply Zdigits2_shift; lia. }
    rewrite Hd2. change (Zdigits2 (Z.pos 4503599627370496)) with 53.
    pose proof (Zdigits2_nonneg (Z.pos m)).
    assert (Ee : fexp prec emax (Zdigits2 (Z.pos m) + 1 + -1074 - (53 + -51)) `min` (-1074 - -51)
                 = -1074).
    { unfold fexp, SpecFloat.emin, prec, emax. lia. }
    rewrite Ee. change (-1074 - -51 - -1074) with 51.
    cbv beta iota zeta. rewrite Z.shiftl_mul_pow2 by lia.
    change (Z.pos 4503599627370496) with (2 ^ 52).
    replace (Z.pos m~0 * 2 ^ 51) with (Z.pos m * 2 ^ 52).
    2:{ change (Z.pos m~0) with (2 * Z.pos m). change (2 ^ 52) with (2 * 2 ^ 51). lia. }
    rewrite div_eucl_exact by lia. cbv beta iota.
    change (new_location (2 ^ 52) 0) with loc_Exact.
    replace (Z.pos m) with (Z.pos m * 2 ^ 0) by lia.
    change (-1074) with (-1074 - 0) at 1.
    by apply binary_round_aux_exact.
Qed.

(** Doubling and halving gives the double back, unless the doubling
    overflows. *)
Lemma mul_two_div_two (x : float) :
  (is_finite x = true -> is_finite (x * 2) = true) -> (x * 2 / 2)%float = x.
Proof.
  intros Hfin. apply Prim2SF_inj.
  rewrite FloatAxioms.div_spec.
  assert (Hf2 := is_finite_spec (x * 2)). assert (Hf1 := is_finite_spec x).
  rewrite FloatAxioms.mul_spec in Hf2 |- *.
  change (Prim2SF 2) with (S754_finite false 4503599627370496 (-51)).
  change (Prim2SF 2) with (S754_finite false 4503599627370496 (-51)) in Hf2.
  unfold SF64mul, SF64div in *.
  destruct (Prim2SF x) as [b|b| |s m e] eqn:E.
  - by destruct b.
  - by destruct b.
  - done.
  - pose proof (Prim2SF_bounded x s m e E) as Hb.
    rewrite SFmul_two in Hf2 |- * by done.
    pose proof (SFdiv_two s m e Hb) as Hdiv.
    destruct (Zdigits2 (Z.pos m) =? 53); [|exact Hdiv].
    destruct (e + 1 <=? emax - prec); [exact Hdiv|].
    exfalso. assert (Hx : is_finite x = true) by (apply Hf1; done).
    apply Hfin, Hf2 in Hx. exact Hx.
Qed.

(** Halving and doubling gives the double back when the half is still a
    normal number. *)
Lemma div_two_mul_two (x : float) :
  (0x1p-1021 <=? abs x)%float = true -> (x / 2 * 2)%float = x.
Proof.
  intros Hx. rewrite FloatAxioms.leb_spec, FloatAxioms.abs_spec in Hx.
  change (Prim2SF 0x1p-1021) with (S754_finite false 4503599627370496 (-1073)) in Hx.
  apply Prim2SF_inj.
  rewrite FloatAxioms.mul_spec, FloatAxioms.div_spec.
  change (Prim2SF 2) with (S754_finite false 4503599627370496 (-51)).
  unfold SF64mul, SF64div.
  destruct (Prim2SF x) as [b|b| |s m e] eqn:E; try discriminate.
  - by destruct b.
  - pose proof (Prim2SF_bounded x s m e E) as Hb.
    cbn [SFabs] in Hx. unfold SFleb, SFcompare in Hx.
    assert (He : -1073 <= e).
    { destruct (Z.compare_spec (-1073) e); [lia|lia|discriminate]. }
    pose proof Hb as Hb0. unfold SpecFloat.bounded in Hb0.
    apply andb_prop in Hb0 as [Hc Hle]. apply Z.leb_le in Hle.
    destruct (canonical_cases m e Hc) as [[Hd _]|[_ He']]; [|lia].
    assert (Hb1 : SpecFloat.bounded prec emax m (e - 1) = true).
    { unfold SpecFloat.bounded. apply andb_true_intro. split.
      - apply canonical_normal_exponent; [done|lia].
      - apply Z.leb_le. lia. }
    pose proof (SFdiv_two s m (e - 1) Hb1) as Hdiv.
    rewrite Hd in Hdiv. cbn [Z.eqb Pos.eqb] in Hdiv.
    replace (e - 1 + 1) with e in Hdiv by lia. rewrite Hdiv.
    rewrite SFmul_two by done. rewrite Hd. cbn [Z.eqb Pos.eqb].
    replace (e - 1 + 1) with e by lia.
    destruct (Z.leb_spec e (emax - prec)); [done|lia].
Qed.

(** *** Setting a unit to the value it has *)

Lemma unit_ratio_one u c : _unit_conversion !! u = Some c -> (c / c)%float = 1%float.
Proof.
  intros H. destruct (unit_conversion_values u c H) as [->|[->| ->]]; reflexivity.
Qed.

(** Setting the unit of a parameter to the unit it already has leaves the
    scanner exactly as it was: every entry is multiplied by one, which
    changes no double, not even a NaN, an infinity or a signed zero. *)
Theorem rescale_to_same_unit (param : Param) (u : string) (c : float) (w : World) :
  unit_attr param (self w) = u -> _unit_conversion !! u = Some c ->
  rescale_parameter param u w = (Ok tt, w).
Proof.
  intros Hu Hc.
  rewrite (rescale_parameter_run param u w c c) by (by rewrite ?Hu).
  f_equal. unfold rescaled. rewrite (unit_ratio_one u c Hc).
  assert (Hid : (fun x : float => (x * 1)%float) <$> param_attr param (self w)
                = param_attr param (self w)).
  { rewrite <- (list_fmap_id (param_attr param (self w))) at 2.
    apply list_fmap_ext. intros i x _. apply mul_one. }
  rewrite Hid. destruct w as [g h]. simpl in *. f_equal.
  destruct g, param; simpl in *; by subst.
Qed.

Lemma rescale_to_same_unit_witness :
  rescale_parameter Step "um" scanner2 = (Ok tt, scanner2).
Proof.
  apply (rescale_to_same_unit Step "um" 1e-6 scanner2); reflexivity.
Defined.

(** *** Doubling and halving the sizes and the steps *)

Lemma vary_axes_increase_size m w :
  vary_axes "increase_size" m w
  = (Ok tt, {| self := set_size ((fun x => x * m)%float <$> size (self w)) (self w);
               calls := calls w |}).
Proof. reflexivity. Qed.

Lemma vary_axes_decrease_size m w :
  vary_axes "decrease_size" m w
  = (Ok tt, {| self := set_size ((fun x => x / m)%float <$> size (self w)) (self w);
               calls := calls w |}).
Proof. reflexivity. Qed.

Lemma vary_axes_increase_step m w :
  vary_axes "increase_step" m w
  = (Ok tt, {| self := set_step ((fun x => x * m)%float <$> step (self w)) (self w);
               calls := calls w |}).
Proof. reflexivity. Qed.

Lemma vary_axes_decrease_step m w :
  vary_axes "decrease_step" m w
  = (Ok tt, {| self := set_step ((fun x => x / m)%float <$> step (self w)) (self w);
               calls := calls w |}).
Proof. reflexivity. Qed.

(** An array none of whose entries overflows when doubled. *)
Definition doubles (a : list float) : Prop :=
  Forall (fun x => is_finite x = true -> is_finite (x * 2) = true) a.

(** An array whose entries are all at least [2 ^ -1021] in magnitude, so
    that their halves are normal numbers. *)
Definition halves (a : list float) : Prop :=
  Forall (fun x => (0x1p-1021 <=? abs x)%float = true) a.

(** The buttons of the user interface: [increase_size] followed by
    [decrease_size], with the multiplier 2, leaves the scanner exactly as
    it was when no size overflows on doubling, and so do [increase_step]
    and [decrease_step] for the steps. *)
Theorem vary_axes_up_then_down (w : World) :
  (doubles (size (self w)) ->
   (vary_axes "increase_size" 2 ;;; vary_axes "decrease_size" 2) w = (Ok tt, w)) /\
  (doubles (step (self w)) ->
   (vary_axes "increase_step" 2 ;;; vary_axes "decrease_step" 2) w = (Ok tt, w)).
Proof.
  assert (Hid : forall a, doubles a -> (fun x => x / 2)%float <$> ((fun x => x * 2)%float <$> a) = a).
  { intros a Ha. rewrite <- list_fmap_compose. rewrite <- (list_fmap_id a) at 2.
    apply list_fmap_ext. intros i x Hx. simpl.
    apply mul_two_div_two. eapply Forall_lookup_1 in Ha; [exact Ha|exact Hx]. }
  split; intros Hd; unfold bind.
  - rewrite vary_axes_increase_size, vary_axes_decrease_size. simpl.
    rewrite (Hid _ Hd). destruct w as [g h], g. reflexivity.
  - rewrite vary_axes_increase_step, vary_axes_decrease_step. simpl.
    rewrite (Hid _ Hd). destruct w as [g h], g. reflexivity.
Qed.

(** [decrease_size] followed by [increase_size], with the multiplier 2,
    leaves the scanner exactly as it was when every size is at least
    [2 ^ -1021] in magnitude, and so do [decrease_step] and [increase_step]
    for the steps. *)
Theorem vary_axes_down_then_up (w : World) :
  (halves (size (self w)) ->
   (vary_axes "decrease_size" 2 ;;; vary_axes "increase_size" 2) w = (Ok tt, w)) /\
  (halves (step (self w)) ->
   (vary_axes "decrease_step" 2 ;;; vary_axes "increase_step" 2) w = (Ok tt, w)).
Proof.
  assert (Hid : forall a, halves a -> (fun x => x * 2)%float <$> ((fun x => x / 2)%float <$> a) = a).
  { intros a Ha. rewrite <- list_fmap_compose. rewrite <- (list_fmap_id a) at 2.
    apply list_fmap_ext. intros i x Hx. simpl.
    apply div_two_mul_two. eapply Forall_lookup_1 in Ha; [exact Ha|exact Hx]. }
  split; intros Hd; unfold bind.
  - rewrite vary_axes_decrease_size, vary_axes_increase_size. simpl.
    rewrite (Hid _ Hd). destruct w as [g h], g. reflexivity.
  - rewrite vary_axes_decrease_step, vary_axes_increase_step. simpl.
    rewrite (Hid _ Hd). destruct w as [g h], g. reflexivity.
Qed.

Lemma vary_axes_up_then_down_witness :
  (vary_axes "increase_size" 2 ;;; vary_axes "decrease_size" 2) scanner2 = (Ok tt, scanner2) /\
  (vary_axes "increase_step" 2 ;;; vary_axes "decrease_step" 2) scanner2 = (Ok tt, scanner2).
Proof.
  destruct (vary_axes_up_then_down scanner2) as [H1 H2].
  split; [apply H1|apply H2]; repeat constructor.
Defined.

Lemma vary_axes_down_then_up_witness :
  (vary_axes "decrease_size" 2 ;;; vary_axes "increase_size" 2) scanner2 = (Ok tt, scanner2) /\
  (vary_axes "decrease_step" 2 ;;; vary_axes "increase_step" 2) scanner2 = (Ok tt, scanner2).
Proof.
  destruct (vary_axes_down_then_up scanner2) as [H1 H2].
  split; [apply H1|apply H2]; repeat constructor.
Defined.

(** Dividing by one changes nothing, whatever the double. *)
Lemma SFdiv_one s m e :
  SpecFloat.bounded prec emax m e = true ->
  SFdiv prec emax (S754_finite s m e) (S754_finite false 4503599627370496 (-52))
  = S754_finite s m e.
Proof.
  intros Hb. pose proof Hb as Hb'.
  unfold SpecFloat.bounded in Hb. apply andb_prop in Hb as [Hc Hle].
  cbn [SFdiv]. rewrite xorb_false_r. unfold SFdiv_core_binary.
  change (Zdigits2 (Z.pos 4503599627370496)) with 53.
  pose proof (Zdigits2_nonneg (Z.pos m)).
  destruct (canonical_cases m e Hc) as [[Hd He]|[Hd He]].
  - rewrite Hd. destruct (Z.eq_dec e (-1074)) as [->|Hne].
    + change (fexp prec emax (53 + -1074 - (53 + -52)) `min` (-1074 - -52)) with (-1074).
      change (-1074 - -52 - -1074) with 52.
      cbv beta iota zeta. rewrite Z.shiftl_mul_pow2 by lia.
      change (Z.pos 4503599627370496) with (2 ^ 52).
      rewrite div_eucl_exact by lia. cbv beta iota.
      change (new_location (2 ^ 52) 0) with loc_Exact.
      replace (Z.pos m) with (Z.pos m * 2 ^ 0) by lia.
      change (-1074) with (-1074 - 0) at 1.
      by apply binary_round_aux_exact.
    + assert (Ee : fexp prec emax (53 + e - (53 + -52)) `min` (e - -52) = e - 1).
      { unfold fexp, SpecFloat.emin, prec, emax. lia. }
      rewrite Ee. replace (e - -52 - (e - 1)) with 53 by lia.
      cbv beta iota zeta. rewrite Z.shiftl_mul_pow2 by lia.
      change (Z.pos 4503599627370496) with (2 ^ 52).
      replace (Z.pos m * 2 ^ 53) with (Z.pos m * 2 ^ 1 * 2 ^ 52)
        by (change (2 ^ 53) with (2 ^ 1 * 2 ^ 52); lia).
      rewrite div_eucl_exact by lia. cbv beta iota.
      change (new_location (2 ^ 52) 0) with loc_Exact.
      by apply binary_round_aux_exact.
  - subst e.
    assert (Ee : fexp prec emax (Zdigits2 (Z.pos m) + -1074 - (53 + -52)) `min` (-1074 - -52)
                 = -1074).
    { unfold fexp, SpecFloat.emin, prec, emax. lia. }
    rewrite Ee. change (-1074 - -52 - -1074) with 52.
    cbv beta iota zeta. rewrite Z.shiftl_mul_pow2 by lia.
    change (Z.pos 4503599627370496) with (2 ^ 52).
    rewrite div_eucl_exact by lia. cbv beta iota.
    change (new_location (2 ^ 52) 0) with loc_Exact.
    replace (Z.pos m) with (Z.pos m * 2 ^ 0) by lia.
    change (-1074) with (-1074 - 0) at 1.
    by apply binary_round_aux_exact.
Qed.

Lemma div_one (x : float) : (x / 1)%float = x.
Proof.
  apply Prim2SF_inj. rewrite FloatAxioms.div_spec.
  change (Prim2SF 1) with (S754_finite false 4503599627370496 (-52)).
  unfold SF64div.
  destruct (Prim2SF x) as [b|b| |s m e] eqn:E.
  - by destruct b.
  - by destruct b.
  - done.
  - apply SFdiv_one. by apply (Prim2SF_bounded x s).
Qed.

(** *** Positions in stage units *)

(** With [stage_units] equal to one, as on a fresh scanner, [move] hands
    the stage the very position it is given and [get_position] returns the
    very reading of the stage: the division and the multiplication by one
    change no double. *)
Theorem positions_in_stage_units env (reading : string -> float) pos axis w :
  stage_units (self w) = 1%float ->
  (exists r w', move env pos axis w = (r, w') /\ calls w' = calls w ++ [CMove pos axis]) /\
  get_position reading axis w = (Ok (reading axis), w).
Proof.
  intros Hu. split.
  - unfold move, bind, get, call. rewrite Hu, div_one.
    destruct (env_raises env (calls w) (CMove pos axis)); eauto.
  - unfold get_position, bind, get, ret. by rewrite Hu, mul_one.
Qed.

Lemma positions_in_stage_units_witness :
  (exists r w', move quiet 2.5e-6 "x" scanner2 = (r, w') /\
                calls w' = calls scanner2 ++ [CMove 2.5e-6 "x"]) /\
  get_position (fun _ => 2.5e-6%float) "x" scanner2 = (Ok 2.5e-6%float, scanner2).
Proof.
  apply (positions_in_stage_units quiet (fun _ => 2.5e-6%float) 2.5e-6 "x" scanner2).
  reflexivity.
Defined.

(** *** What a scan leaves alone *)

Section Frame.

Variable env : Env.

(** A computation that leaves the projection [f] of the scanner as it
    finds it, whether it returns or raises. *)
Definition keeps {T A} (f : GridScanner -> T) (m : M A) : Prop :=
  forall w, f (self (m w).2) = f (self w).

Context {T : Type} (f : GridScanner -> T).

Lemma keeps_ret {A} (a : A) : keeps f (ret a).
Proof using Type. done. Qed.

Lemma keeps_raise {A} e : keeps f (@raise A e).
Proof using Type. done. Qed.

Lemma keeps_lift {A} (r : result A) : keeps f (lift r).
Proof using Type. done. Qed.

Lemma keeps_get {A} (p : GridScanner -> A) : keeps f (get p).
Proof using Type. done. Qed.

Lemma keeps_time : keeps f (time_time env).
Proof using Type. done. Qed.

Lemma keeps_modify (u : GridScanner -> GridScanner) :
  (forall g, f (u g) = f g) -> keeps f (modify u).
Proof using Type. intros H w. apply H. Qed.

Lemma keeps_call c :
  (forall b g, f (set_abort_requested b g) = f g) -> keeps f (call env c).
Proof using Type.
  intros H w. unfold call. destruct (env_raises env (calls w) c); apply H.
Qed.

Lemma keeps_bind {A B} (m : M A) (k : A -> M B) :
  keeps f m -> (forall a, keeps f (k a)) -> keeps f (bind m k).
Proof using Type.
  intros Hm Hk w. unfold bind. specialize (Hm w).
  destruct (m w) as [[a|e] w1]; simpl in *; [|done].
  rewrite <- Hm. apply Hk.
Qed.

Lemma keeps_for_in {A S} (l : list A) (body : A -> S -> M (control * S)) s :
  (forall x s, keeps f (body x s)) -> keeps f (for_in l body s).
Proof using Type.
  intros Hb. revert s. induction l as [|x l IH]; intros s; simpl.
  - apply keeps_ret.
  - apply keeps_bind; [apply Hb|]. intros [[|] s']; [apply IH|apply keeps_ret].
Qed.

End Frame.

Ltac keeps_step :=
  first
    [ apply keeps_bind; [|intros ?]
    | apply keeps_ret | apply keeps_raise | apply keeps_lift | apply keeps_get
    | apply keeps_time
    | apply keeps_modify; intros ?; reflexivity
    | apply keeps_call; intros ? ?; reflexivity
    | apply keeps_for_in; intros ? ?
    | match goal with
      | |- keeps _ (if ?b then _ else _) => destruct b
      | |- keeps _ (match ?x with _ => _ end) => destruct x
      end ].

(** *** The running count of measured points *)

Section Counting.

Variable env : Env.

(** A computation that, when it returns, has advanced [_index] by the
    number of measurements it made. *)
Definition counts {A} (m : M A) : Prop :=
  forall w,
    match m w with
    | (Ok _, w') => exists ext, calls w' = calls w ++ ext /\
                                _index (self w') = _index (self w) + len (measured ext)
    | (Raise _, _) => True
    end.

Lemma counts_ret {A} (a : A) : counts (ret a).
Proof using Type. intros w. exists []. split; [by rewrite app_nil_r|simpl; unfold len; simpl; lia]. Qed.

Lemma counts_raise {A} e : counts (@raise A e).
Proof using Type. done. Qed.

Lemma counts_lift {A} (r : result A) : counts (lift r).
Proof using Type.
  intros w. unfold lift. destruct r; [|done].
  exists []. split; [by rewrite app_nil_r|unfold len; simpl; lia].
Qed.

Lemma counts_get {A} (p : GridScanner -> A) : counts (get p).
Proof using Type. intros w. exists []. split; [by rewrite app_nil_r|unfold len; simpl; lia]. Qed.

Lemma counts_time : counts (time_time env).
Proof using Type. intros w. exists []. split; [by rewrite app_nil_r|unfold len; simpl; lia]. Qed.

Lemma counts_modify (u : GridScanner -> GridScanner) :
  (forall g, _index (u g) = _index g) -> counts (modify u).
Proof using Type.
  intros H w. exists []. split; [by rewrite app_nil_r|]. simpl. rewrite H. unfold len. simpl. lia.
Qed.

Lemma counts_call c : measured [c] = [] -> counts (call env c).
Proof using Type.
  intros Hc w. unfold call. destruct (env_raises env (calls w) c); [done|].
  exists [c]. split; [done|]. rewrite Hc. unfold len. simpl. lia.
Qed.

Lemma counts_bind {A B} (m : M A) (k : A -> M B) :
  counts m -> (forall a, counts (k a)) -> counts (bind m k).
Proof using Type.
  intros Hm Hk w. unfold bind. specialize (Hm w).
  destruct (m w) as [[a|e] w1]; [|done].
  destruct Hm as (ext1 & Hc1 & Hi1). specialize (Hk a w1).
  destruct (k a w1) as [[b|e] w2]; [|done].
  destruct Hk as (ext2 & Hc2 & Hi2).
  exists (ext1 ++ ext2). split; [by rewrite Hc2, Hc1, app_assoc|].
  rewrite Hi2, Hi1, measured_app. unfold len. rewrite length_app. lia.
Qed.

Lemma counts_for_in {A S} (l : list A) (body : A -> S -> M (control * S)) s :
  (forall x s, counts (body x s)) -> counts (for_in l body s).
Proof using Type.
  intros Hb. revert s. induction l as [|x l IH]; intros s; simpl.
  - apply counts_ret.
  - apply counts_bind; [apply Hb|]. intros [[|] s']; [apply IH|apply counts_ret].
Qed.

(** A grid point: one measurement, one more in [_index]. *)
Lemma counts_scan_point idx : counts (scan_point env idx).
Proof using Type.
  intros w. unfold scan_point, _timed_scan_function, scan_function, bind, modify, time_time,
    get, call, lift, raise. simpl.
  destruct (env_raises env (calls w) (CScanFunction idx)); [done|]. simpl.
  destruct (_step_times (self w)) as [a|]; [|done]. simpl.
  destruct (Np.setitem a idx _); [|done]. simpl.
  exists [CScanFunction idx]. split; [done|]. unfold len. simpl. lia.
Qed.

End Counting.

Ltac counts_step :=
  first
    [ apply counts_scan_point
    | apply counts_bind; [|intros ?]
    | apply counts_ret | apply counts_raise | apply counts_lift | apply counts_get
    | apply counts_time
    | apply counts_modify; intros ?; reflexivity
    | apply counts_call; reflexivity
    | apply counts_for_in; intros ? ?
    | match goal with
      | |- counts (if ?b then _ else _) => destruct b
      | |- counts (match ?x with _ => _ end) => destruct x
      end ].

Lemma counts_loop_k env axes sa k pnts : counts (loop_k env axes sa k pnts).
Proof.
  unfold loop_k, loop_j, loop_i, update_drift_compensation, move.
  repeat counts_step.
Qed.

Lemma scan_grid_index env axes size step init w w' :
  scan_grid env axes size step init w = (Ok tt, w') ->
  exists ext, calls w' = calls w ++ ext /\ _index (self w') = len (measured ext).
Proof.
  intros Hrun.
  enough (H : wp (scan_grid env axes size step init) w (fun r w' =>
            match r with
            | Ok _ => exists ext, calls w' = calls w ++ ext /\
                                  _index (self w') = len (measured ext)
            | Raise _ => True
            end)).
  { unfold wp in H. by rewrite Hrun in H. }
  clear Hrun w'. unfold scan_grid.
  apply wp_bind, wp_modify. apply wp_bind.
  eapply wp_mono; [apply init_grid_spec|]. intros [sa|e] w1; [|done]. intros (-> & _ & _).
  unfold open_scan. apply wp_bind. unfold wp at 1, call. simpl.
  destruct (env_raises env (calls w) COpenScan); [done|]. simpl.
  apply wp_bind, wp_modify. apply wp_bind, wp_modify.
  match goal with |- wp ?m ?wk _ => set (rest := m); set (w1 := wk) end.
  assert (Hc : counts rest).
  { unfold rest, print_scan_time, move_back, analyse_scan, close_scan, move.
    repeat first [apply counts_for_in; intros ? ?; apply counts_loop_k | counts_step]. }
  specialize (Hc w1). unfold wp. destruct (rest w1) as [[[]|e] w2]; [|done]. simpl in *.
  destruct Hc as (ext & Hc & Hi). exists (COpenScan :: ext). split.
  - rewrite Hc. by rewrite <- app_assoc.
  - rewrite Hi. done.
Qed.

(** Whenever [scan_grid] returns, be it after an abort, [_index] is the
    number of calls of [scan_function] the scan has made. *)
Theorem index_counts_measurements env axes size step init w w' :
  scan_grid env axes size step init w = (Ok tt, w') ->
  exists ext, calls w' = calls w ++ ext /\ _index (self w') = len (measured ext).
Proof. apply scan_grid_index. Qed.

(** *** A plane scan visits every point once *)

Lemma elem_of_snake_row n k idx :
  idx ∈ snake_row n k <-> exists j, idx = [j; k] /\ 0 <= j < n.
Proof.
  unfold snake_row, Py.range. rewrite list_elem_of_fmap. split.
  - intros (j & -> & Hj). exists j. split; [done|].
    destruct (Z.even k); rewrite ?elem_of_reverse in Hj; apply elem_of_seqZ in Hj; lia.
  - intros (j & -> & Hj). exists j. split; [done|].
    destruct (Z.even k); rewrite ?elem_of_reverse; apply elem_of_seqZ; lia.
Qed.

Lemma elem_of_concat {A} (x : A) (ls : list (list A)) :
  x ∈ concat ls <-> exists l, l ∈ ls /\ x ∈ l.
Proof.
  induction ls as [|l ls IH]; simpl.
  - split; [by intros H%elem_of_nil|]. intros (l & H%elem_of_nil & _). done.
  - rewrite elem_of_app, IH. split.
    + intros [H|(l' & H1 & H2)]; [exists l; split; [left|done]|exists l'; split; [by right|done]].
    + intros (l' & H1 & H2). apply elem_of_cons in H1 as [->|H1]; [by left|right; eauto].
Qed.

Lemma elem_of_snake n m idx :
  idx ∈ snake n m <-> exists j k, idx = [j; k] /\ 0 <= j < n /\ 0 <= k < m.
Proof.
  unfold snake, Py.range. rewrite elem_of_concat. split.
  - intros (l & Hl & Hx). apply list_elem_of_fmap in Hl as (k & -> & Hk).
    apply elem_of_seqZ in Hk. apply elem_of_snake_row in Hx as (j & -> & Hj).
    exists j, k. repeat split; lia.
  - intros (j & k & -> & Hj & Hk). exists (snake_row n k). split.
    + apply list_elem_of_fmap. exists k. split; [done|]. apply elem_of_seqZ. lia.
    + apply elem_of_snake_row. eauto.
Qed.

Lemma NoDup_snake_row n k : NoDup (snake_row n k).
Proof.
  unfold snake_row, Py.range. apply NoDup_fmap_2.
  - intros j1 j2 [= ->]. done.
  - destruct (Z.even k); [rewrite reverse_Permutation|]; apply NoDup_seqZ.
Qed.

Lemma NoDup_snake_rows n (ks : list Z) : NoDup ks -> NoDup (concat (snake_row n <$> ks)).
Proof.
  induction 1 as [|k ks Hk Hks IH]; simpl; [constructor|].
  apply NoDup_app. split; [apply NoDup_snake_row|]. split; [|done].
  intros idx H1 H2. apply elem_of_snake_row in H1 as (j & -> & _).
  apply elem_of_concat in H2 as (l & Hl & Hx).
  apply list_elem_of_fmap in Hl as (k' & -> & Hk').
  apply elem_of_snake_row in Hx as (j' & [= <- <-] & _). done.
Qed.

Lemma NoDup_snake n m : NoDup (snake n m).
Proof. apply NoDup_snake_rows, NoDup_seqZ. Qed.

Lemma length_snake_rows n (ks : list Z) :
  0 <= n -> len (concat (snake_row n <$> ks)) = n * len ks.
Proof.
  intros Hn. unfold len. induction ks as [|k ks IH]; [simpl; lia|].
  rewrite fmap_cons. cbn [concat]. rewrite length_app, Nat2Z.inj_add, IH, length_cons, Nat2Z.inj_succ.
  unfold snake_row, Py.range. rewrite length_fmap.
  assert (length (if Z.even k then reverse (seqZ 0 n) else seqZ 0 n) = Z.to_nat n) as ->.
  { destruct (Z.even k); rewrite ?length_reverse, length_seqZ; lia. }
  lia.
Qed.

Lemma length_snake n m : 0 <= n -> 0 <= m -> len (snake n m) = n * m.
Proof.
  intros Hn Hm. unfold snake. rewrite length_snake_rows by done.
  unfold Py.range, len. rewrite length_seqZ. lia.
Qed.

(** The statements of [scan_grid] that follow the construction of the
    grid [sa]. *)
Definition scan_tail (env : Env) (axes : list string) (init : list float)
    (scan_axes : list (list float)) : M unit :=
  open_scan env ;;;
  let pnts := (fun axis : list float => Py.range (len axis)) <$> scan_axes in
  modify (set_indices (Py.repeat (-1) (len axes))) ;;;
  modify (set__index 0) ;;;
  let* shape := get grid_shape in
  let* a := lift (Np.full shape nan) in
  modify (set__step_times (Some a)) ;;;
  modify (set_status "acquiring data") ;;;
  modify (set_acquiring true) ;;;
  let* scan_start_time := time_time env in
  let* outer := lift (Py.getitem pnts (-1)) in
  let* _ := for_in outer (loop_k env axes scan_axes) pnts in
  let* t := time_time env in
  print_scan_time env (t - scan_start_time) ;;;
  modify (set_acquiring false) ;;;
  move_back env axes init ;;;
  analyse_scan env ;;;
  close_scan env ;;;
  modify (set_status "scan complete").

Lemma scan_grid_tail env axes size step init w sa :
  (init_grid axes size step init w).1 = Ok sa ->
  scan_grid env axes size step init w
  = scan_tail env axes init sa
      (with_grid sa {| self := set_abort_requested false (self w); calls := calls w |}).
Proof.
  intros Hg.
  set (w0 := {| self := set_abort_requested false (self w); calls := calls w |}).
  assert (Hg0 : init_grid axes size step init w0 = (Ok sa, with_grid sa w0)).
  { apply (init_grid_same_units _ _ _ _ w); [done|done]. }
  unfold scan_grid. unfold bind at 1. unfold modify at 1. fold w0.
  unfold bind at 1. rewrite Hg0. reflexivity.
Qed.

Lemma keeps_grid_scan_tail env axes init sa :
  keeps (fun g => (grid_shape g, total_points g, scan_axes g)) (scan_tail env axes init sa).
Proof.
  unfold scan_tail, open_scan, print_scan_time, move_back, analyse_scan,
    close_scan, loop_k, loop_j, loop_i, scan_point, _timed_scan_function, scan_function,
    update_drift_compensation, move.
  repeat keeps_step.
Qed.

(** A two-axis scan in which no call raises and nobody asks for an abort
    returns after it has measured every point of the grid exactly once:
    no index pair is measured twice, the pairs measured are those within
    the grid, and [_index] ends equal to [total_points], the number of
    points of the grid. *)
Theorem plane_scan_covers_grid env w x y size step init inner outer :
  (forall h c, env_raises env h c = None) ->
  (forall h c, env_abort env h c = false) ->
  (init_grid [x; y] size step init w).1 = Ok [inner; outer] ->
  exists w' ext,
    scan_grid env [x; y] size step init w = (Ok tt, w') /\
    calls w' = calls w ++ ext /\
    NoDup (measured ext) /\
    (forall idx, idx ∈ measured ext <->
                 exists j k, idx = [j; k] /\ 0 <= j < len inner /\ 0 <= k < len outer) /\
    grid_shape (self w') = [len inner; len outer] /\
    total_points (self w') = len inner * len outer /\
    _index (self w') = total_points (self w').
Proof.
  intros Hr Ha Hg.
  destruct (scan_grid_plane env Hr Ha (calls w) x y inner outer size step init w eq_refl Hg)
    as (w' & ext & Hrun & Hc & Hm).
  exists w', ext. split; [done|]. split; [done|].
  split; [rewrite Hm; apply NoDup_snake|].
  split; [intros idx; rewrite Hm; apply elem_of_snake|].
  pose proof (keeps_grid_scan_tail env [x; y] init [inner; outer]
                (with_grid [inner; outer]
                   {| self := set_abort_requested false (self w); calls := calls w |})) as Hk.
  rewrite <- (scan_grid_tail env [x; y] size step init w _ Hg), Hrun in Hk.
  simpl in Hk. injection Hk as Hshape Htotal _.
  assert (Ht : total_points (self w') = len inner * len outer).
  { rewrite Htotal. unfold Py.prod. simpl. lia. }
  split; [done|]. split; [done|].
  destruct (scan_grid_index env [x; y] size step init w w' Hrun) as (ext' & Hc' & Hi).
  rewrite Hc in Hc'. apply app_inv_head in Hc'. subst ext'.
  rewrite Hi, Hm, Ht. apply length_snake; unfold len; lia.
Qed.

Lemma plane_scan_covers_grid_witness :
  exists w' ext,
    scan_grid quiet xy ones [0.5%float; 1%float] zeros scanner2 = (Ok tt, w') /\
    calls w' = calls scanner2 ++ ext /\
    NoDup (measured ext) /\
    (forall idx, idx ∈ measured ext <->
                 exists j k, idx = [j; k] /\ 0 <= j < 3 /\ 0 <= k < 2) /\
    grid_shape (self w') = [3; 2] /\
    total_points (self w') = 6 /\
    _index (self w') = 6.
Proof.
  assert (Hr : forall h c, env_raises quiet h c = None) by reflexivity.
  assert (Ha : forall h c, env_abort quiet h c = false) by reflexivity.
  assert (Hg : (init_grid xy ones [0.5%float; 1%float] zeros scanner2).1
               = Ok [grid_of scanner2 xy ones [0.5%float; 1%float] zeros 0;
                     grid_of scanner2 xy ones [0.5%float; 1%float] zeros 1]).
  { vm_compute. reflexivity. }
  destruct (plane_scan_covers_grid quiet scanner2 "x" "y" _ _ _ _ _ Hr Ha Hg)
    as (w' & ext & Hrun & Hc & Hnd & Hel & Hs & Ht & Hi).
  exists w', ext. split; [exact Hrun|]. split; [exact Hc|]. split; [exact Hnd|].
  split; [exact Hel|]. split; [exact Hs|]. split; [exact Ht|]. rewrite Hi. exact Ht.
Defined.

Lemma index_counts_measurements_witness :
  exists ext,
    calls (scan_grid (abort_during 5) xy ones [0.5%float; 1%float] zeros scanner2).2
    = calls scanner2 ++ ext /\
    _index (self (scan_grid (abort_during 5) xy ones [0.5%float; 1%float] zeros scanner2).2)
    = len (measured ext).
Proof.
  apply (index_counts_measurements (abort_during 5) xy ones [0.5%float; 1%float] zeros scanner2).
  vm_compute. reflexivity.
Defined.

(** *** Scans with fewer than two axes *)

(** A scan with no axis at all opens the scan and then raises
    [IndexError] on [pnts[-1]]: nothing is moved or measured, the status
    stays "acquiring data" and the [acquiring] event stays set. *)
Theorem scan_without_axes env size step init w :
  env_raises env (calls w) COpenScan = None ->
  exists w',
    scan_grid env [] size step init w = (Raise IndexError, w') /\
    calls w' = calls w ++ [COpenScan] /\
    status (self w') = "acquiring data" /\
    acquiring (self w') = true /\
    grid_shape (self w') = [] /\ total_points (self w') = 1.
Proof.
  intros Hr. eexists. split.
  { unfold scan_grid, init_grid, open_scan, call, bind, modify, get, lift, ret, time_time.
    simpl. rewrite Hr. simpl. reflexivity. }
  done.
Qed.

Lemma scan_without_axes_witness :
  exists w',
    scan_grid quiet [] [] [] [] scanner2 = (Raise IndexError, w') /\
    calls w' = calls scanner2 ++ [COpenScan] /\
    status (self w') = "acquiring data" /\
    acquiring (self w') = true /\
    grid_shape (self w') = [] /\ total_points (self w') = 1.
Proof.
  apply (scan_without_axes quiet [] [] [] scanner2). reflexivity.
Defined.

(** A scan with a single axis that has at least one point opens the scan,
    updates the drift compensation, moves to the first point of the axis
    and then raises [IndexError] on [pnts[-2]] (when those three calls
    return and nobody asks for an abort while the scan is opened): nothing
    is measured, the stage stays where it is, and the status stays
    "Scanning layer 1/n". *)
Theorem scan_along_one_axis env x size step init w a1 p rest :
  (init_grid [x] size step init w).1 = Ok [a1] ->
  a1 = p :: rest ->
  env_raises env (calls w) COpenScan = None ->
  env_abort env (calls w) COpenScan = false ->
  env_raises env (calls w ++ [COpenScan]) CDriftCompensation = None ->
  env_raises env (calls w ++ [COpenScan; CDriftCompensation])
    (CMove (p / stage_units (self w)) x) = None ->
  exists w',
    scan_grid env [x] size step init w = (Raise IndexError, w') /\
    calls w' = calls w ++ [COpenScan; CDriftCompensation; CMove (p / stage_units (self w)) x] /\
    measured (calls w') = measured (calls w) /\
    _index (self w') = 0 /\
    status (self w') = "Scanning layer 1/" +:+ pretty (len a1) /\
    acquiring (self w') = true.
Proof.
  intros Hg -> Hr1 Ha1 Hr2 Hr3.
  set (w0 := {| self := set_abort_requested false (self w); calls := calls w |}).
  assert (Hg0 : init_grid [x] size step init w0
                = (Ok [p :: rest], with_grid [p :: rest] w0)).
  { apply (init_grid_same_units _ _ _ _ w); [done|done]. }
  assert (Hrange : Py.range (len (p :: rest)) = 0 :: seqZ 1 (len rest)).
  { unfold Py.range, len. rewrite seqZ_cons by (simpl; lia). f_equal. f_equal. simpl. lia. }
  enough (H : wp (scan_grid env [x] size step init) w (fun r w' =>
            r = Raise IndexError /\
            calls w' = calls w ++ [COpenScan; CDriftCompensation;
                                   CMove (p / stage_units (self w)) x] /\
            _index (self w') = 0 /\
            status (self w') = "Scanning layer 1/" +:+ pretty (len (p :: rest)) /\
            acquiring (self w') = true)).
  { unfold wp in H. destruct (scan_grid env [x] size step init w) as [r w'].
    simpl in H. destruct H as (-> & Hc & Hi & Hs & Hq).
    exists w'. split; [done|]. split; [done|]. split; [|done].
    rewrite Hc, measured_app. simpl. apply app_nil_r. }
  unfold scan_grid.
  apply wp_bind, wp_modify. fold w0.
  apply wp_bind. unfold wp at 1. rewrite Hg0. simpl.
  unfold open_scan. apply wp_bind, wp_call. simpl. rewrite Hr1.
  apply wp_bind, wp_modify. apply wp_bind, wp_modify. apply wp_bind, wp_get.
  apply wp_bind, wp_lift. rewrite full_ok by (simpl; lia).
  apply wp_bind, wp_modify. apply wp_bind, wp_modify. apply wp_bind, wp_modify.
  apply wp_bind, wp_time. apply wp_bind, wp_lift.
  change (Py.getitem [Py.range (len (p :: rest))] (-1))
    with (Ok (Py.range (len (p :: rest))) : result (list Z)).
  cbv beta iota. rewrite Hrange at 1. cbn [for_in].
  apply wp_bind, wp_bind. unfold loop_k.
  apply wp_bind, wp_get. simpl. rewrite Ha1.
  unfold update_drift_compensation. apply wp_bind, wp_call. simpl. rewrite Hr2.
  apply wp_bind, wp_lift.
  change (Py.getitem [Py.range (len (p :: rest))] (-1))
    with (Ok (Py.range (len (p :: rest))) : result (list Z)).
  cbv beta iota.
  apply wp_bind, wp_modify.
  apply wp_bind, wp_lift.
  change (Py.getitem [p :: rest] (-1)) with (Ok (p :: rest) : result (list float)).
  cbv beta iota.
  apply wp_bind, wp_lift.
  assert (E0 : Py.getitem (p :: rest) 0 = Ok p).
  { apply (getitem_lookup (p :: rest) 0%nat). done. }
  rewrite E0.
  apply wp_bind, wp_lift. change (Py.getitem [x] (-1)) with (Ok x : result string).
  cbv beta iota.
  unfold move. apply wp_bind, wp_bind, wp_get. apply wp_call. simpl.
  rewrite <- app_assoc. simpl. rewrite Hr3.
  apply wp_bind, wp_lift.
  change (Py.getitem [Py.range (len (p :: rest))] (-2)) with (@Raise (list Z) IndexError).
  cbv beta iota. unfold wp. simpl.
  rewrite <- ?app_assoc. simpl.
  assert (len (Py.range (len (p :: rest))) = len (p :: rest)) as ->.
  { unfold Py.range, len. rewrite length_seqZ. lia. }
  repeat split.
Qed.

Lemma scan_along_one_axis_witness :
  exists w',
    scan_grid quiet ["x"] [1%float] [0.5%float] [0%float] scanner2 = (Raise IndexError, w') /\
    calls w' = calls scanner2
               ++ [COpenScan; CDriftCompensation;
                   CMove (-4.9999999999999998e-07 / stage_units (self scanner2))%float "x"] /\
    measured (calls w') = measured (calls scanner2) /\
    _index (self w') = 0 /\
    status (self w')
    = "Scanning layer 1/" +:+ pretty (len [(-4.9999999999999998e-07)%float; 0%float;
                                           4.9999999999999998e-07%float]) /\
    acquiring (self w') = true.
Proof.
  apply (scan_along_one_axis quiet "x" [1%float] [0.5%float] [0%float] scanner2
           [(-4.9999999999999998e-07)%float; 0%float; 4.9999999999999998e-07%float]
           (-4.9999999999999998e-07)%float [0%float; 4.9999999999999998e-07%float]);
    reflexivity.
Defined.

(** *** Volume scans that run to the end *)

(** The indices of an axis of [n] points as the scan walks them on its
    [t]-th pass over that axis, counting from zero: downwards on the even
    passes, upwards on the odd ones. *)
Definition sweep (n t : Z) : list Z :=
  if Z.even t then reverse (Py.range n) else Py.range n.

(** The row of a volume scan at [(j, k)], when it is the [t]-th row. *)
Definition volume_row (n3 t j k : Z) : list (list Z) := (fun i => [i; j; k]) <$> sweep n3 t.

(** The rows at the middle indices [js] of layer [k], the first of them
    being the [t]-th row of the scan. *)
Fixpoint volume_rows (n3 t : Z) (js : list Z) (k : Z) : list (list Z) :=
  match js with
  | [] => []
  | j :: js' => volume_row n3 t j k ++ volume_rows n3 (t + 1) js' k
  end.

(** Layer [k] of a volume scan, and the whole scan. *)
Definition volume_layer (n3 n2 k : Z) : list (list Z) :=
  volume_rows n3 (k * n2) (sweep n2 k) k.

Definition volume (n3 n2 n1 : Z) : list (list Z) :=
  concat (volume_layer n3 n2 <$> Py.range n1).

(** The list [pnts] holds for an axis after [t] reversals. *)
Definition toggled (n t : Z) : list Z :=
  if Z.even t then Py.range n else reverse (Py.range n).

Lemma reverse_toggled n t : reverse (toggled n t) = sweep n t.
Proof. unfold toggled, sweep. destruct (Z.even t); [done|apply reverse_involutive]. Qed.

Lemma sweep_toggled n t : sweep n t = toggled n (t + 1).
Proof.
  unfold toggled, sweep. rewrite Z.even_add. simpl. by destruct (Z.even t).
Qed.

Lemma elem_of_sweep n t i : i ∈ sweep n t <-> 0 <= i < n.
Proof.
  unfold sweep, Py.range. destruct (Z.even t); rewrite ?elem_of_reverse, elem_of_seqZ; lia.
Qed.

Lemma NoDup_sweep n t : NoDup (sweep n t).
Proof.
  unfold sweep, Py.range. destruct (Z.even t); [rewrite reverse_Permutation|]; apply NoDup_seqZ.
Qed.

Lemma length_sweep n t : 0 <= n -> len (sweep n t) = n.
Proof.
  intros Hn. unfold sweep, Py.range, len.
  destruct (Z.even t); rewrite ?length_reverse, length_seqZ; lia.
Qed.

Lemma volume_rows_snoc n3 t js j k :
  volume_rows n3 t (js ++ [j]) k = volume_rows n3 t js k ++ volume_row n3 (t + len js) j k.
Proof.
  revert t. induction js as [|j' js IH]; intros t.
  - simpl. unfold len. simpl. by rewrite Z.add_0_r, app_nil_r.
  - cbn [app volume_rows]. rewrite IH, <- app_assoc. do 3 f_equal.
    unfold len. simpl length. lia.
Qed.

Section Volume.

Variable env : Env.
Hypothesis no_raise : forall h c, env_raises env h c = None.
Hypothesis no_abort : forall h c, env_abort env h c = false.

Variable h0 : list Call.
Variables x3 x2 x1 : string.
Variables a3 a2 a1 : list float.

Definition inv3 (m : list (list Z)) (w : World) : Prop :=
  abort_requested (self w) = false /\
  (exists a, _step_times (self w) = Some a /\ Np.shape a = [len a3; len a2; len a1]) /\
  exists ext, calls w = h0 ++ ext /\ measured ext = m.

Lemma inv3_call m c w : measured [c] = [] -> inv3 m w -> inv3 m (after_call env c w).
Proof using no_abort.
  intros Hc (Hab & Ht & ext & Hcs & Hm). split; [|split; [done|]].
  - simpl. by rewrite Hab, no_abort.
  - exists (ext ++ [c]). simpl. rewrite Hcs, <- app_assoc. split; [done|].
    by rewrite measured_app, Hc, app_nil_r.
Qed.

Lemma wp_move3 m pos a w :
  inv3 m w -> wp (move env pos a) w (fun r w' => r = Ok tt /\ inv3 m w').
Proof using no_raise no_abort.
  intros Hi. unfold move. apply wp_bind, wp_get. apply wp_call_ok; [done|].
  split; [done|]. by apply inv3_call.
Qed.

Lemma wp_scan_point3 m i j k w :
  inv3 m w -> 0 <= i < len a3 -> 0 <= j < len a2 -> 0 <= k < len a1 ->
  wp (scan_point env [i; j; k]) w (fun r w' => r = Ok tt /\ inv3 (m ++ [[i; j; k]]) w').
Proof using no_raise no_abort.
  intros (Hab & (a & Ha & Hsh) & ext & Hc & Hm) Hi Hj Hk.
  unfold scan_point, _timed_scan_function, scan_function.
  apply wp_bind, wp_modify.
  apply wp_bind. apply wp_bind, wp_time. apply wp_bind, wp_call_ok; [done|].
  apply wp_bind, wp_time. apply wp_bind, wp_get. simpl. rewrite Ha.
  apply wp_bind, wp_lift. unfold Np.setitem.
  destruct (ravel_valid (Np.shape a) [i; j; k] 0) as [off ->].
  { rewrite Hsh. by repeat (constructor; [lia|]). }
  apply wp_modify. apply wp_modify. split; [done|].
  split; [|split; [by eexists|]].
  - simpl. by rewrite Hab, no_abort.
  - exists (ext ++ [CScanFunction [i; j; k]]). simpl. rewrite Hc, <- app_assoc. split; [done|].
    by rewrite measured_app, Hm.
Qed.

Lemma wp_volume_row m (inner : list Z) j k pnts w :
  inv3 m w -> 0 <= j < len a2 -> 0 <= k < len a1 -> in_axis inner a3 ->
  wp (for_in inner (loop_i env [x3; x2; x1] [a3; a2; a1] j k) pnts) w (fun r w' =>
    r = Ok pnts /\ inv3 (m ++ ((fun i => [i; j; k]) <$> inner)) w').
Proof using no_raise no_abort.
  intros Hi Hj Hk Hin.
  apply (wp_for_in _ (fun visited s w' =>
           s = pnts /\ inv3 (m ++ ((fun i => [i; j; k]) <$> visited)) w')).
  - split; [done|]. by rewrite app_nil_r.
  - intros visited i rest s w1 El [-> Hi1]. unfold loop_i.
    pose proof (Hin i (elem_of_middle _ _ _ _ El)) as Hi'.
    apply wp_bind, wp_get. destruct Hi1 as (Hab & Hi1). rewrite Hab.
    assert (Hi1' : inv3 (m ++ ((fun i => [i; j; k]) <$> visited)) w1) by (by split).
    apply wp_bind, wp_lift.
    change (Py.getitem [a3; a2; a1] (-3)) with (Ok a3 : result (list float)).
    destruct (getitem_valid a3 i Hi') as (pos & -> & _).
    apply wp_bind, wp_lift. simpl.
    apply wp_bind, wp_lift.
    change (Py.getitem [x3; x2; x1] (-3)) with (Ok x3 : result string).
    wp_use (wp_move3 _ pos x3 w1 Hi1'). intros r w2 (-> & Hi2).
    wp_use (wp_scan_point3 _ i j k w2 Hi2 Hi' Hj Hk). intros r w3 (-> & Hi3).
    apply wp_ret. split; [done|]. by rewrite fmap_app, app_assoc.
  - intros s w1 [-> Hi1]. done.
Qed.

Lemma wp_volume_layer m (t : Z) (js : list Z) k p2 p1 w :
  inv3 m w -> 0 <= k < len a1 -> in_axis js a2 ->
  wp (for_in js (loop_j env [x3; x2; x1] [a3; a2; a1] k) [toggled (len a3) t; p2; p1]) w
    (fun r w' =>
       r = Ok [toggled (len a3) (t + len js); p2; p1] /\
       inv3 (m ++ volume_rows (len a3) t js k) w').
Proof using no_raise no_abort.
  intros Hi Hk Hin.
  apply (wp_for_in _ (fun visited s w' =>
           s = [toggled (len a3) (t + len visited); p2; p1] /\
           inv3 (m ++ volume_rows (len a3) t visited k) w')).
  - split; [unfold len; simpl; by rewrite Z.add_0_r|]. simpl. by rewrite app_nil_r.
  - intros visited j rest s w1 El [-> Hi1]. unfold loop_j.
    pose proof (Hin j (elem_of_middle _ _ _ _ El)) as Hj.
    apply wp_bind, wp_get. destruct Hi1 as (Hab & Hi1). rewrite Hab.
    assert (Hi1' : inv3 (m ++ volume_rows (len a3) t visited k) w1) by (by split).
    apply wp_bind, wp_lift.
    change (Py.getitem [a3; a2; a1] (-2)) with (Ok a2 : result (list float)).
    destruct (getitem_valid a2 j Hj) as (pos & -> & _).
    apply wp_bind, wp_lift. simpl.
    apply wp_bind, wp_lift.
    change (Py.getitem [x3; x2; x1] (-2)) with (Ok x2 : result string).
    wp_use (wp_move3 _ pos x2 w1 Hi1'). intros r w2 (-> & Hi2).
    change (len [x3; x2; x1] =? 3) with true. cbv beta iota.
    apply wp_bind, wp_lift. rewrite getitem_first_of_three.
    apply wp_bind, wp_lift. rewrite setitem_first_of_three.
    apply wp_bind, wp_lift. rewrite getitem_first_of_three.
    rewrite reverse_toggled.
    wp_use (wp_volume_row _ (sweep (len a3) (t + len visited)) j k
              [sweep (len a3) (t + len visited); p2; p1] w2 Hi2 Hj Hk).
    { intros i Hi'. apply elem_of_sweep in Hi'. lia. }
    intros r w3 (-> & Hi3). apply wp_ret. split.
    + rewrite sweep_toggled. do 2 f_equal. unfold len. rewrite length_app. simpl. lia.
    + rewrite volume_rows_snoc, app_assoc. exact Hi3.
  - intros s w1 [-> Hi1]. done.
Qed.

Lemma wp_volume m0 (n : Z) w :
  inv3 m0 w -> n = len a1 ->
  wp (for_in (Py.range n) (loop_k env [x3; x2; x1] [a3; a2; a1])
        [Py.range (len a3); Py.range (len a2); Py.range (len a1)]) w (fun r w' =>
    exists pnts, r = Ok pnts /\ inv3 (m0 ++ volume (len a3) (len a2) n) w').
Proof using no_raise no_abort.
  intros Hi Hn.
  apply (wp_for_in _ (fun visited s w' =>
           s = [toggled (len a3) (len visited * len a2); toggled (len a2) (len visited);
                Py.range (len a1)] /\
           inv3 (m0 ++ concat (volume_layer (len a3) (len a2) <$> visited)) w')).
  - split; [done|]. by rewrite app_nil_r.
  - intros visited k rest s w1 El [-> Hi1]. unfold loop_k.
    apply range_split in El as [-> Hk].
    apply wp_bind, wp_get. destruct Hi1 as (Hab & Hi1). rewrite Hab.
    assert (Hi1' : inv3 (m0 ++ concat (volume_layer (len a3) (len a2) <$> visited)) w1)
      by (by split).
    unfold update_drift_compensation. apply wp_bind, wp_call_ok; [done|].
    pose proof (inv3_call _ CDriftCompensation w1 eq_refl Hi1') as Hi2.
    apply wp_bind, wp_lift.
    match goal with |- context [Py.getitem [?p; ?q; ?r] (-1)] =>
      change (Py.getitem [p; q; r] (-1)) with (Ok r : result (list Z)) end.
    apply wp_bind, wp_modify.
    apply wp_bind, wp_lift.
    change (Py.getitem [a3; a2; a1] (-1)) with (Ok a1 : result (list float)).
    destruct (getitem_valid a1 (len visited)) as (pos & -> & _); [lia|].
    apply wp_bind, wp_lift. simpl.
    apply wp_bind, wp_lift.
    change (Py.getitem [x3; x2; x1] (-1)) with (Ok x1 : result string).
    wp_use (wp_move3 _ pos x1); [exact Hi2|]. intros r w3 (-> & Hi3).
    apply wp_bind, wp_lift.
    match goal with |- context [Py.getitem [?p; ?q; ?r] (-2)] =>
      change (Py.getitem [p; q; r] (-2)) with (Ok q : result (list Z)) end.
    apply wp_bind, wp_lift.
    match goal with |- context [Py.setitem [?p; ?q; ?r] (-2) ?v] =>
      change (Py.setitem [p; q; r] (-2) v) with (Ok [p; v; r] : result (list (list Z))) end.
    apply wp_bind, wp_lift.
    match goal with |- context [Py.getitem [?p; ?q; ?r] (-2)] =>
      change (Py.getitem [p; q; r] (-2)) with (Ok q : result (list Z)) end.
    rewrite reverse_toggled.
    wp_use (wp_volume_layer _ (len visited * len a2) (sweep (len a2) (len visited))
              (len visited) (sweep (len a2) (len visited)) (Py.range (len a1)) w3 Hi3);
      [lia| |].
    { intros j Hj. apply elem_of_sweep in Hj. lia. }
    intros r w4 (-> & Hi4). apply wp_ret.
    assert (Ev : len (visited ++ [len visited]) = len visited + 1).
    { unfold len. rewrite length_app. simpl. lia. }
    split.
    + rewrite Ev, length_sweep by (unfold len; lia). rewrite sweep_toggled.
      do 2 f_equal. lia.
    + rewrite fmap_app, concat_app. simpl. rewrite app_nil_r, app_assoc. exact Hi4.
  - intros s w1 [-> Hi1]. eexists. split; [done|]. done.
Qed.

Lemma wp_move_back3 m init w :
  (forall d, (d < 3)%nat -> is_Some (init !! d)) -> inv3 m w ->
  wp (move_back env [x3; x2; x1] init) w (fun r w' => r = Ok tt /\ inv3 m w').
Proof using no_raise no_abort.
  intros Hinit Hi. unfold move_back.
  apply (wp_for_in _ (fun _ _ w' => inv3 m w')); [done| |by intros [] ?].
  intros visited i rest [] w1 El Hi1.
  apply range_split in El as [-> Hx]. unfold len in Hx. simpl in Hx.
  destruct (Hinit (length visited)) as [xi Hxi]; [lia|].
  destruct (lookup_lt_is_Some_2 [x3; x2; x1] (length visited)) as [ai Hai]; [simpl; lia|].
  apply wp_bind, wp_lift. unfold len. rewrite (getitem_lookup _ _ _ Hxi).
  apply wp_bind, wp_lift. rewrite (getitem_lookup _ _ _ Hai).
  wp_use (wp_move3 m xi ai w1 Hi1). intros r w2 (-> & Hi2).
  by apply wp_ret.
Qed.

Lemma scan_grid_volume size step init w :
  h0 = calls w ->
  (init_grid [x3; x2; x1] size step init w).1 = Ok [a3; a2; a1] ->
  exists w' ext,
    scan_grid env [x3; x2; x1] size step init w = (Ok tt, w') /\
    calls w' = h0 ++ ext /\
    measured ext = volume (len a3) (len a2) (len a1).
Proof using no_raise no_abort.
  intros Hh Hgrid.
  set (w0 := {| self := set_abort_requested false (self w); calls := calls w |}).
  assert (Hg0 : init_grid [x3; x2; x1] size step init w0
                = (Ok [a3; a2; a1], with_grid [a3; a2; a1] w0)).
  { apply (init_grid_same_units _ _ _ _ w); [done|done]. }
  pose proof (init_grid_run [x3; x2; x1] size step init w0) as Hrun. rewrite Hg0 in Hrun.
  destruct Hrun as (_ & _ & Hbuilt).
  assert (Hinit : forall d, (d < 3)%nat -> is_Some (init !! d)).
  { intros d Hd. destruct (lookup_lt_is_Some_2 [a3; a2; a1] d) as [ax Hax']; [simpl; lia|].
    destruct (Hbuilt d ax Hax') as (? & ? & ini & ? & ? & ? & ? & ? & ? & Hi & _). by exists ini. }
  enough (wp (scan_grid env [x3; x2; x1] size step init) w (fun r w' =>
            r = Ok tt /\ inv3 (volume (len a3) (len a2) (len a1)) w')) as H.
  { unfold wp in H. destruct (scan_grid env [x3; x2; x1] size step init w) as [r w'].
    simpl in H. destruct H as (-> & _ & _ & ext & Hc & Hm). by exists w', ext. }
  unfold scan_grid.
  apply wp_bind, wp_modify. fold w0.
  apply wp_bind. unfold wp at 1. rewrite Hg0. simpl.
  unfold open_scan. apply wp_bind, wp_call_ok; [done|].
  apply wp_bind, wp_modify. apply wp_bind, wp_modify. apply wp_bind, wp_get.
  apply wp_bind, wp_lift. rewrite full_ok by (simpl; lia).
  apply wp_bind, wp_modify. apply wp_bind, wp_modify. apply wp_bind, wp_modify.
  apply wp_bind, wp_time.
  apply wp_bind, wp_lift.
  change (Py.getitem [Py.range (len a3); Py.range (len a2); Py.range (len a1)] (-1))
    with (Ok (Py.range (len a1)) : result (list Z)).
  cbv beta iota.
  match goal with |- wp _ ?wk _ => set (w1 := wk) end.
  assert (Hi1 : inv3 [] w1).
  { split; [simpl; by rewrite no_abort|]. split; [by eexists|].
    exists [COpenScan]. split; [by rewrite Hh|done]. }
  wp_use (wp_volume [] (len a1) w1 Hi1 eq_refl).
  intros r w2 (pnts' & -> & Hi2).
  apply wp_bind, wp_time.
  unfold print_scan_time. apply wp_bind, wp_call_ok; [done|].
  apply wp_bind, wp_modify.
  match goal with |- wp _ ?wk _ => set (w3 := wk) end.
  assert (Hi3 : inv3 (volume (len a3) (len a2) (len a1)) w3).
  { apply (inv3_call _ (CPrintScanTime _) w2 eq_refl Hi2). }
  wp_use (wp_move_back3 _ init w3 Hinit Hi3). intros r w4 (-> & Hi4).
  unfold analyse_scan, close_scan.
  apply wp_bind, wp_call_ok; [done|]. apply wp_bind, wp_call_ok; [done|].
  apply wp_modify. split; [done|].
  apply (inv3_call _ CCloseScan _ eq_refl), (inv3_call _ CAnalyseScan _ eq_refl), Hi4.
Qed.

End Volume.

Lemma elem_of_volume_rows n3 t js k idx :
  idx ∈ volume_rows n3 t js k <-> exists i j, idx = [i; j; k] /\ 0 <= i < n3 /\ j ∈ js.
Proof.
  revert t. induction js as [|j js IH]; intros t; cbn [volume_rows].
  - split; [by intros H%elem_of_nil|]. intros (i & j & _ & _ & H%elem_of_nil). done.
  - rewrite elem_of_app, IH. unfold volume_row. rewrite list_elem_of_fmap. split.
    + intros [(i & -> & Hi)|(i & j' & -> & Hi & Hj)].
      * apply elem_of_sweep in Hi. exists i, j. split; [done|]. split; [done|]. by left.
      * exists i, j'. split; [done|]. split; [done|]. by right.
    + intros (i & j' & -> & Hi & Hj). apply elem_of_cons in Hj as [->|Hj].
      * left. exists i. split; [done|]. by apply elem_of_sweep.
      * right. eauto.
Qed.

Lemma NoDup_volume_rows n3 t js k : NoDup js -> NoDup (volume_rows n3 t js k).
Proof.
  intros Hjs. revert t. induction Hjs as [|j js Hj Hjs IH]; intros t; cbn [volume_rows].
  - constructor.
  - apply NoDup_app. split; [|split; [|apply IH]].
    + unfold volume_row. apply NoDup_fmap_2; [|apply NoDup_sweep].
      intros i1 i2 [= ->]. done.
    + intros idx H1 H2. unfold volume_row in H1.
      apply list_elem_of_fmap in H1 as (i & -> & _).
      apply elem_of_volume_rows in H2 as (i' & j' & [= <- <-] & _ & Hj'). done.
Qed.

Lemma length_volume_rows n3 t js k :
  0 <= n3 -> len (volume_rows n3 t js k) = n3 * len js.
Proof.
  intros Hn. revert t. induction js as [|j js IH]; intros t; cbn [volume_rows].
  - unfold len. simpl. lia.
  - unfold len in *. rewrite length_app, Nat2Z.inj_add, IH, length_cons, Nat2Z.inj_succ.
    unfold volume_row. rewrite length_fmap.
    pose proof (length_sweep n3 t Hn) as Hs. unfold len in Hs. rewrite Hs. lia.
Qed.

Lemma elem_of_volume n3 n2 n1 idx :
  idx ∈ volume n3 n2 n1 <->
  exists i j k, idx = [i; j; k] /\ 0 <= i < n3 /\ 0 <= j < n2 /\ 0 <= k < n1.
Proof.
  unfold volume, volume_layer, Py.range. rewrite elem_of_concat. split.
  - intros (l & Hl & Hx). apply list_elem_of_fmap in Hl as (k & -> & Hk).
    apply elem_of_seqZ in Hk. apply elem_of_volume_rows in Hx as (i & j & -> & Hi & Hj).
    apply elem_of_sweep in Hj. exists i, j, k. repeat split; lia.
  - intros (i & j & k & -> & Hi & Hj & Hk). eexists. split.
    + apply list_elem_of_fmap. exists k. split; [done|]. apply elem_of_seqZ. lia.
    + apply elem_of_volume_rows. exists i, j. split; [done|]. split; [done|].
      by apply elem_of_sweep.
Qed.

Lemma NoDup_volume_layers n3 n2 (ks : list Z) :
  NoDup ks -> NoDup (concat (volume_layer n3 n2 <$> ks)).
Proof.
  induction 1 as [|k ks Hk Hks IH]; simpl; [constructor|].
  apply NoDup_app. split; [apply NoDup_volume_rows, NoDup_sweep|]. split; [|done].
  intros idx H1 H2. apply elem_of_volume_rows in H1 as (i & j & -> & _).
  apply elem_of_concat in H2 as (l & Hl & Hx).
  apply list_elem_of_fmap in Hl as (k' & -> & Hk').
  apply elem_of_volume_rows in Hx as (i' & j' & [= <- <- <-] & _). done.
Qed.

Lemma NoDup_volume n3 n2 n1 : NoDup (volume n3 n2 n1).
Proof. apply NoDup_volume_layers, NoDup_seqZ. Qed.

Lemma length_volume_layers n3 n2 (ks : list Z) :
  0 <= n3 -> 0 <= n2 -> len (concat (volume_layer n3 n2 <$> ks)) = n3 * n2 * len ks.
Proof.
  intros H3 H2. unfold len. induction ks as [|k ks IH]; [simpl; lia|].
  rewrite fmap_cons. cbn [concat].
  rewrite length_app, Nat2Z.inj_add, IH, length_cons, Nat2Z.inj_succ.
  pose proof (length_volume_rows n3 (k * n2) (sweep n2 k) k H3) as Hl.
  pose proof (length_sweep n2 k H2) as Hs. unfold len in Hl, Hs.
  unfold volume_layer. rewrite Hl, Hs. lia.
Qed.

Lemma length_volume n3 n2 n1 :
  0 <= n3 -> 0 <= n2 -> 0 <= n1 -> len (volume n3 n2 n1) = n3 * n2 * n1.
Proof.
  intros H3 H2 H1. unfold volume. rewrite length_volume_layers by done.
  unfold Py.range, len. rewrite length_seqZ. lia.
Qed.

(** A three-axis scan in which no call raises and nobody asks for an
    abort returns after it has measured the grid layer by layer of the
    last axis.  Within a layer the middle axis is walked downwards on the
    even layers and upwards on the odd ones; the first axis is walked
    downwards on the even rows of the whole scan and upwards on the odd
    ones, whatever the layer.  Every point of the grid is measured exactly
    once, and [_index] ends equal to [total_points]. *)
Theorem volume_scan_order env w x y z size step init a3 a2 a1 :
  (forall h c, env_raises env h c = None) ->
  (forall h c, env_abort env h c = false) ->
  (init_grid [x; y; z] size step init w).1 = Ok [a3; a2; a1] ->
  exists w' ext,
    scan_grid env [x; y; z] size step init w = (Ok tt, w') /\
    calls w' = calls w ++ ext /\
    measured ext = volume (len a3) (len a2) (len a1) /\
    NoDup (measured ext) /\
    (forall idx, idx ∈ measured ext <->
                 exists i j k, idx = [i; j; k] /\
                               0 <= i < len a3 /\ 0 <= j < len a2 /\ 0 <= k < len a1) /\
    total_points (self w') = len a3 * len a2 * len a1 /\
    _index (self w') = total_points (self w').
Proof.
  intros Hr Ha Hg.
  destruct (scan_grid_volume env Hr Ha (calls w) x y z a3 a2 a1 size step init w eq_refl Hg)
    as (w' & ext & Hrun & Hc & Hm).
  exists w', ext. split; [done|]. split; [done|]. split; [done|].
  split; [rewrite Hm; apply NoDup_volume|].
  split; [intros idx; rewrite Hm; apply elem_of_volume|].
  pose proof (keeps_grid_scan_tail env [x; y; z] init [a3; a2; a1]
                (with_grid [a3; a2; a1]
                   {| self := set_abort_requested false (self w); calls := calls w |})) as Hk.
  rewrite <- (scan_grid_tail env [x; y; z] size step init w _ Hg), Hrun in Hk.
  simpl in Hk. injection Hk as Hshape Htotal _.
  assert (Ht : total_points (self w') = len a3 * len a2 * len a1).
  { rewrite Htotal. unfold Py.prod. simpl. lia. }
  split; [done|].
  destruct (scan_grid_index env [x; y; z] size step init w w' Hrun) as (ext' & Hc' & Hi).
  rewrite Hc in Hc'. apply app_inv_head in Hc'. subst ext'.
  rewrite Hi, Hm, Ht. apply length_volume; unfold len; lia.
Qed.

Definition xyz : list string := ["x"; "y"; "z"].
Definition ones3 : list float := [1%float; 1%float; 1%float].
Definition zeros3 : list float := [0%float; 0%float; 0%float].

Lemma volume_scan_order_witness :
  exists w' ext,
    scan_grid quiet xyz ones3 ones3 zeros3 scanner3 = (Ok tt, w') /\
    calls w' = calls scanner3 ++ ext /\
    measured ext = [[1; 1; 0]; [0; 1; 0]; [0; 0; 0]; [1; 0; 0];
                    [1; 0; 1]; [0; 0; 1]; [0; 1; 1]; [1; 1; 1]] /\
    total_points (self w') = 8 /\ _index (self w') = 8.
Proof.
  assert (Hr : forall h c, env_raises quiet h c = None) by reflexivity.
  assert (Ha : forall h c, env_abort quiet h c = false) by reflexivity.
  assert (Hg : (init_grid xyz ones3 ones3 zeros3 scanner3).1
               = Ok [grid_of scanner3 xyz ones3 ones3 zeros3 0;
                     grid_of scanner3 xyz ones3 ones3 zeros3 1;
                     grid_of scanner3 xyz ones3 ones3 zeros3 2]).
  { vm_compute. reflexivity. }
  destruct (volume_scan_order quiet scanner3 "x" "y" "z" _ _ _ _ _ _ Hr Ha Hg)
    as (w' & ext & Hrun & Hc & Hm & _ & _ & Ht & Hi).
  exists w', ext. split; [exact Hrun|]. split; [exact Hc|].
  split; [rewrite Hm; vm_compute; reflexivity|].
  split; [rewrite Ht; vm_compute; reflexivity|].
  rewrite Hi, Ht. vm_compute. reflexivity.
Defined.

(** The same scan, run: the calls of [scan_function] come in that order. *)
Example volume_scan_run :
  measured (calls (scan_grid quiet xyz ones3 ones3 zeros3 scanner3).2)
  = [[1; 1; 0]; [0; 1; 0]; [0; 0; 0]; [1; 0; 0];
     [1; 0; 1]; [0; 0; 1]; [0; 1; 1]; [1; 1; 1]].
Proof. vm_compute. reflexivity. Qed.

(** *** The calls of a plane scan, one by one *)

(** The coordinate of index [i] along the axis [ax]. *)
Definition coord (ax : list float) (i : Z) : float := default 0%float (ax !! Z.to_nat i).

(** The calls of a row of a plane scan: for each inner index, the move of
    the inner axis to its coordinate and then the measurement. *)
Definition plane_row_calls (u : float) (x : string) (inner : list float) (js : list Z) (k : Z)
    : list Call :=
  js ≫= fun j => [CMove (coord inner j / u) x; CScanFunction [j; k]].

(** The calls of layer [k]: the drift compensation, the move of the outer
    axis, and the row. *)
Definition plane_layer_calls (u : float) (x y : string) (inner outer : list float) (k : Z)
    : list Call :=
  CDriftCompensation :: CMove (coord outer k / u) y
    :: plane_row_calls u x inner (sweep (len inner) k) k.

Definition plane_calls (u : float) (x y : string) (inner outer : list float) : list Call :=
  Py.range (len outer) ≫= plane_layer_calls u x y inner outer.

Section PlaneTrace.

Variable env : Env.
Hypothesis no_raise : forall h c, env_raises env h c = None.
Hypothesis no_abort : forall h c, env_abort env h c = false.

Variable h0 : list Call.
Variable u : float.
Variables x2 x1 : string.
Variables a2 a1 : list float.

Definition inv_trace (tr : list Call) (w : World) : Prop :=
  abort_requested (self w) = false /\
  stage_units (self w) = u /\
  (exists a, _step_times (self w) = Some a /\ Np.shape a = [len a2; len a1]) /\
  calls w = h0 ++ tr.

Lemma inv_trace_call tr c w : inv_trace tr w -> inv_trace (tr ++ [c]) (after_call env c w).
Proof using no_abort.
  intros (Hab & Hu & Ht & Hc). split; [|split; [done|split; [done|]]].
  - simpl. by rewrite Hab, no_abort.
  - simpl. by rewrite Hc, <- app_assoc.
Qed.

Lemma wp_move_trace tr pos a w :
  inv_trace tr w ->
  wp (move env pos a) w (fun r w' => r = Ok tt /\ inv_trace (tr ++ [CMove (pos / u) a]) w').
Proof using no_raise no_abort.
  intros Hi. unfold move. apply wp_bind, wp_get. apply wp_call_ok; [done|].
  split; [done|]. destruct Hi as (Hab & Hu & Hi). rewrite Hu.
  apply inv_trace_call. by split.
Qed.

Lemma wp_scan_point_trace tr j k w :
  inv_trace tr w -> 0 <= j < len a2 -> 0 <= k < len a1 ->
  wp (scan_point env [j; k]) w (fun r w' =>
    r = Ok tt /\ inv_trace (tr ++ [CScanFunction [j; k]]) w').
Proof using no_raise no_abort.
  intros (Hab & Hu & (a & Ha & Hsh) & Hc) Hj Hk.
  unfold scan_point, _timed_scan_function, scan_function.
  apply wp_bind, wp_modify.
  apply wp_bind. apply wp_bind, wp_time. apply wp_bind, wp_call_ok; [done|].
  apply wp_bind, wp_time. apply wp_bind, wp_get. simpl. rewrite Ha.
  apply wp_bind, wp_lift. unfold Np.setitem.
  destruct (ravel_valid (Np.shape a) [j; k] 0) as [off ->].
  { rewrite Hsh. by repeat (constructor; [lia|]). }
  apply wp_modify. apply wp_modify. split; [done|].
  split; [|split; [done|split; [by eexists|]]].
  - simpl. by rewrite Hab, no_abort.
  - simpl. by rewrite Hc, <- app_assoc.
Qed.

Lemma wp_plane_row_trace tr (js : list Z) k pnts w :
  inv_trace tr w -> 0 <= k < len a1 -> in_axis js a2 ->
  wp (for_in js (loop_j env [x2; x1] [a2; a1] k) pnts) w (fun r w' =>
    r = Ok pnts /\ inv_trace (tr ++ plane_row_calls u x2 a2 js k) w').
Proof using no_raise no_abort.
  intros Hi Hk Hin.
  apply (wp_for_in _ (fun visited s w' =>
           s = pnts /\ inv_trace (tr ++ plane_row_calls u x2 a2 visited k) w')).
  - split; [done|]. by rewrite app_nil_r.
  - intros visited j rest s w1 El [-> Hi1]. unfold loop_j.
    pose proof (Hin j (elem_of_middle _ _ _ _ El)) as Hj.
    apply wp_bind, wp_get. pose proof Hi1 as (Hab & _). rewrite Hab.
    apply wp_bind, wp_lift. change (Py.getitem [a2; a1] (-2)) with (Ok a2 : result (list float)).
    destruct (getitem_valid a2 j Hj) as (pos & -> & Hpos).
    apply wp_bind, wp_lift. simpl.
    apply wp_bind, wp_lift. change (Py.getitem [x2; x1] (-2)) with (Ok x2 : result string).
    wp_use (wp_move_trace _ pos x2 w1 Hi1). intros r w2 (-> & Hi2).
    change (len [x2; x1] =? 3) with false. change (len [x2; x1] =? 2) with true.
    wp_use (wp_scan_point_trace _ j k w2 Hi2 Hj Hk). intros r w3 (-> & Hi3).
    apply wp_ret. split; [done|].
    unfold plane_row_calls in *. rewrite bind_app. simpl.
    unfold coord at 2. rewrite Hpos. simpl.
    rewrite <- !app_assoc in Hi3. exact Hi3.
  - intros s w1 [-> Hi1]. done.
Qed.

Lemma wp_plane_trace tr0 (n : Z) w :
  inv_trace tr0 w -> n = len a1 ->
  wp (for_in (Py.range n) (loop_k env [x2; x1] [a2; a1])
        [Py.range (len a2); Py.range (len a1)]) w (fun r w' =>
    exists pnts, r = Ok pnts /\ inv_trace (tr0 ++ plane_calls u x2 x1 a2 a1) w').
Proof using no_raise no_abort.
  intros Hi Hn.
  apply (wp_for_in _ (fun visited s w' =>
           s = [toggled (len a2) (len visited); Py.range (len a1)] /\
           inv_trace (tr0 ++ (visited ≫= plane_layer_calls u x2 x1 a2 a1)) w')).
  - split; [done|]. by rewrite app_nil_r.
  - intros visited k rest s w1 El [-> Hi1]. unfold loop_k.
    apply range_split in El as [-> Hk].
    apply wp_bind, wp_get. pose proof Hi1 as (Hab & _). rewrite Hab.
    unfold update_drift_compensation. apply wp_bind, wp_call_ok; [done|].
    pose proof (inv_trace_call _ CDriftCompensation w1 Hi1) as Hi2.
    apply wp_bind, wp_lift.
    match goal with |- context [Py.getitem [?p; ?q] (-1)] =>
      change (Py.getitem [p; q] (-1)) with (Ok q : result (list Z)) end.
    apply wp_bind, wp_modify.
    apply wp_bind, wp_lift. change (Py.getitem [a2; a1] (-1)) with (Ok a1 : result (list float)).
    destruct (getitem_valid a1 (len visited)) as (pos & -> & Hpos); [lia|].
    apply wp_bind, wp_lift. simpl.
    apply wp_bind, wp_lift. change (Py.getitem [x2; x1] (-1)) with (Ok x1 : result string).
    wp_use (wp_move_trace _ pos x1); [exact Hi2|]. intros r w3 (-> & Hi3).
    apply wp_bind, wp_lift.
    match goal with |- context [Py.getitem [?p; ?q] (-2)] =>
      change (Py.getitem [p; q] (-2)) with (Ok p : result (list Z)) end.
    apply wp_bind, wp_lift.
    match goal with |- context [Py.setitem [?p; ?q] (-2) ?v] =>
      change (Py.setitem [p; q] (-2) v) with (Ok [v; q] : result (list (list Z))) end.
    apply wp_bind, wp_lift.
    match goal with |- context [Py.getitem [?p; ?q] (-2)] =>
      change (Py.getitem [p; q] (-2)) with (Ok p : result (list Z)) end.
    rewrite reverse_toggled.
    wp_use (wp_plane_row_trace _ (sweep (len a2) (len visited)) (len visited) _ w3 Hi3); [lia| |].
    { intros j Hj. apply elem_of_sweep in Hj. lia. }
    intros r w4 (-> & Hi4). apply wp_ret. split.
    + rewrite sweep_toggled. do 2 f_equal. unfold len. rewrite length_app. simpl. lia.
    + rewrite bind_app. simpl. rewrite app_nil_r.
      unfold coord at 1. rewrite Hpos. simpl.
      rewrite <- !app_assoc in Hi4. simpl in Hi4. exact Hi4.
  - intros s w1 [-> Hi1]. subst n. eexists. split; [done|]. exact Hi1.
Qed.

Lemma wp_move_back_trace tr init w :
  (forall d, (d < 2)%nat -> is_Some (init !! d)) -> inv_trace tr w ->
  wp (move_back env [x2; x1] init) w (fun r w' =>
    r = Ok tt /\ inv_trace (tr ++ back_moves u [x2; x1] init) w').
Proof using no_raise no_abort.
  intros Hinit Hi. unfold move_back.
  apply (wp_for_in _ (fun visited _ w' =>
           inv_trace (tr ++ take (length visited) (back_moves u [x2; x1] init)) w')).
  - simpl. by rewrite app_nil_r.
  - intros visited i rest [] w1 El Hi1.
    apply range_split in El as [-> Hx]. unfold len in Hx. simpl in Hx.
    destruct (Hinit (length visited)) as [xi Hxi]; [lia|].
    destruct (lookup_lt_is_Some_2 [x2; x1] (length visited)) as [ai Hai]; [simpl; lia|].
    apply wp_bind, wp_lift. unfold len. rewrite (getitem_lookup _ _ _ Hxi).
    apply wp_bind, wp_lift. rewrite (getitem_lookup _ _ _ Hai).
    wp_use (wp_move_trace _ xi ai w1 Hi1). intros r w2 (-> & Hi2).
    apply wp_ret. rewrite <- app_assoc in Hi2.
    rewrite length_app. simpl. rewrite Nat.add_1_r.
    erewrite take_S_r; [exact Hi2|].
    unfold back_moves. rewrite lookup_zip_with, Hxi. simpl. by rewrite Hai.
  - intros [] w1 Hi1. split; [done|].
    rewrite take_ge in Hi1; [done|].
    unfold back_moves, Py.range, len. rewrite length_zip_with, length_seqZ. simpl. lia.
Qed.

Lemma scan_grid_plane_trace size step init w :
  h0 = calls w -> u = stage_units (self w) ->
  (init_grid [x2; x1] size step init w).1 = Ok [a2; a1] ->
  exists w',
    scan_grid env [x2; x1] size step init w = (Ok tt, w') /\
    calls w' = h0 ++ COpenScan :: plane_calls u x2 x1 a2 a1
                 ++ CPrintScanTime (env_time env (h0 ++ COpenScan :: plane_calls u x2 x1 a2 a1)
                                    - env_time env (h0 ++ [COpenScan]))
                 :: back_moves u [x2; x1] init ++ [CAnalyseScan; CCloseScan].
Proof using no_raise no_abort.
  intros Hh Hu Hgrid.
  set (w0 := {| self := set_abort_requested false (self w); calls := calls w |}).
  assert (Hg0 : init_grid [x2; x1] size step init w0 = (Ok [a2; a1], with_grid [a2; a1] w0)).
  { apply (init_grid_same_units _ _ _ _ w); [done|done]. }
  pose proof (init_grid_run [x2; x1] size step init w0) as Hrun. rewrite Hg0 in Hrun.
  destruct Hrun as (_ & _ & Hbuilt).
  assert (Hinit : forall d, (d < 2)%nat -> is_Some (init !! d)).
  { intros d Hd. destruct (lookup_lt_is_Some_2 [a2; a1] d) as [ax Hax']; [simpl; lia|].
    destruct (Hbuilt d ax Hax') as (? & ? & ini & ? & ? & ? & ? & ? & ? & Hi & _). by exists ini. }
  set (body := plane_calls u x2 x1 a2 a1).
  set (t := (env_time env (h0 ++ COpenScan :: body) - env_time env (h0 ++ [COpenScan]))%float).
  enough (wp (scan_grid env [x2; x1] size step init) w (fun r w' =>
            r = Ok tt /\
            inv_trace (COpenScan :: body ++ CPrintScanTime t
                         :: back_moves u [x2; x1] init ++ [CAnalyseScan; CCloseScan]) w')) as H.
  { unfold wp in H. destruct (scan_grid env [x2; x1] size step init w) as [r w'].
    simpl in H. destruct H as (-> & _ & _ & _ & Hc). by exists w'. }
  unfold scan_grid.
  apply wp_bind, wp_modify. fold w0.
  apply wp_bind. unfold wp at 1. rewrite Hg0. simpl.
  unfold open_scan. apply wp_bind, wp_call_ok; [done|].
  apply wp_bind, wp_modify. apply wp_bind, wp_modify. apply wp_bind, wp_get.
  apply wp_bind, wp_lift. rewrite full_ok by (simpl; lia).
  apply wp_bind, wp_modify. apply wp_bind, wp_modify. apply wp_bind, wp_modify.
  apply wp_bind, wp_time.
  apply wp_bind, wp_lift.
  change (Py.getitem [Py.range (len a2); Py.range (len a1)] (-1))
    with (Ok (Py.range (len a1)) : result (list Z)).
  cbv beta iota.
  match goal with |- wp _ ?wk _ => set (w1 := wk) end.
  assert (Hi1 : inv_trace [COpenScan] w1).
  { split; [simpl; by rewrite no_abort|]. split; [done|]. split; [by eexists|].
    simpl. by rewrite Hh. }
  wp_use (wp_plane_trace [COpenScan] (len a1) w1 Hi1 eq_refl).
  intros r w2 (pnts' & -> & Hi2).
  apply wp_bind, wp_time.
  unfold print_scan_time. apply wp_bind, wp_call_ok; [done|].
  apply wp_bind, wp_modify.
  match goal with |- wp _ ?wk _ => set (w3 := wk) end.
  assert (Hc2 : calls w2 = h0 ++ COpenScan :: body) by (by destruct Hi2 as (_ & _ & _ & ->)).
  assert (Hi3 : inv_trace ((COpenScan :: body) ++ [CPrintScanTime t]) w3).
  { destruct Hi2 as (Hab2 & Hu2 & Ht2 & _).
    split; [simpl; by rewrite Hab2, no_abort|]. split; [done|]. split; [done|].
    subst w3 t. cbn [calls after_call]. rewrite Hc2, <- app_assoc.
    do 4 f_equal. simpl. by rewrite Hh. }
  wp_use (wp_move_back_trace _ init w3 Hinit Hi3). intros r w4 (-> & Hi4).
  unfold analyse_scan, close_scan.
  apply wp_bind, wp_call_ok; [done|]. apply wp_bind, wp_call_ok; [done|].
  apply wp_modify. split; [done|].
  pose proof (inv_trace_call _ CCloseScan _ (inv_trace_call _ CAnalyseScan _ Hi4)) as Hi5.
  rewrite <- !app_assoc in Hi5. simpl in Hi5. rewrite <- !app_assoc in Hi5. exact Hi5.
Qed.

End PlaneTrace.

(** A two-axis scan in which no call raises and nobody asks for an abort
    makes exactly these calls: [open_scan]; for each layer of the outer
    axis the drift compensation, the move of the outer axis to the layer's
    coordinate and, for each inner index in the direction of the layer,
    the move of the inner axis to its coordinate followed by the
    measurement at that index pair; then the report of the duration, the
    moves back to [init], [analyse_scan] and [close_scan].  Every position
    is divided by [stage_units]. *)
Theorem plane_scan_trace env w x y size step init inner outer :
  (forall h c, env_raises env h c = None) ->
  (forall h c, env_abort env h c = false) ->
  (init_grid [x; y] size step init w).1 = Ok [inner; outer] ->
  exists w',
    scan_grid env [x; y] size step init w = (Ok tt, w') /\
    calls w' = calls w ++ COpenScan :: plane_calls (stage_units (self w)) x y inner outer
                 ++ CPrintScanTime
                      (env_time env (calls w ++ COpenScan
                                       :: plane_calls (stage_units (self w)) x y inner outer)
                       - env_time env (calls w ++ [COpenScan]))
                 :: back_moves (stage_units (self w)) [x; y] init
                 ++ [CAnalyseScan; CCloseScan].
Proof.
  intros Hr Ha Hg.
  apply (scan_grid_plane_trace env Hr Ha (calls w) (stage_units (self w)) x y inner outer
           size step init w eq_refl eq_refl Hg).
Qed.

Lemma plane_scan_trace_witness :
  exists w',
    scan_grid quiet xy ones [0.5%float; 1%float] zeros scanner2 = (Ok tt, w') /\
    calls w'
    = [COpenScan;
       CDriftCompensation; CMove (-4.9999999999999998e-07) "y";
       CMove 4.9999999999999998e-07 "x"; CScanFunction [2; 0];
       CMove 0 "x"; CScanFunction [1; 0];
       CMove (-4.9999999999999998e-07) "x"; CScanFunction [0; 0];
       CDriftCompensation; CMove 4.9999999999999998e-07 "y";
       CMove (-4.9999999999999998e-07) "x"; CScanFunction [0; 1];
       CMove 0 "x"; CScanFunction [1; 1];
       CMove 4.9999999999999998e-07 "x"; CScanFunction [2; 1];
       CPrintScanTime 16; CMove 0 "x"; CMove 0 "y"; CAnalyseScan; CCloseScan].
Proof.
  assert (Hr : forall h c, env_raises quiet h c = None) by reflexivity.
  assert (Ha : forall h c, env_abort quiet h c = false) by reflexivity.
  assert (Hg : (init_grid xy ones [0.5%float; 1%float] zeros scanner2).1
               = Ok [grid_of scanner2 xy ones [0.5%float; 1%float] zeros 0;
                     grid_of scanner2 xy ones [0.5%float; 1%float] zeros 1]).
  { vm_compute. reflexivity. }
  destruct (plane_scan_trace quiet scanner2 "x" "y" _ _ _ _ _ Hr Ha Hg) as (w' & Hrun & Hc).
  exists w'. split; [exact Hrun|]. rewrite Hc. vm_compute. reflexivity.
Defined.

(** *** Durations in words *)

Lemma SFcompare_antisym x y c :
  SFcompare x y = Some c -> SFcompare y x = Some (CompOpp c).
Proof.
  destruct x as [sx|sx| |sx mx ex], y as [sy|sy| |sy my ey]; simpl; try discriminate;
    try (intros [= <-]; by repeat match goal with b : bool |- _ => destruct b end).
  intros [= <-]. f_equal.
  pose proof (Pos.compare_cont_antisym mx my Eq) as H. simpl in H.
  destruct sx, sy; try done.
  - rewrite (Z.compare_antisym ex ey).
    destruct (ex ?= ey); simpl; try done. by rewrite <- H.
  - rewrite (Z.compare_antisym ex ey).
    destruct (ex ?= ey); simpl; try done.
Qed.

Lemma is_nan_false_compare (x y : float) :
  is_nan x = false -> is_nan y = false ->
  exists c, SFcompare (Prim2SF x) (Prim2SF y) = Some c.
Proof.
  unfold is_nan. rewrite !FloatAxioms.eqb_spec. unfold SFeqb.
  destruct (Prim2SF x) as [| | |], (Prim2SF y) as [| | |]; simpl; try discriminate; eauto.
Qed.

(** Two numbers, neither of them NaN, are comparable. *)
Lemma ltb_or_leb (x y : float) :
  is_nan x = false -> is_nan y = false -> (x <? y)%float = true \/ (y <=? x)%float = true.
Proof.
  intros Hx Hy. rewrite FloatAxioms.ltb_spec, FloatAxioms.leb_spec. unfold SFltb, SFleb.
  destruct (is_nan_false_compare x y Hx Hy) as [c Hc].
  rewrite Hc, (SFcompare_antisym _ _ c Hc). destruct c; auto.
Qed.

Lemma is_nan_true (x : float) : is_nan x = true -> Prim2SF x = S754_nan.
Proof.
  unfold is_nan. rewrite FloatAxioms.eqb_spec. unfold SFeqb.
  destruct (Prim2SF x) as [s|s| |s m e]; simpl; try done.
  - by destruct s.
  - rewrite Z.compare_refl, Pos.compare_cont_refl. by destruct s.
Qed.

Lemma ltb_nan (x y : float) : is_nan x = true -> (x <? y)%float = false.
Proof.
  intros H. by rewrite FloatAxioms.ltb_spec, (is_nan_true x H).
Qed.

Lemma leb_nan (x y : float) : is_nan x = true -> (y <=? x)%float = false.
Proof.
  intros H. rewrite FloatAxioms.leb_spec, (is_nan_true x H).
  unfold SFleb. by destruct (Prim2SF y).
Qed.

(** The last character of a string. *)
Fixpoint last_char (s : string) : option Ascii.ascii :=
  match s with
  | EmptyString => None
  | String c EmptyString => Some c
  | String _ s' => last_char s'
  end.

Lemma last_char_append a b : b <> EmptyString -> last_char (a +:+ b) = last_char b.
Proof.
  intros Hb. induction a as [|c a IH]; [done|].
  change (String c a +:+ b) with (String c (a +:+ b)). cbn [last_char].
  destruct (a +:+ b) eqn:E; [|exact IH].
  destruct a; [by destruct Hb|discriminate].
Qed.

(** Whether a number is a NaN; an integer never is. *)
Definition pynum_nan (t : pynum) : bool :=
  match t with PyInt _ => false | PyFloat f => is_nan f end.

Lemma int_to_float_fits (z : Z) : Z.abs z < 2 ^ 63 -> int_to_float z = Ok (Np.of_int z).
Proof.
  intros Hz. destruct (Z.le_gt_cases 0 z) as [Hp|Hn]; [apply int_to_float_small; lia|].
  unfold int_to_float.
  assert (E : Np.of_int z = (- Np.of_int (- z))%float).
  { unfold Np.of_int. rewrite Z.abs_opp.
    destruct (Z.ltb_spec (Z.abs z) (2 ^ 63)); [|lia].
    destruct (Z.ltb_spec z 0); [|lia]. destruct (Z.ltb_spec (- z) 0); [lia|done]. }
  rewrite E.
  destruct (of_int_nonneg_finite (- z)) as [_ Hf]; [lia|].
  assert (Hi : is_infinity (- Np.of_int (- z)) = false).
  { unfold is_infinity.
    rewrite FloatAxioms.eqb_spec, FloatAxioms.abs_spec, FloatAxioms.opp_spec, Prim2SF_infinity.
    by destruct (Prim2SF (Np.of_int (- z))) as [s|s| |s m e]. }
  by rewrite Hi.
Qed.

(** [format_time] raises [OverflowError] for an integer that has no finite
    double (its magnitude is then [2 ^ 63] at least) and returns a text for
    every other number: the fall-back text for a NaN and for nothing else,
    otherwise the number in seconds when it is below 120 (a negative
    duration included), in minutes from 120 to below 3600, and in hours
    from 3600 on (infinity included). *)
Theorem format_time_units (format_1f : float -> string) (t : pynum) :
  match pynum_float t with
  | Raise e =>
      e = OverflowError /\ format_time format_1f t = Raise OverflowError /\
      exists z, t = PyInt z /\ 2 ^ 63 <= Z.abs z
  | Ok x =>
      if pynum_nan t
      then format_time format_1f t = Ok "You should probably not be running this scan!"
      else
        exists s,
          format_time format_1f t = Ok s /\
          s <> "You should probably not be running this scan!" /\
          ((pynum_lt t 120 = true /\ s = format_1f x +:+ " s") \/
           (pynum_ge t 120 = true /\ pynum_lt t 3600 = true /\
            s = format_1f (x / 60)%float +:+ " mins") \/
           (pynum_ge t 3600 = true /\ s = format_1f (x / 3600)%float +:+ " hours"))
  end.
Proof.
  set (fallback := "You should probably not be running this scan!").
  assert (Hne : forall a b, (b = " s" \/ b = " mins" \/ b = " hours") -> a +:+ b <> fallback).
  { intros a b Hb E. apply (f_equal last_char) in E.
    rewrite last_char_append in E by (destruct Hb as [->|[->| ->]]; discriminate).
    destruct Hb as [->|[->| ->]]; discriminate. }
  assert (H1 : pynum_nan t = false -> pynum_lt t 120 = true \/ pynum_ge t 120 = true).
  { destruct t as [z|f]; simpl; intros En; [lia|]. by apply ltb_or_leb. }
  assert (H2 : pynum_nan t = false -> pynum_lt t 3600 = true \/ pynum_ge t 3600 = true).
  { destruct t as [z|f]; simpl; intros En; [lia|]. by apply ltb_or_leb. }
  destruct (pynum_float t) as [x|e] eqn:Ef.
  - destruct (pynum_nan t) eqn:En.
    + destruct t as [z|f]; [discriminate|]. simpl in En.
      unfold format_time, pynum_lt, pynum_ge.
      by rewrite !(ltb_nan f) , !(leb_nan f) by done.
    + specialize (H1 eq_refl). specialize (H2 eq_refl).
      unfold format_time. rewrite Ef. cbn [rmap].
      destruct (pynum_lt t 120) eqn:E1.
      { eexists. split; [done|]. split; [apply Hne; auto|]. left. done. }
      destruct H1 as [H1|H1]; [done|]. rewrite H1. simpl.
      destruct (pynum_lt t 3600) eqn:E2.
      { eexists. split; [done|]. split; [apply Hne; auto|]. right. left. done. }
      destruct H2 as [H2|H2]; [done|]. rewrite H2.
      eexists. split; [done|]. split; [apply Hne; auto|]. right. right. done.
  - destruct t as [z|f]; [|discriminate]. simpl in Ef.
    assert (e = OverflowError) as ->.
    { unfold int_to_float in Ef. destruct (is_infinity _); congruence. }
    split; [done|]. split.
    + unfold format_time, pynum_float, pynum_lt, pynum_ge. rewrite Ef. cbn [rmap].
      destruct (Z.ltb_spec z 120); [done|]. destruct (Z.leb_spec 120 z); [|lia].
      destruct (Z.ltb_spec z 3600); [done|]. destruct (Z.leb_spec 3600 z); [done|lia].
    + exists z. split; [done|].
      destruct (Z.le_gt_cases (2 ^ 63) (Z.abs z)) as [|Hlt]; [done|].
      rewrite (int_to_float_fits z Hlt) in Ef. discriminate.
Qed.

(** The integer 0 that [get_estimated_time_remaining] returns is formatted
    as the double 0, whereas a duration of [10 ^ 400] seconds, an integer,
    cannot be formatted. *)
Example format_time_of_integers (format_1f : float -> string) :
  format_time format_1f (PyInt 0) = Ok (format_1f 0%float +:+ " s") /\
  format_time format_1f (PyInt (10 ^ 400)) = Raise OverflowError.
Proof. split; vm_compute; reflexivity. Qed.

(** *** Taking the current position as the centre *)

Lemma enumerate_split {A} (l : list A) visited (p : Z * A) rest :
  Py.enumerate l = visited ++ p :: rest ->
  p.1 = len visited /\ l !! length visited = Some p.2.
Proof.
  unfold Py.enumerate, len. intros E.
  assert (H : zip (seqZ 0 (Z.of_nat (length l))) l !! length visited = Some p).
  { rewrite E. by rewrite list_lookup_middle. }
  destruct p as [i x]. apply lookup_zip_Some in H as [H1 H2].
  apply lookup_seqZ in H1 as [-> _]. simpl. split; [lia|done].
Qed.

Section PositionFacts.

Variable scanner_get_position : string -> float.

(** The value [set_init_to_current_position] computes for an axis. *)
Definition current_position (g : GridScanner) (c : float) (ax : string) : float :=
  (scanner_get_position ax * stage_units g / c)%float.

(** [set_init_to_current_position] writes [init] entry by entry, with no
    check of its length beforehand.  With an [init] at least as long as
    [axes] it returns, every axis has its reading of the stage, converted
    to the unit of [init], and the entries beyond stay.  With a shorter
    [init] it raises [IndexError] after it has overwritten every entry
    [init] has.  Nothing but [init] changes. *)
Theorem set_init_to_current_position_outcome (w : World) (c : float) :
  _unit_conversion !! _init_unit (self w) = Some c ->
  if decide (length (axes (self w)) <= length (init (self w)))%nat
  then set_init_to_current_position scanner_get_position w
       = (Ok tt, {| self := set_init ((current_position (self w) c <$> axes (self w))
                                      ++ drop (length (axes (self w))) (init (self w)))
                              (self w);
                    calls := calls w |})
  else set_init_to_current_position scanner_get_position w
       = (Raise IndexError,
          {| self := set_init (take (length (init (self w)))
                                 (current_position (self w) c <$> axes (self w))) (self w);
             calls := calls w |}).
Proof.
  intros Hc. set (vals := current_position (self w) c <$> axes (self w)).
  set (g := self w) in *. set (n := length (init g)).
  set (state := fun k : nat =>
         {| self := set_init (take k vals ++ drop k (init g)) g; calls := calls w |}).
  assert (Hw : w = state 0%nat).
  { unfold state. simpl. destruct w as [g0 h]. simpl in *. f_equal. by destruct g0. }
  assert (Hvals : length vals = length (axes g)) by (unfold vals; by rewrite length_fmap).
  enough (H : wp (set_init_to_current_position scanner_get_position) w (fun r w' =>
            if decide (length (axes g) <= n)%nat
            then r = Ok tt /\ w' = state (length (axes g))
            else r = Raise IndexError /\ w' = state n)).
  { unfold wp in H. destruct (set_init_to_current_position _ w) as [r w'].
    simpl in H. fold g. fold n. destruct (decide _) as [Hle|Hgt].
    - destruct H as [-> ->]. unfold state. rewrite take_ge by lia. done.
    - destruct H as [-> ->]. unfold state. rewrite drop_ge by (unfold n; lia).
      by rewrite app_nil_r. }
  unfold set_init_to_current_position.
  apply wp_bind, wp_get. apply wp_bind. fold g.
  apply (wp_for_in _ (fun visited _ w' =>
           (length visited <= n)%nat /\ w' = state (length visited))).
  - split; [simpl; lia|done].
  - intros visited p rest [] w1 El [Hk ->].
    apply enumerate_split in El as (Hp1 & Hp2).
    pose proof (lookup_lt_Some _ _ _ Hp2) as Hlt.
    apply wp_bind, wp_get. apply wp_bind, wp_get. apply wp_bind, wp_lift.
    unfold state at 1. cbn [self set_init _init_unit stage_units]. fold g.
    unfold dict_get. rewrite Hc.
    apply wp_bind, wp_get. apply wp_bind, wp_lift.
    unfold state at 1. cbn [self set_init init].
    unfold Py.setitem. rewrite Hp1.
    destruct (Z.ltb_spec (len visited) 0) as [Hneg|_]; [unfold len in Hneg; lia|].
    assert (Hlen : length (take (length visited) vals ++ drop (length visited) (init g)) = n).
    { rewrite length_app, length_take, length_drop. unfold n. lia. }
    rewrite Hlen.
    destruct (Z.ltb_spec (len visited) 0) as [Hneg|_]; [unfold len in Hneg; lia|].
    destruct (Z.leb_spec (Z.of_nat n) (len visited)) as [Hge|Hlt2]; simpl.
    + (* the array has no such entry *)
      assert (length visited = n) as Hv by (unfold len in Hge; lia).
      destruct (decide (length (axes g) <= n)%nat); [lia|]. split; [done|]. by rewrite Hv.
    + apply wp_bind, wp_modify. apply wp_ret. split.
      * rewrite length_app. simpl. unfold len in Hlt2. lia.
      * unfold state. cbn [self set_init calls].
        assert (Eg : forall a b, set_init a (set_init b g) = set_init a g) by done.
        rewrite Eg. do 2 f_equal.
        unfold len. rewrite Nat2Z.id, length_app. simpl.
        rewrite insert_app_r_alt by (rewrite length_take; lia).
        rewrite length_take.
        replace (length visited - length visited `min` length vals)%nat with 0%nat by lia.
        assert (Hv : vals !! length visited = Some (current_position g c p.2)).
        { unfold vals. by rewrite list_lookup_fmap, Hp2. }
        rewrite Nat.add_1_r, (take_S_r _ _ _ Hv), <- app_assoc. f_equal.
        unfold len in Hlt2.
        destruct (drop (length visited) (init g)) as [|y ys] eqn:Ed.
        { apply (f_equal length) in Ed. rewrite length_drop in Ed. simpl in Ed. unfold n in *. lia. }
        simpl. f_equal.
        replace (S (length visited)) with (length visited + 1)%nat by lia.
        by rewrite <- drop_drop, Ed.
  - intros [] w1 [Hk ->]. unfold Py.enumerate in *.
    assert (Hl : length (zip (seqZ 0 (Z.of_nat (length (axes g)))) (axes g)) = length (axes g)).
    { rewrite length_zip, length_seqZ. lia. }
    rewrite Hl in *.
    destruct (decide (length (axes g) <= n)%nat); [|lia].
    apply wp_bind, wp_get. apply wp_modify. split; [done|].
    unfold state. simpl. f_equal.
Qed.

End PositionFacts.

(** The default scanner for two axes after [scanner.init = np.zeros(1)]. *)
Definition short_init : World := (modify (set_init [0%float]) scanner2).2.

Lemma set_init_to_current_position_outcome_witness :
  set_init_to_current_position (fun _ => 2.5e-6%float) short_init
  = (Raise IndexError,
     {| self := set_init (take (length (init (self short_init)))
                            (current_position (fun _ => 2.5e-6%float) (self short_init) 1e-6
                               <$> axes (self short_init))) (self short_init);
        calls := calls short_init |}).
Proof.
  apply (set_init_to_current_position_outcome (fun _ => 2.5e-6%float) short_init 1e-6).
  reflexivity.
Defined.
